(** * Scrublet doublet detection (scanpy/preprocessing/_scrublet)

    A shallow embedding of [core.py] (class [Scrublet]) and of the two
    wrappers of [__init__.py] that drive it, together with the properties
    of the simulation, scoring and thresholding steps.

    Conventions of the model.
    - A [float64] is a rational or one of the IEEE special values
      (infinities, not-a-number). Every sum, difference, product and
      quotient is rounded to 53 significant bits, to the nearest such
      number, ties to the even significand, as binary64 arithmetic does.
      The exponent range is not bounded: overflow, underflow and signed
      zeros are idealised away. The special values and the results of
      dividing by zero are kept as numpy produces them. A whole number that
      is converted to [float64] is the size of an array, a count of its
      entries or a number of neighbors, far below [2 ^ 53], where the
      conversion is exact.
    - The sum of two integer arrays wraps around in their dtype, as
      numpy's and scipy's addition does; the sums along the rows of a
      matrix and the sizes of arrays are unbounded integers.
    - A Python object is the finite map of its attributes; reading an
      attribute that was never assigned raises [AttributeError].
    - A method is a function of the world (the process-wide numpy random
      generator and the attributes of [self]) that returns either a value
      or the exception raised, and the world it leaves behind.
    - Functions of numpy, scipy, scikit-image and of the sibling module
      [utils], which is not among the files at hand, are the fields of the
      class [Library], and so are the dtypes of the counts and of the
      total counts; what a property assumes of one of them is a hypothesis
      of its statement.
    - [random_state] is an integer seed. *)

From Stdlib Require Import ZArith QArith Qround Qabs Qpower Lia Lqa Bool List.
From Stdlib Require Import Sorted.
From stdpp Require Import gmap strings list fin_maps.

Local Open Scope Z_scope.

(** ** Rounding *)

(** [round(x)] of a float: to the nearest integer, ties to the even one. *)
Definition round_half_even (q : Q) : Z :=
  let f := Qfloor q in
  match Qcompare (q - inject_Z f) (1 # 2) with
  | Lt => f
  | Gt => f + 1
  | Eq => if Z.even f then f else f + 1
  end.

Definition pow2 (e : Z) : Q := (2 ^ e)%Q.

(** The binary exponent of a positive rational [x]: the [e] with
    [2 ^ e <= x < 2 ^ (e + 1)]. *)
Definition exponent (x : Q) : Z :=
  let e := Z.log2 (Qnum x) - Z.log2 (Zpos (Qden x)) in
  if Qle_bool (pow2 e) x then e else e - 1.

(** A positive rational rounded to a significand of 53 bits. *)
Definition round53 (x : Q) : Q :=
  let ulp := pow2 (exponent x - 52) in
  (inject_Z (round_half_even (x / ulp)) * ulp)%Q.

(** The double precision number nearest to [x], in lowest terms. *)
Definition binary64 (x : Q) : Q :=
  Qred match (x ?= 0)%Q with
       | Eq => 0
       | Gt => round53 x
       | Lt => - round53 (- x)
       end.

(** ** IEEE double precision values *)

Inductive float64 : Type :=
  | Fin (q : Q)
  | Inf (neg : bool)
  | NaN.

Definition Qzero_b (q : Q) : bool := Qeq_bool q 0.
Definition Qneg_b (q : Q) : bool := negb (Qle_bool 0 q).

(** [float(n)] of a size or a count. *)
Definition of_int (n : Z) : float64 := Fin (inject_Z n).

Definition fneg (x : float64) : float64 :=
  match x with
  | Fin q => Fin (- q)
  | Inf s => Inf (negb s)
  | NaN => NaN
  end.

Definition fadd (x y : float64) : float64 :=
  match x, y with
  | NaN, _ | _, NaN => NaN
  | Fin a, Fin b => Fin (binary64 (a + b))
  | Fin _, Inf s | Inf s, Fin _ => Inf s
  | Inf s, Inf t => if Bool.eqb s t then Inf s else NaN
  end.

Definition fsub (x y : float64) : float64 := fadd x (fneg y).

Definition fmul (x y : float64) : float64 :=
  match x, y with
  | NaN, _ | _, NaN => NaN
  | Fin a, Fin b => Fin (binary64 (a * b))
  | Fin a, Inf s | Inf s, Fin a =>
      if Qzero_b a then NaN else Inf (xorb s (Qneg_b a))
  | Inf s, Inf t => Inf (xorb s t)
  end.

(** numpy's true division: a zero divisor gives an infinity or
    not-a-number (and a warning), never an exception. *)
Definition fdiv (x y : float64) : float64 :=
  match x, y with
  | NaN, _ | _, NaN => NaN
  | Fin a, Fin b =>
      if Qzero_b b then (if Qzero_b a then NaN else Inf (Qneg_b a))
      else Fin (binary64 (a / b))
  | Fin _, Inf _ => Fin 0
  | Inf s, Fin b => Inf (xorb s (Qneg_b b))
  | Inf _, Inf _ => NaN
  end.

(** [x ** 2] *)
Definition fsquare (x : float64) : float64 := fmul x x.

(** [x > y]; every comparison with not-a-number is false. *)
Definition fgt (x y : float64) : bool :=
  match x, y with
  | NaN, _ | _, NaN => false
  | Fin a, Fin b => negb (Qle_bool a b)
  | Fin _, Inf s => s
  | Inf s, Fin _ => negb s
  | Inf s, Inf t => negb s && t
  end.

Definition flt (x y : float64) : bool := fgt y x.

(** [x >= y] *)
Definition fge (x y : float64) : bool :=
  match x, y with
  | NaN, _ | _, NaN => false
  | Fin a, Fin b => Qle_bool b a
  | Fin _, Inf s => s
  | Inf s, Fin _ => negb s
  | Inf s, Inf t => negb s || t
  end.

Definition is_finite (x : float64) : bool :=
  match x with Fin _ => true | _ => false end.

(** ** Python exceptions and the monad of a method call *)

Inductive exn : Type :=
  | AttributeError (name : string)
  | TypeError
  | ValueError
  | IndexError
  | OverflowError
  | ZeroDivisionError
  | LibraryError.

Inductive outcome (A : Type) : Type :=
  | Ok (a : A)
  | Raise (e : exn).
Arguments Ok {A} a.
Arguments Raise {A} e.

(** Pure computations that may raise. *)
Definition obind {A B} (m : outcome A) (k : A -> outcome B) : outcome B :=
  match m with
  | Ok a => k a
  | Raise e => Raise e
  end.

Notation "'try!' x := m 'in' k" := (obind m (fun x => k))
  (at level 10, x pattern, m at level 100, k at level 200).

(** [int(x)] of a float: truncation towards zero. *)
Definition truncate (q : Q) : Z := Z.quot (Qnum q) (Zpos (Qden q)).

Definition py_int (x : float64) : outcome Z :=
  match x with
  | Fin q => Ok (truncate q)
  | Inf _ => Raise OverflowError
  | NaN => Raise ValueError
  end.

Definition py_round (x : float64) : outcome Z :=
  match x with
  | Fin q => Ok (round_half_even q)
  | Inf _ => Raise OverflowError
  | NaN => Raise ValueError
  end.

(** Division of two Python floats: a zero divisor raises. *)
Definition py_truediv (x y : float64) : outcome float64 :=
  match y with
  | Fin b => if Qzero_b b then Raise ZeroDivisionError else Ok (fdiv x y)
  | _ => Ok (fdiv x y)
  end.

(** ** Arrays *)

(** A two-dimensional array (dense, or a scipy sparse matrix): its number
    of columns and its rows. *)
Record array2 (A : Type) : Type := Array2 { ncols : nat; rows : list (list A) }.
Arguments Array2 {A} ncols rows.
Arguments ncols {A} a.
Arguments rows {A} a.

(** [a.shape[0]] *)
Definition nrows {A} (a : array2 A) : Z := Z.of_nat (length (rows a)).

(** [l[i]] for one integer index: a negative index counts from the end,
    an index outside the array raises. *)
Definition np_index {A} (l : list A) (i : Z) : outcome A :=
  let n := Z.of_nat (length l) in
  let j := if i <? 0 then n + i else i in
  if (0 <=? j) && (j <? n)
  then match l !! Z.to_nat j with
       | Some a => Ok a
       | None => Raise IndexError
       end
  else Raise IndexError.

(** [l[ix]] for an array of integer indices. *)
Fixpoint np_take {A} (l : list A) (ix : list Z) : outcome (list A) :=
  match ix with
  | [] => Ok []
  | i :: ix' =>
      try! a := np_index l i in
      try! r := np_take l ix' in
      Ok (a :: r)
  end.

(** [m[ix, :]] *)
Definition take_rows {A} (m : array2 A) (ix : list Z) : outcome (array2 A) :=
  try! r := np_take (rows m) ix in Ok (Array2 (ncols m) r).

(** [l[mask]] for a boolean mask, which must have the length of [l]. *)
Fixpoint select {A} (l : list A) (mask : list bool) : list A :=
  match l, mask with
  | a :: l', b :: mask' => if b then a :: select l' mask' else select l' mask'
  | _, _ => []
  end.

Definition np_mask {A} (l : list A) (mask : list bool) : outcome (list A) :=
  if (length l =? length mask)%nat then Ok (select l mask)
  else Raise IndexError.

(** [mask.sum()]: the number of true entries. *)
Fixpoint count_true (mask : list bool) : Z :=
  match mask with
  | [] => 0
  | b :: mask' => (if b then 1 else 0) + count_true mask'
  end.

(** A function that may raise, applied along a list from left to right. *)
Fixpoint omap {A B} (f : A -> outcome B) (l : list A) : outcome (list B) :=
  match l with
  | [] => Ok []
  | a :: l' =>
      try! b := f a in
      try! r := omap f l' in
      Ok (b :: r)
  end.

(** An integer dtype: signed or not, and its number of bits. *)
Record int_dtype : Type := IntDtype { dtype_signed : bool; dtype_bits : Z }.

Definition int8 : int_dtype := IntDtype true 8.
Definition int64 : int_dtype := IntDtype true 64.

(** The value an integer takes in a dtype: numpy's integer arithmetic
    wraps around without a warning. *)
Definition wrap (d : int_dtype) (x : Z) : Z :=
  let m := 2 ^ dtype_bits d in
  if dtype_signed d then (x + m / 2) mod m - m / 2 else x mod m.

(** [x] is one of the values of dtype [d]. *)
Definition in_dtype (d : int_dtype) (x : Z) : Prop :=
  if dtype_signed d
  then - 2 ^ (dtype_bits d - 1) <= x < 2 ^ (dtype_bits d - 1)
  else 0 <= x < 2 ^ dtype_bits d.

(** [a + b] for two integer arrays of dtype [d]; the shapes handled here
    are equal ones (numpy broadcasts a length-one operand, scipy refuses
    unequal shapes). *)
Definition vec_add (d : int_dtype) (a b : list Z) : outcome (list Z) :=
  if (length a =? length b)%nat
  then Ok (zip_with (fun x y => wrap d (x + y)) a b)
  else Raise ValueError.

Definition mat_add (d : int_dtype) (a b : array2 Z) : outcome (array2 Z) :=
  if (ncols a =? ncols b)%nat && (length (rows a) =? length (rows b))%nat
  then Ok (Array2 (ncols a)
             (zip_with (zip_with (fun x y => wrap d (x + y))) (rows a) (rows b)))
  else Raise ValueError.

(** [np.vstack((a, b))] *)
Definition vstack {A} (a b : array2 A) : outcome (array2 A) :=
  if (ncols a =? ncols b)%nat then Ok (Array2 (ncols a) (rows a ++ rows b))
  else Raise ValueError.

(** [m.sum(1)]: the row sums. *)
Definition row_sums (m : array2 Z) : list Z :=
  map (fun r => foldr Z.add 0 r) (rows m).

(** [np.unique]: the sorted distinct elements. *)
Fixpoint insert_unique (x : Z) (l : list Z) : list Z :=
  match l with
  | [] => [x]
  | y :: t =>
      if x <? y then x :: l
      else if x =? y then l
      else y :: insert_unique x t
  end.

Definition np_unique (l : list Z) : list Z := foldr insert_unique [] l.

(** ** Attribute values *)

Inductive value : Type :=
  | VNone
  | VBool (b : bool)
  | VInt (n : Z)
  | VFloat (x : float64)
  | VCounts (m : array2 Z)
  | VInt0 (n : Z)
  | VInts (l : list Z)
  | VPairs (l : list (Z * Z))
  | VFloats (l : list float64)
  | VBools (l : list bool)
  | VCoords (m : array2 float64)
  | VParents (l : list (list Z))
  | VDict.

(** [x.A.squeeze()] of a column of row sums: every axis of length one is
    dropped, so a single row leaves a zero-dimensional array. *)
Definition squeeze (l : list Z) : value :=
  match l with
  | [x] => VInt0 x
  | _ => VInts l
  end.

Definition as_float (v : value) : outcome float64 :=
  match v with VFloat x => Ok x | _ => Raise TypeError end.
Definition as_int (v : value) : outcome Z :=
  match v with VInt n => Ok n | _ => Raise TypeError end.
Definition as_counts (v : value) : outcome (array2 Z) :=
  match v with VCounts m => Ok m | _ => Raise TypeError end.
Definition as_floats (v : value) : outcome (list float64) :=
  match v with VFloats l => Ok l | _ => Raise TypeError end.
Definition as_coords (v : value) : outcome (array2 float64) :=
  match v with VCoords m => Ok m | _ => Raise TypeError end.
Definition as_pairs (v : value) : outcome (list (Z * Z)) :=
  match v with VPairs l => Ok l | _ => Raise TypeError end.

(** [totals[ix]] where [totals] is the attribute [_total_counts_obs]: a
    one-dimensional array is indexed element by element, a
    zero-dimensional one accepts no index. *)
Definition take_totals (v : value) (ix : list Z) : outcome (list Z) :=
  match v with
  | VInts l => np_take l ix
  | VInt0 _ => Raise IndexError
  | _ => Raise TypeError
  end.

(** ** The libraries the code calls *)

Class Library : Type := {
  (** the state of numpy's process-wide generator *)
  rng_state : Type;
  (** [np.random.seed(s)] *)
  seed_state : Z -> rng_state;
  (** [np.random.randint(low, high, size=(n, 2))] *)
  randint_pairs : rng_state -> Z -> Z -> nat -> list (Z * Z) * rng_state;
  (** [np.sqrt] *)
  np_sqrt : float64 -> float64;
  (** [utils.subsample_counts(E, rate, original_totals, random_seed)] *)
  subsample_counts :
    array2 Z -> float64 -> list Z -> Z -> rng_state ->
    (array2 Z * list Z) * rng_state;
  (** [utils.get_knn_graph(X, k, dist_metric, approx, return_edges=False,
      random_seed)] *)
  get_knn_graph :
    array2 float64 -> Z -> string -> bool -> Z -> outcome (list (list Z));
  (** [skimage.filters.threshold_minimum] *)
  threshold_minimum : list float64 -> outcome float64;
  (** [np.array(l)] for a list [l] of integer arrays and empty lists *)
  np_array : list (list Z) -> outcome value;
  (** the dtype of the counts matrix *)
  counts_dtype : int_dtype;
  (** the dtype of the total counts *)
  totals_dtype : int_dtype
}.

(** ** The world and the monad of method calls *)

Record world {L : Library} : Type :=
  World { np_random : rng_state; self : gmap string value }.

Definition M {L : Library} (A : Type) : Type := world -> outcome A * world.

Definition ret {L : Library} {A} (a : A) : M A := fun w => (Ok a, w).

Definition bind {L : Library} {A B} (m : M A) (k : A -> M B) : M B :=
  fun w =>
    match m w with
    | (Ok a, w') => k a w'
    | (Raise e, w') => (Raise e, w')
    end.

Definition lift {L : Library} {A} (o : outcome A) : M A := fun w => (o, w).

Notation "x <- m ;; k" := (bind m (fun x => k))
  (at level 100, m at next level, right associativity).
Notation "m ;; k" := (bind m (fun _ => k))
  (at level 100, right associativity).

(** [self.name] *)
Definition getattr {L : Library} (name : string) : M value :=
  fun w =>
    match self w !! name with
    | Some v => (Ok v, w)
    | None => (Raise (AttributeError name), w)
    end.

(** [self.name = v] *)
Definition setattr {L : Library} (name : string) (v : value) : M unit :=
  fun w => (Ok tt, World L (np_random w) (<[name := v]> (self w))).

(** [hasattr(self, name)] *)
Definition hasattr {L : Library} (name : string) : M bool :=
  fun w => (Ok (bool_decide (is_Some (self w !! name))), w).

(** [np.random.seed(s)]: the seed must fit 32 bits. *)
Definition np_random_seed {L : Library} (s : Z) : M unit :=
  fun w =>
    if (0 <=? s) && (s <? 2 ^ 32)
    then (Ok tt, World L (seed_state s) (self w))
    else (Raise ValueError, w).

(** The pairs drawn for [size=(n, 2)] and the state of the generator
    after the draw: nothing is drawn for an empty array. *)
Definition draw_pairs {L : Library} (st : rng_state) (low high n : Z)
    : list (Z * Z) * rng_state :=
  if n =? 0 then ([], st) else randint_pairs st low high (Z.to_nat n).

(** [np.random.randint(low, high, size=(n, 2))]: a negative size raises,
    an empty array is returned before the range is looked at, and an
    empty range raises. *)
Definition np_random_randint {L : Library} (low high n : Z) : M (list (Z * Z)) :=
  fun w =>
    if n <? 0 then (Raise ValueError, w)
    else if (0 <? n) && (high <=? low) then (Raise ValueError, w)
    else
      let r := draw_pairs (np_random w) low high n in
      (Ok (fst r), World L (snd r) (self w)).

(** The call of [utils.subsample_counts], which draws from the
    process-wide generator. *)
Definition call_subsample_counts {L : Library}
    (E : array2 Z) (rate : float64) (totals : list Z) (seed : Z)
    : M (array2 Z * list Z) :=
  fun w =>
    let r := subsample_counts E rate totals seed (np_random w) in
    (Ok (fst r), World L (snd r) (self w)).

(** ** class Scrublet *)

(** [Scrublet.__init__] *)
Definition Scrublet_init {L : Library}
    (counts_matrix : array2 Z) (total_counts : option (list Z))
    (sim_doublet_ratio : float64) (n_neighbors : option Z)
    (expected_doublet_rate stdev_doublet_rate : float64) (random_state : Z)
    : M unit :=
  setattr "_E_obs" (VCounts counts_matrix) ;;
  setattr "_E_sim" VNone ;;
  setattr "_E_obs_norm" VNone ;;
  setattr "_E_sim_norm" VNone ;;
  setattr "_total_counts_obs"
    (match total_counts with
     | None => squeeze (row_sums counts_matrix)
     | Some t => VInts t
     end) ;;
  setattr "_gene_filter"
    (VInts (map Z.of_nat (seq 0 (ncols counts_matrix)))) ;;
  setattr "_embeddings" VDict ;;
  setattr "sim_doublet_ratio" (VFloat sim_doublet_ratio) ;;
  setattr "n_neighbors"
    (match n_neighbors with Some k => VInt k | None => VNone end) ;;
  setattr "expected_doublet_rate" (VFloat expected_doublet_rate) ;;
  setattr "stdev_doublet_rate" (VFloat stdev_doublet_rate) ;;
  setattr "random_state" (VInt random_state) ;;
  match n_neighbors with
  | Some _ => ret tt
  | None =>
      k <- lift (py_round
                   (fmul (Fin (1 # 2)) (np_sqrt (of_int (nrows counts_matrix))))) ;;
      setattr "n_neighbors" (VInt k)
  end.

(** [Scrublet.simulate_doublets] *)
Definition simulate_doublets {L : Library}
    (sim_doublet_ratio : option float64)
    (synthetic_doublet_umi_subsampling : float64) : M unit :=
  ratio <- match sim_doublet_ratio with
           | None => v <- getattr "sim_doublet_ratio" ;; lift (as_float v)
           | Some r => setattr "sim_doublet_ratio" (VFloat r) ;; ret r
           end ;;
  v <- getattr "_E_obs" ;;
  E_obs <- lift (as_counts v) ;;
  let n_obs := nrows E_obs in
  n_sim <- lift (py_int (fmul (of_int n_obs) ratio)) ;;
  v <- getattr "random_state" ;;
  seed <- lift (as_int v) ;;
  np_random_seed seed ;;
  pair_ix <- np_random_randint 0 n_obs n_sim ;;
  E1 <- lift (take_rows E_obs (map fst pair_ix)) ;;
  E2 <- lift (take_rows E_obs (map snd pair_ix)) ;;
  totals <- getattr "_total_counts_obs" ;;
  tots1 <- lift (take_totals totals (map fst pair_ix)) ;;
  tots2 <- lift (take_totals totals (map snd pair_ix)) ;;
  (if flt synthetic_doublet_umi_subsampling (of_int 1)
   then
     E <- lift (mat_add counts_dtype E1 E2) ;;
     tots <- lift (vec_add totals_dtype tots1 tots2) ;;
     v <- getattr "random_state" ;;
     seed <- lift (as_int v) ;;
     r <- call_subsample_counts E synthetic_doublet_umi_subsampling tots seed ;;
     setattr "_E_sim" (VCounts (fst r)) ;;
     setattr "_total_counts_sim" (VInts (snd r))
   else
     E <- lift (mat_add counts_dtype E1 E2) ;;
     setattr "_E_sim" (VCounts E) ;;
     tots <- lift (vec_add totals_dtype tots1 tots2) ;;
     setattr "_total_counts_sim" (VInts tots)) ;;
  setattr "doublet_parents_" (VPairs pair_ix).

(** [Scrublet.set_manifold] *)
Definition set_manifold {L : Library}
    (manifold_obs manifold_sim : array2 float64) : M unit :=
  setattr "manifold_obs_" (VCoords manifold_obs) ;;
  setattr "manifold_sim_" (VCoords manifold_sim).

(** The Bayesian score of one pooled point, as
    [_nearest_neighbor_classifier] writes it (lines 485 to 497). *)
Definition score_q (nd N : float64) : float64 :=
  fdiv (fadd nd (of_int 1)) (fadd N (of_int 2)).

Definition score_denominator (q rho r : float64) : float64 :=
  fsub (fsub (of_int 1) rho)
       (fmul q (fsub (fsub (of_int 1) rho) (fdiv rho r))).

Definition score_Ld (q rho r : float64) : float64 :=
  fdiv (fdiv (fmul q rho) r) (score_denominator q rho r).

Definition score_se_q {L : Library} (q N : float64) : float64 :=
  np_sqrt (fdiv (fmul q (fsub (of_int 1) q)) (fadd N (of_int 3))).

(** [se_rho_over_rho] is the quotient [se_rho / rho] of two Python floats,
    evaluated once for the whole array. *)
Definition score_se_Ld {L : Library}
    (q rho r se_q se_rho_over_rho : float64) : float64 :=
  fmul (fdiv (fdiv (fmul q rho) r) (fsquare (score_denominator q rho r)))
       (np_sqrt (fadd (fsquare (fmul (fdiv se_q q) (fsub (of_int 1) rho)))
                      (fsquare (fmul se_rho_over_rho (fsub (of_int 1) q))))).

(** [(doub_labels[row] == 1).sum()] for one row of the neighbor graph. *)
Definition n_sim_neigh_row (doub_labels : list Z) (row : list Z) : outcome Z :=
  try! labels := np_take doub_labels row in
  Ok (count_true (map (fun l => l =? 1) labels)).

(** One turn of the loop that collects the parents of the simulated
    neighbors of an observed cell; [neighbors] is already shifted by
    [n_obs]. *)
Definition neighbor_parents_of
    (parent_cells : list (Z * Z)) (neighbors : list (list Z)) (iCell : Z)
    : outcome (list Z) :=
  try! row := np_index neighbors iCell in
  let this_doub_neigh := select row (map (fun j => -1 <? j) row) in
  if (0 <? Z.of_nat (length this_doub_neigh))
  then
    try! pairs := np_take parent_cells this_doub_neigh in
    Ok (np_unique (flat_map (fun p => [fst p; snd p]) pairs))
  else Ok [].

(** [doub_labels]: zero for each observed row, one for each simulated
    row. *)
Definition doublet_labels (obs_rows sim_rows : nat) : list Z :=
  replicate obs_rows 0 ++ replicate sim_rows 1.

(** The value of [k * (1 + n_sim / float(n_obs))] in double precision,
    for [n_obs] other than zero: the quotient, the sum and the product
    are rounded in turn. *)
Definition adjusted_k_float (k n_obs n_sim : Z) : Q :=
  binary64 (inject_Z k
            * binary64 (1 + binary64 (inject_Z n_sim / inject_Z n_obs))).

(** Line 463: [int(round(k * (1 + n_sim / float(n_obs))))]. *)
Definition adjusted_k (k n_obs n_sim : Z) : outcome Z :=
  py_round (fmul (of_int k)
              (fadd (of_int 1) (fdiv (of_int n_sim) (of_int n_obs)))).

(** Lines 476 to 497: the scores [Ld] and their errors [se_Ld] of all
    pooled points, from the neighbor graph. *)
Definition classifier_scores {L : Library}
    (doub_labels : list Z) (n_obs n_sim k_adj : Z)
    (exp_doub_rate stdev_doub_rate : float64) (neighbors : list (list Z))
    : outcome (list float64 * list float64) :=
  try! n_sim_neigh := omap (n_sim_neigh_row doub_labels) neighbors in
  let rho := exp_doub_rate in
  let r := fdiv (of_int n_sim) (of_int n_obs) in
  let nd := map of_int n_sim_neigh in
  let N := of_int k_adj in
  let q := map (fun x => score_q x N) nd in
  let Ld := map (fun x => score_Ld x rho r) q in
  let se_rho := stdev_doub_rate in
  try! c := py_truediv se_rho rho in
  let se_Ld := map (fun x => score_se_Ld x rho r (score_se_q x N) c) q in
  Ok (Ld, se_Ld).

(** Lines 475 to 519: what [_nearest_neighbor_classifier] does with the
    graph that [get_knn_graph] returned. *)
Definition classifier_with_graph {L : Library}
    (doub_labels : list Z) (n_obs n_sim k_adj : Z)
    (exp_doub_rate stdev_doub_rate : float64) (get_neighbor_parents : bool)
    (neighbors : list (list Z)) : M unit :=
  scores <- lift (classifier_scores doub_labels n_obs n_sim k_adj
                    exp_doub_rate stdev_doub_rate neighbors) ;;
  let Ld := fst scores in
  let se_Ld := snd scores in
  x <- lift (np_mask Ld (map (fun l => l =? 0) doub_labels)) ;;
  setattr "doublet_scores_obs_" (VFloats x) ;;
  x <- lift (np_mask Ld (map (fun l => l =? 1) doub_labels)) ;;
  setattr "doublet_scores_sim_" (VFloats x) ;;
  x <- lift (np_mask se_Ld (map (fun l => l =? 0) doub_labels)) ;;
  setattr "doublet_errors_obs_" (VFloats x) ;;
  x <- lift (np_mask se_Ld (map (fun l => l =? 1) doub_labels)) ;;
  setattr "doublet_errors_sim_" (VFloats x) ;;
  if get_neighbor_parents
  then
    v <- getattr "doublet_parents_" ;;
    parent_cells <- lift (as_pairs v) ;;
    let shifted := map (map (fun j => j - n_obs)) neighbors in
    neighbor_parents <-
      lift (omap (neighbor_parents_of parent_cells shifted)
              (map Z.of_nat (seq 0 (Z.to_nat n_obs)))) ;;
    v <- lift (np_array neighbor_parents) ;;
    setattr "doublet_neighbor_parents_" v
  else ret tt.

(** [Scrublet._nearest_neighbor_classifier] *)
Definition nearest_neighbor_classifier {L : Library}
    (k : Z) (use_approx_nn : bool) (distance_metric : string)
    (exp_doub_rate stdev_doub_rate : float64) (get_neighbor_parents : bool)
    : M unit :=
  v <- getattr "manifold_obs_" ;;
  manifold_obs <- lift (as_coords v) ;;
  v <- getattr "manifold_sim_" ;;
  manifold_sim <- lift (as_coords v) ;;
  manifold <- lift (vstack manifold_obs manifold_sim) ;;
  let doub_labels :=
    doublet_labels (length (rows manifold_obs)) (length (rows manifold_sim)) in
  let n_obs := count_true (map (fun l => l =? 0) doub_labels) in
  let n_sim := count_true (map (fun l => l =? 1) doub_labels) in
  k_adj <- lift (adjusted_k k n_obs n_sim) ;;
  v <- getattr "random_state" ;;
  seed <- lift (as_int v) ;;
  neighbors <- lift (get_knn_graph manifold k_adj distance_metric
                       use_approx_nn seed) ;;
  classifier_with_graph doub_labels n_obs n_sim k_adj
    exp_doub_rate stdev_doub_rate get_neighbor_parents neighbors.

(** [Scrublet.calculate_doublet_scores] *)
Definition calculate_doublet_scores {L : Library}
    (use_approx_neighbors : bool) (distance_metric : string)
    (get_doublet_neighbor_parents : bool) : M value :=
  v <- getattr "n_neighbors" ;;
  k <- lift (as_int v) ;;
  v <- getattr "expected_doublet_rate" ;;
  rho <- lift (as_float v) ;;
  v <- getattr "stdev_doublet_rate" ;;
  se_rho <- lift (as_float v) ;;
  nearest_neighbor_classifier k use_approx_neighbors distance_metric
    rho se_rho get_doublet_neighbor_parents ;;
  getattr "doublet_scores_obs_".

(** [try: body except Exception: handler]; the handler runs in the world
    the failed body left. *)
Definition try_except {L : Library} {A} (body : M A) (handler : M A) : M A :=
  fun w =>
    match body w with
    | (Ok a, w') => (Ok a, w')
    | (Raise _, w') => handler w'
    end.

(** [(a - t) / b] for two arrays and a scalar [t]: entry by entry for
    arrays of one length; an array of one entry is broadcast along the
    other one; other lengths raise. *)
Definition z_scores (a : list float64) (t : float64) (b : list float64)
    : outcome (list float64) :=
  if (length a =? length b)%nat
  then Ok (zip_with (fun x e => fdiv (fsub x t) e) a b)
  else
    match a, b with
    | _, [e] => Ok (map (fun x => fdiv (fsub x t) e) a)
    | [x], _ => Ok (map (fun e => fdiv (fsub x t) e) b)
    | _, _ => Raise ValueError
    end.

(** [(l > t).sum() / float(len(l))] *)
Definition fraction_above (l : list float64) (t : float64) : float64 :=
  fdiv (of_int (count_true (map (fun x => fgt x t) l)))
       (of_int (Z.of_nat (length l))).

(** [Scrublet.call_doublets], lines 568 to 600: the calls once a
    threshold is known. Printing is not modelled; with [verbose] the
    summary reads [expected_doublet_rate]. *)
Definition call_doublets_at {L : Library}
    (threshold : float64) (verbose : bool) : M value :=
  v <- getattr "doublet_scores_obs_" ;;
  Ld_obs <- lift (as_floats v) ;;
  v <- getattr "doublet_scores_sim_" ;;
  Ld_sim <- lift (as_floats v) ;;
  v <- getattr "doublet_errors_obs_" ;;
  se_obs <- lift (as_floats v) ;;
  Z <- lift (z_scores Ld_obs threshold se_obs) ;;
  setattr "predicted_doublets_" (VBools (map (fun x => fgt x threshold) Ld_obs)) ;;
  setattr "z_scores_" (VFloats Z) ;;
  setattr "threshold_" (VFloat threshold) ;;
  setattr "detected_doublet_rate_" (VFloat (fraction_above Ld_obs threshold)) ;;
  setattr "detectable_doublet_fraction_"
    (VFloat (fraction_above Ld_sim threshold)) ;;
  v <- getattr "detected_doublet_rate_" ;;
  detected <- lift (as_float v) ;;
  v <- getattr "detectable_doublet_fraction_" ;;
  detectable <- lift (as_float v) ;;
  setattr "overall_doublet_rate_" (VFloat (fdiv detected detectable)) ;;
  (if verbose
   then
     getattr "detected_doublet_rate_" ;;
     getattr "detectable_doublet_fraction_" ;;
     getattr "expected_doublet_rate" ;;
     getattr "overall_doublet_rate_" ;;
     ret tt
   else ret tt) ;;
  getattr "predicted_doublets_".

(** [Scrublet.call_doublets] *)
Definition call_doublets {L : Library}
    (threshold : option float64) (verbose : bool) : M value :=
  match threshold with
  | Some t => call_doublets_at t verbose
  | None =>
      found <- try_except
                 (v <- getattr "doublet_scores_sim_" ;;
                  sim <- lift (as_floats v) ;;
                  t <- lift (threshold_minimum sim) ;;
                  ret (Some t))
                 (setattr "predicted_doublets_" VNone ;;
                  ret None) ;;
      match found with
      | Some t => call_doublets_at t verbose
      | None => getattr "predicted_doublets_"
      end
  end.

(** ** The wrappers of [__init__.py] *)

(** [Scrublet(...)] starts from an object without attributes. *)
Definition new_object {L : Library} : M unit :=
  fun w => (Ok tt, World L (np_random w) ∅).

(** The object [scrublet_simulate_doublets] returns: [.X],
    [.obs["n_counts"]], [.obsm["doublet_parents"]] and
    [.uns["scrublet"]["parameters"]["sim_doublet_ratio"]]. *)
Record adata_sim : Type := AdataSim {
  sim_X : array2 Z;
  sim_n_counts : value;
  sim_doublet_parents : value;
  sim_parameters_ratio : float64
}.

(** [scrublet_simulate_doublets]; [X] is the matrix [_get_obs_rep]
    returns for the chosen layer. *)
Definition scrublet_simulate_doublets {L : Library}
    (X : array2 Z) (sim_doublet_ratio : float64)
    (synthetic_doublet_umi_subsampling : float64) (random_seed : Z)
    : M adata_sim :=
  new_object ;;
  Scrublet_init X None (Fin 2) None (Fin (1 # 10)) (Fin (2 # 100)) random_seed ;;
  simulate_doublets (Some sim_doublet_ratio) synthetic_doublet_umi_subsampling ;;
  v <- getattr "_counts_sim" ;;
  counts_sim <- lift (as_counts v) ;;
  n_counts <- getattr "_total_counts_sim" ;;
  parents <- getattr "doublet_parents_" ;;
  ret (AdataSim counts_sim n_counts parents sim_doublet_ratio).

(** What [_scrublet_call_doublets] stores in [adata_obs]:
    [.obs["doublet_score"]], [.obs["predicted_doublet"]] and the entries
    of [.uns["scrublet"]] ([None] for an absent key). *)
Record adata_scrublet : Type := AdataScrublet {
  obs_doublet_score : list value;
  obs_predicted_doublet : list value;
  uns_doublet_scores_sim : value;
  uns_doublet_parents : value;
  uns_parameters : float64 * option float64 * Z * Z;
  uns_threshold : option value;
  uns_doublet_neighbor_parents : option value
}.

(** [obs[name] = v] for a table [obs] of [n] rows: an array must have [n]
    entries, a scalar fills the column. *)
Definition obs_assign (n : nat) (v : value) : outcome (list value) :=
  let column {A} (inj : A -> value) (l : list A) :=
    if (length l =? n)%nat then Ok (map inj l) else Raise ValueError in
  match v with
  | VFloats l => column VFloat l
  | VBools l => column VBool l
  | VInts l => column VInt l
  | VNone | VBool _ | VInt _ | VFloat _ | VInt0 _ => Ok (replicate n v)
  | _ => Raise ValueError
  end.

(** [_scrublet_call_doublets] from its call of [scrub.call_doublets]
    (line 438) to its return, run on the object [scrub] that the
    statements before it built, embedded and scored. [n] is the number of
    rows of [adata_obs], [parents] is [adata_sim.obsm["doublet_parents"]]
    and [ratio] the simulation ratio recorded in [adata_sim.uns]. *)
Definition scrublet_call_doublets_results {L : Library}
    (n : nat) (parents : value) (ratio : option float64)
    (n_neighbors : Z) (expected_doublet_rate : float64)
    (get_doublet_neighbor_parents : bool) (threshold : option float64)
    (random_state : Z) (verbose : bool) : M adata_scrublet :=
  call_doublets threshold verbose ;;
  v <- getattr "doublet_scores_obs_" ;;
  doublet_score <- lift (obs_assign n v) ;;
  scores_sim <- getattr "doublet_scores_sim_" ;;
  let parameters := (expected_doublet_rate, ratio, n_neighbors, random_state) in
  has_threshold <- hasattr "threshold_" ;;
  res <- (if has_threshold : bool
          then
            t <- getattr "threshold_" ;;
            v <- getattr "predicted_doublets_" ;;
            predicted <- lift (obs_assign n v) ;;
            ret (predicted, Some t)
          else
            predicted <- lift (obs_assign n (VBool false)) ;;
            ret (predicted, None)) ;;
  neighbor_parents <-
    (if get_doublet_neighbor_parents
     then v <- getattr "doublet_neighbor_parents_" ;; ret (Some v)
     else ret None) ;;
  ret (AdataScrublet doublet_score (fst res) scores_sim parents
         parameters (snd res) neighbor_parents).

(** The functions of the sibling module [pipeline], which is not among
    the files at hand, that [_scrublet_call_doublets] calls on the
    object: each of them may assign attributes and may raise. [pca] and
    [truncated_svd] are given [n_prin_comps] and [random_state]. *)
Record Pipeline {L : Library} : Type := {
  pipeline_zscore : M unit;
  pipeline_mean_center : M unit;
  pipeline_normalize_variance : M unit;
  pipeline_pca : Z -> value -> M unit;
  pipeline_truncated_svd : Z -> value -> M unit
}.

(** Lines 408 to 413 of [_scrublet_call_doublets]: the preprocessing
    that the two flags select. *)
Definition scrublet_preprocessing {L : Library} (P : Pipeline)
    (mean_center normalize_variance : bool) : M unit :=
  if mean_center && normalize_variance then pipeline_zscore P
  else if mean_center then pipeline_mean_center P
  else if normalize_variance then pipeline_normalize_variance P
  else ret tt.

(** [_scrublet_call_doublets]; [X] and [X_sim] are [adata_obs.X] and
    [adata_sim.X], [parents] is [adata_sim.obsm["doublet_parents"]] and
    [ratio] the simulation ratio recorded in [adata_sim.uns]. *)
Definition scrublet_call_doublets {L : Library} (P : Pipeline)
    (X X_sim : array2 Z) (parents : value) (ratio : option float64)
    (n_neighbors : option Z)
    (expected_doublet_rate stdev_doublet_rate : float64)
    (mean_center normalize_variance : bool) (n_prin_comps : Z)
    (use_approx_neighbors : bool) (knn_dist_metric : string)
    (get_doublet_neighbor_parents : bool) (threshold : option float64)
    (random_state : Z) (verbose : bool) : M adata_scrublet :=
  n_neighbors <-
    match n_neighbors with
    | Some k => ret k
    | None => lift (py_round (fmul (Fin (1 # 2)) (np_sqrt (of_int (nrows X)))))
    end ;;
  new_object ;;
  Scrublet_init X None (Fin 2) (Some n_neighbors) expected_doublet_rate
    stdev_doublet_rate random_state ;;
  setattr "_counts_obs_norm" (VCounts X) ;;
  setattr "_counts_sim_norm" (VCounts X_sim) ;;
  setattr "doublet_parents_" parents ;;
  scrublet_preprocessing P mean_center normalize_variance ;;
  (if mean_center
   then
     rs <- getattr "_random_state" ;;
     pipeline_pca P n_prin_comps rs
   else
     rs <- getattr "_random_state" ;;
     pipeline_truncated_svd P n_prin_comps rs) ;;
  calculate_doublet_scores use_approx_neighbors knn_dist_metric
    get_doublet_neighbor_parents ;;
  scrublet_call_doublets_results (length (rows X)) parents ratio n_neighbors
    expected_doublet_rate get_doublet_neighbor_parents threshold random_state
    verbose.


(** ** A small library instance, to run the model on concrete inputs *)

Module Toy.

(** A linear congruential generator stands for numpy's. *)
Definition lcg (st : Z) : Z := (st * 1103515245 + 12345) mod 2 ^ 31.

Fixpoint randint_pairs (st lo hi : Z) (n : nat) : list (Z * Z) * Z :=
  match n with
  | O => ([], st)
  | S n' =>
      let s1 := lcg st in
      let s2 := lcg s1 in
      let r := randint_pairs s2 lo hi n' in
      ((lo + s1 mod (hi - lo), lo + s2 mod (hi - lo)) :: fst r, snd r)
  end.

(** The square root of a rational, rounded down to six decimals on the
    scale of its denominator, as a double precision number. *)
Definition np_sqrt (x : float64) : float64 :=
  match x with
  | Fin q =>
      if Qneg_b q then NaN
      else Fin (binary64 (Z.sqrt (Qnum q * Zpos (Qden q) * 10 ^ 12)
                          # (Qden q * 1000000)))
  | Inf false => Inf false
  | Inf true => NaN
  | NaN => NaN
  end.

(** Thinning that keeps the integer part of [rate * count]. *)
Definition thin (rate : float64) (c : Z) : Z :=
  match rate with
  | Fin q => Qfloor (inject_Z c * q)
  | _ => c
  end.

Definition subsample_counts
    (E : array2 Z) (rate : float64) (totals : list Z) (seed st : Z)
    : (array2 Z * list Z) * Z :=
  let E' := Array2 (ncols E) (map (map (thin rate)) (rows E)) in
  ((E', row_sums E'), lcg seed).

(** Every point gets the [k] points that follow it, cyclically. *)
Definition get_knn_graph
    (X : array2 float64) (k : Z) (metric : string) (approx : bool) (seed : Z)
    : outcome (list (list Z)) :=
  let n := nrows X in
  if (k <? 0) || (n <=? k) then Raise ValueError
  else Ok (map (fun i =>
                  map (fun d => (Z.of_nat i + 1 + Z.of_nat d) mod n)
                      (seq 0 (Z.to_nat k)))
               (seq 0 (Z.to_nat n))).

Definition fmin (x y : float64) : float64 := if fgt x y then y else x.
Definition fmax (x y : float64) : float64 := if fgt y x then y else x.

(** The middle of the range of the scores, when they are not all one
    value. *)
Definition threshold_minimum (l : list float64) : outcome float64 :=
  match l with
  | [] => Raise LibraryError
  | x :: l' =>
      let lo := foldr fmin x l' in
      let hi := foldr fmax x l' in
      if fgt hi lo then Ok (fdiv (fadd lo hi) (of_int 2))
      else Raise LibraryError
  end.

(** An array of rows of one length; rows of unequal lengths are
    refused, as numpy does from version 1.24 on. *)
Definition np_array (l : list (list Z)) : outcome value :=
  match l with
  | [] => Ok (VParents [])
  | r :: l' =>
      if forallb (fun r' => (length r' =? length r)%nat) l'
      then Ok (VParents l)
      else Raise ValueError
  end.

End Toy.

(** The small library for counts of dtype [d]. *)
Definition toy_library_of (d : int_dtype) : Library := {|
  rng_state := Z;
  seed_state := fun s => s;
  randint_pairs := Toy.randint_pairs;
  np_sqrt := Toy.np_sqrt;
  subsample_counts := Toy.subsample_counts;
  get_knn_graph := Toy.get_knn_graph;
  threshold_minimum := Toy.threshold_minimum;
  np_array := Toy.np_array;
  counts_dtype := d;
  totals_dtype := int64
|}.

Definition toy_library : Library := toy_library_of int64.

(** A pipeline whose functions do nothing. *)
Definition toy_pipeline : Pipeline (L := toy_library) := {|
  pipeline_zscore := ret tt;
  pipeline_mean_center := ret tt;
  pipeline_normalize_variance := ret tt;
  pipeline_pca := fun _ _ => ret tt;
  pipeline_truncated_svd := fun _ _ => ret tt
|}.

(** * The vocabulary of the statements *)

Section Vocabulary.
Context {L : Library}.

(** What the properties assume of [np.random.randint(low, high,
    size=(n, 2))]: it returns [n] pairs, and with [low < high] every
    entry lies in [[low, high)]. *)
Definition randint_contract : Prop :=
  forall st lo hi n,
    length (fst (randint_pairs st lo hi n)) = n
    /\ (lo < hi ->
        forall p, In p (fst (randint_pairs st lo hi n)) ->
          (lo <= fst p < hi) /\ (lo <= snd p < hi)).

(** What a call of [simulate_doublets] reads in world [w]: the observed
    matrix, a total-count vector with one entry per observed cell, an
    integer seed that numpy accepts, and the ratio, which is the
    argument or, without one, the attribute. *)
Record sim_inputs (w : world) (arg : option float64) (E_obs : array2 Z)
    (totals : list Z) (seed : Z) (ratio : float64) : Prop := SimInputs {
  in_E_obs : self w !! "_E_obs" = Some (VCounts E_obs);
  in_totals : self w !! "_total_counts_obs" = Some (VInts totals);
  in_totals_len : length totals = length (rows E_obs);
  in_seed : self w !! "random_state" = Some (VInt seed);
  in_seed_range : 0 <= seed < 2 ^ 32;
  in_ratio : match arg with
             | Some r => r = ratio
             | None => self w !! "sim_doublet_ratio" = Some (VFloat ratio)
             end
}.

(** The attributes once lines 341 to 344 have run. *)
Definition with_ratio (arg : option float64) (attrs : gmap string value)
    : gmap string value :=
  match arg with
  | Some r => <["sim_doublet_ratio" := VFloat r]> attrs
  | None => attrs
  end.

(** The attributes that hold the outputs of the simulation. *)
Definition simulation_outputs : list string :=
  ["_E_sim"; "_total_counts_sim"; "doublet_parents_"].

(** The frame as C8 words it: a call modifies the outputs and nothing
    else, neither another attribute nor the process-wide generator. *)
Definition only_outputs_modified (w w' : world) : Prop :=
  np_random w' = np_random w
  /\ forall name, name ∉ simulation_outputs -> self w' !! name = self w !! name.

(** What [_nearest_neighbor_classifier] reads in world [w]: the two
    embeddings, of one width, and the seed. *)
Record classifier_inputs (w : world) (manifold_obs manifold_sim : array2 float64)
    (seed : Z) : Prop := ClassifierInputs {
  in_manifold_obs : self w !! "manifold_obs_" = Some (VCoords manifold_obs);
  in_manifold_sim : self w !! "manifold_sim_" = Some (VCoords manifold_sim);
  in_same_width : ncols manifold_obs = ncols manifold_sim;
  in_knn_seed : self w !! "random_state" = Some (VInt seed)
}.

(** The pooled embedding, [manifold_obs] above [manifold_sim]. *)
Definition pooled (manifold_obs manifold_sim : array2 float64) : array2 float64 :=
  Array2 (ncols manifold_obs) (rows manifold_obs ++ rows manifold_sim).


(** The formulas of section 4.5 of the specification, written from its
    words: [nd] counts the neighbors whose pooled index falls in the
    simulated range, [q = (nd + 1) / (N + 2)], and so on. *)
Definition spec_nd (n_obs n_sim : Z) (row : list Z) : Z :=
  count_true (map (fun j => (n_obs <=? j) && (j <? n_obs + n_sim)) row).

Definition spec_q (nd N : float64) : float64 :=
  fdiv (fadd nd (of_int 1)) (fadd N (of_int 2)).

Definition spec_Ld (q rho r : float64) : float64 :=
  fdiv (fdiv (fmul q rho) r)
       (fsub (fsub (of_int 1) rho)
             (fmul q (fsub (fsub (of_int 1) rho) (fdiv rho r)))).

Definition spec_se_q (q N : float64) : float64 :=
  np_sqrt (fdiv (fmul q (fsub (of_int 1) q)) (fadd N (of_int 3))).

Definition spec_se_Ld (q rho r sigma_rho se_q : float64) : float64 :=
  fmul (fdiv (fdiv (fmul q rho) r)
             (fsquare (fsub (fsub (of_int 1) rho)
                            (fmul q (fsub (fsub (of_int 1) rho) (fdiv rho r))))))
       (np_sqrt (fadd (fsquare (fmul (fdiv se_q q) (fsub (of_int 1) rho)))
                      (fsquare (fmul (fdiv sigma_rho rho) (fsub (of_int 1) q))))).

(** Score and standard error of the pooled point whose neighbors are
    [row]. *)
Definition spec_score (n_obs n_sim k_adj : Z) (rho sigma_rho : float64)
    (row : list Z) : float64 * float64 :=
  let N := of_int k_adj in
  let r := fdiv (of_int n_sim) (of_int n_obs) in
  let q := spec_q (of_int (spec_nd n_obs n_sim row)) N in
  (spec_Ld q rho r, spec_se_Ld q rho r sigma_rho (spec_se_q q N)).

(** A prior the error formula can divide by. *)
Definition nonzero (x : float64) : Prop :=
  match x with
  | Fin b => ~ (b == 0)%Q
  | _ => True
  end.

(** The scores [call_doublets] reads in world [w], as
    [calculate_doublet_scores] leaves them. *)
Record scored (w : world) (Ld_obs Ld_sim se_obs : list float64) : Prop := Scored {
  sc_obs : self w !! "doublet_scores_obs_" = Some (VFloats Ld_obs);
  sc_sim : self w !! "doublet_scores_sim_" = Some (VFloats Ld_sim);
  sc_err : self w !! "doublet_errors_obs_" = Some (VFloats se_obs);
  sc_len : length Ld_obs = length se_obs;
  sc_rate : is_Some (self w !! "expected_doublet_rate")
}.

(** Calibration succeeds with threshold [t]: [t] is supplied, or the
    search finds it. *)
Definition calibrated (threshold : option float64) (Ld_sim : list float64)
    (t : float64) : Prop :=
  threshold = Some t \/ (threshold = None /\ threshold_minimum Ld_sim = Ok t).

(** The attributes after lines 568 to 583. *)
Definition called (attrs : gmap string value) (Ld_obs Ld_sim se_obs : list float64)
    (t : float64) : gmap string value :=
  <["overall_doublet_rate_" :=
      VFloat (fdiv (fraction_above Ld_obs t) (fraction_above Ld_sim t))]>
    (<["detectable_doublet_fraction_" := VFloat (fraction_above Ld_sim t)]>
       (<["detected_doublet_rate_" := VFloat (fraction_above Ld_obs t)]>
          (<["threshold_" := VFloat t]>
             (<["z_scores_" :=
                  VFloats (zip_with (fun x e => fdiv (fsub x t) e) Ld_obs se_obs)]>
                (<["predicted_doublets_" :=
                     VBools (map (fun x => fgt x t) Ld_obs)]> attrs))))).

(** The search of [call_doublets] fails in world [w]: reading the
    simulated scores or [threshold_minimum] raises. *)
Definition search_fails (w : world) : Prop :=
  match self w !! "doublet_scores_sim_" with
  | Some (VFloats sim) => exists e, threshold_minimum sim = Raise e
  | _ => True
  end.

(** A computation never assigns the attribute [name]. *)
Definition keeps {A} (name : string) (m : M A) : Prop :=
  forall w, self (snd (m w)) !! name = self w !! name.

(** The attributes that [_nearest_neighbor_classifier] assigns. *)
Definition score_outputs : list string :=
  ["doublet_scores_obs_"; "doublet_scores_sim_"; "doublet_errors_obs_";
   "doublet_errors_sim_"; "doublet_neighbor_parents_"].

(** The attributes that [call_doublets] assigns. *)
Definition call_outputs : list string :=
  ["predicted_doublets_"; "z_scores_"; "threshold_"; "detected_doublet_rate_";
   "detectable_doublet_fraction_"; "overall_doublet_rate_"].

(** The attributes that [Scrublet.__init__] assigns. *)
Definition init_attributes : list string :=
  ["_E_obs"; "_E_sim"; "_E_obs_norm"; "_E_sim_norm"; "_total_counts_obs";
   "_gene_filter"; "_embeddings"; "sim_doublet_ratio"; "n_neighbors";
   "expected_doublet_rate"; "stdev_doublet_rate"; "random_state"].

(** A computation never touches the process-wide generator. *)
Definition keeps_generator {A} (m : M A) : Prop :=
  forall w, np_random (snd (m w)) = np_random w.

(** The attributes once lines 499 to 502 have stored the scores [Ld] and
    the errors [se] of the pooled points, the first [a] of which are the
    observed ones. *)
Definition scores_stored (attrs : gmap string value) (a : nat)
    (Ld se : list float64) : gmap string value :=
  <["doublet_errors_sim_" := VFloats (drop a se)]>
    (<["doublet_errors_obs_" := VFloats (take a se)]>
       (<["doublet_scores_sim_" := VFloats (drop a Ld)]>
          (<["doublet_scores_obs_" := VFloats (take a Ld)]> attrs))).

(** [x] is a parent of a simulated neighbor in [row]: some pooled index
    [j] of [row] lies in the simulated range, and [x] is one of the two
    parents of the doublet [j - n_obs]. *)
Definition parent_of_neighbor (n_obs : Z) (parents : list (Z * Z))
    (row : list Z) (x : Z) : Prop :=
  exists j a b,
    j ∈ row /\ n_obs <= j
    /\ parents !! Z.to_nat (j - n_obs) = Some (a, b)
    /\ (x = a \/ x = b).

End Vocabulary.

(** ** Concrete worlds over the small library *)

(** Three observed cells and two genes. *)
Definition toy_X : array2 Z := Array2 2 [[1; 2]; [3; 4]; [5; 6]].

(** A process whose generator was used before; no object yet. *)
Definition toy_fresh : world (L := toy_library) := World toy_library 7 ∅.

(** [Scrublet(toy_X, n_neighbors=1, random_state=0)] *)
Definition toy_scrub : world (L := toy_library) :=
  snd (Scrublet_init toy_X None (Fin 2) (Some 1) (Fin (1 # 10)) (Fin (1 # 50))
         0 toy_fresh).

(** The same object in another process state, with one more attribute. *)
Definition toy_scrub_other : world (L := toy_library) :=
  World toy_library 99 (<["threshold_" := VFloat (Fin 1)]> (self toy_scrub)).

(** One-dimensional embeddings of the three cells and of six doublets. *)
Definition toy_manifold_obs : array2 float64 :=
  Array2 1 [[Fin 0]; [Fin 1]; [Fin 2]].

Definition toy_manifold_sim : array2 float64 :=
  Array2 1 [[Fin 1]; [Fin 3]; [Fin 2]; [Fin 4]; [Fin 3]; [Fin 1]].

Definition toy_embedded : world (L := toy_library) :=
  snd (set_manifold toy_manifold_obs toy_manifold_sim toy_scrub).

(** After [calculate_doublet_scores()]. *)
Definition toy_scored : world (L := toy_library) :=
  snd (calculate_doublet_scores true "euclidean" false toy_embedded).

(** The float array an attribute holds. *)
Definition floats_of (w : world (L := toy_library)) (name : string)
    : list float64 :=
  match self w !! name with
  | Some (VFloats l) => l
  | _ => []
  end.

(** A scored object whose simulated scores are all one value: the search
    for a threshold fails on it. *)
Definition toy_flat : world (L := toy_library) :=
  World toy_library 0
    (<["doublet_scores_sim_" := VFloats [Fin (1 # 2); Fin (1 # 2)]]>
       (self toy_scored)).

(** [toy_flat] after [call_doublets(threshold=0.05)]. *)
Definition toy_called : world (L := toy_library) :=
  snd (call_doublets (Some (Fin (1 # 20))) false toy_flat).

(** [toy_scrub] after [simulate_doublets(sim_doublet_ratio=1.0)]. *)
Definition toy_resimulated : world (L := toy_library) :=
  snd (simulate_doublets (Some (Fin 1)) (Fin 1) toy_scrub).

(** The graph the small library returns for the pooled embedding and
    three neighbors. *)
Definition toy_neighbors : list (list Z) :=
  [[1; 2; 3]; [2; 3; 4]; [3; 4; 5]; [4; 5; 6]; [5; 6; 7]; [6; 7; 8];
   [7; 8; 0]; [8; 0; 1]; [0; 1; 2]].

(** The threshold the search finds on the simulated scores of
    [toy_scored]. *)
Definition toy_threshold : float64 :=
  match Toy.threshold_minimum (floats_of toy_scored "doublet_scores_sim_") with
  | Ok t => t
  | Raise _ => NaN
  end.

(** [toy_scrub] after [simulate_doublets(sim_doublet_ratio=-1.0)], which
    raises. *)
Definition toy_failed : world (L := toy_library) :=
  snd (simulate_doublets (Some (Fin (-1 # 1))) (Fin 1) toy_scrub).

(** [Scrublet(X, random_state=0)] for one cell and two genes. *)
Definition toy_single : world (L := toy_library) :=
  snd (Scrublet_init (Array2 2 [[1; 2]]) None (Fin 2) None
         (Fin (1 # 10)) (Fin (1 # 50)) 0 toy_fresh).

(** The three observed cells embedded, without any simulated doublet. *)
Definition toy_alone : world (L := toy_library) :=
  snd (set_manifold toy_manifold_obs (Array2 1 []) toy_scrub).

(** The parents of six doublets of three cells. *)
Definition toy_parents : list (Z * Z) :=
  [(0, 1); (1, 2); (2, 0); (0, 0); (1, 1); (2, 1)].

(** Ten observed cells and one gene, and [Scrublet(X, n_neighbors=1,
    random_state=0)] for them. *)
Definition toy_ten_X : array2 Z :=
  Array2 1 [[1]; [2]; [3]; [4]; [5]; [6]; [7]; [8]; [9]; [10]].

Definition toy_ten : world (L := toy_library) :=
  snd (Scrublet_init toy_ten_X None (Fin 2) (Some 1) (Fin (1 # 10)) (Fin (1 # 50))
         0 toy_fresh).

(** The double precision number that [0.7] denotes. *)
Definition double_0_7 : Q := 3152519739159347 # 4503599627370496.

(** [toy_ten] after [simulate_doublets(sim_doublet_ratio=0.7)]. *)
Definition toy_ten_simulated : world (L := toy_library) :=
  snd (simulate_doublets (Some (Fin double_0_7)) (Fin 1) toy_ten).

(** Two cells of one gene with 100 counts each, in a matrix of dtype
    [int8], and [Scrublet(X, sim_doublet_ratio=1.0, n_neighbors=1,
    random_state=0)] for them. *)
Definition toy_narrow_X : array2 Z := Array2 1 [[100]; [100]].

Definition toy_narrow : world (L := toy_library_of int8) :=
  snd (Scrublet_init (L := toy_library_of int8) toy_narrow_X None (Fin 1)
         (Some 1) (Fin (1 # 10)) (Fin (1 # 50)) 0
         (World (toy_library_of int8) 7 ∅)).

(** [toy_narrow] after [simulate_doublets()]. *)
Definition toy_narrow_simulated : world (L := toy_library_of int8) :=
  snd (simulate_doublets (L := toy_library_of int8) None (Fin 1) toy_narrow).


(** * Properties *)

(** ** Running a method step by step *)

(** Reading an attribute through the assignments made before. *)
Ltac attr_lookup :=
  repeat first [rewrite lookup_insert_eq | rewrite lookup_insert_ne by done].

Section Steps.
Context {L : Library}.

Lemma bind_ok {A B} (m : M A) (k : A -> M B) (w w' : world) (a : A) :
  m w = (Ok a, w') -> bind m k w = k a w'.
Proof. intros H. unfold bind. now rewrite H. Qed.

Lemma bind_raise {A B} (m : M A) (k : A -> M B) (w w' : world) (e : exn) :
  m w = (Raise e, w') -> bind m k w = (Raise e, w').
Proof. intros H. unfold bind. now rewrite H. Qed.

Lemma getattr_ok (name : string) (v : value) (w : world) :
  self w !! name = Some v -> getattr name w = (Ok v, w).
Proof. intros H. unfold getattr. now rewrite H. Qed.

Lemma getattr_missing (name : string) (w : world) :
  self w !! name = None -> getattr name w = (Raise (AttributeError name), w).
Proof. intros H. unfold getattr. now rewrite H. Qed.

End Steps.

(** ** Numbers and arrays *)

Lemma truncate_floor (q : Q) : (0 <= q)%Q -> truncate q = Qfloor q.
Proof.
  destruct q as [n d]. unfold Qle, truncate, Qfloor. simpl. intros H.
  apply Z.quot_div_nonneg; lia.
Qed.

Lemma np_index_in_range {A} (l : list A) (i : Z) :
  0 <= i < Z.of_nat (length l) ->
  exists a, np_index l i = Ok a /\ l !! Z.to_nat i = Some a.
Proof.
  intros Hi. unfold np_index.
  destruct (Z.ltb_spec i 0) as [?|_]; [lia|].
  destruct (Z.leb_spec 0 i) as [_|?]; [|lia].
  destruct (Z.ltb_spec i (Z.of_nat (length l))) as [_|?]; [|lia]. simpl.
  destruct (l !! Z.to_nat i) as [a|] eqn:Hl; [eauto|].
  apply lookup_ge_None in Hl. lia.
Qed.

Lemma np_take_in_range {A} (l : list A) (ix : list Z) :
  Forall (fun i => 0 <= i < Z.of_nat (length l)) ix ->
  exists r, np_take l ix = Ok r
            /\ Forall2 (fun i a => l !! Z.to_nat i = Some a) ix r.
Proof.
  induction 1 as [|i ix Hi _ [r [Hr HF]]]; simpl.
  - exists []. split; [reflexivity|constructor].
  - destruct (np_index_in_range l i Hi) as [a [Ha Hla]].
    exists (a :: r). rewrite Ha, Hr. simpl. split; [reflexivity|].
    now constructor.
Qed.

(** ** Rounding *)

Lemma round_half_even_bounds (q : Q) :
  Qfloor q <= round_half_even q <= Qfloor q + 1.
Proof.
  unfold round_half_even.
  destruct (q - inject_Z (Qfloor q) ?= 1 # 2)%Q; [destruct (Z.even _)| |]; lia.
Qed.

Lemma round_half_even_inject (n : Z) : round_half_even (inject_Z n) = n.
Proof.
  unfold round_half_even. rewrite Qfloor_Z.
  destruct (inject_Z n - inject_Z n ?= 1 # 2)%Q eqn:C;
    [apply Qeq_alt in C|reflexivity|apply Qgt_alt in C]; exfalso; lra.
Qed.

Lemma round_half_even_mono (x y : Q) :
  (x <= y)%Q -> round_half_even x <= round_half_even y.
Proof.
  intros Hxy.
  pose proof (Qfloor_resp_le _ _ Hxy) as Hfl.
  pose proof (round_half_even_bounds x) as Hx.
  pose proof (round_half_even_bounds y) as Hy.
  destruct (Z.eq_dec (Qfloor x) (Qfloor y)) as [Heq|Hne]; [|lia].
  clear Hx Hy Hfl. unfold round_half_even. rewrite <- Heq.
  destruct (x - inject_Z (Qfloor x) ?= 1 # 2)%Q eqn:Cx;
    [apply Qeq_alt in Cx|apply Qlt_alt in Cx|apply Qgt_alt in Cx];
    (destruct (y - inject_Z (Qfloor x) ?= 1 # 2)%Q eqn:Cy;
     [apply Qeq_alt in Cy|apply Qlt_alt in Cy|apply Qgt_alt in Cy]);
    try (destruct (Z.even (Qfloor x))); try lia; exfalso; lra.
Qed.

Lemma round_half_even_nearest (q : Q) :
  (Qabs (inject_Z (round_half_even q) - q) <= 1 # 2)%Q.
Proof.
  pose proof (Qfloor_le q) as Hlo. pose proof (Qlt_floor q) as Hhi.
  rewrite inject_Z_plus in Hhi. change (inject_Z 1) with 1%Q in Hhi.
  apply Qabs_Qle_condition. unfold round_half_even.
  destruct (q - inject_Z (Qfloor q) ?= 1 # 2)%Q eqn:C;
    [apply Qeq_alt in C|apply Qlt_alt in C|apply Qgt_alt in C].
  - destruct (Z.even (Qfloor q));
      [|rewrite inject_Z_plus; change (inject_Z 1) with 1%Q]; split; lra.
  - split; lra.
  - rewrite inject_Z_plus. change (inject_Z 1) with 1%Q. split; lra.
Qed.

Lemma round_half_even_integer (x : Q) (n : Z) :
  (x == inject_Z n)%Q -> round_half_even x = n.
Proof.
  intros Hx.
  pose proof (round_half_even_nearest x) as Hnear.
  apply Qabs_Qle_condition in Hnear as [Hlo Hhi].
  assert (H1 : (inject_Z (round_half_even x - n) <= 1 # 2)%Q).
  { unfold Z.sub. rewrite inject_Z_plus, inject_Z_opp. lra. }
  assert (H2 : (- (1 # 2) <= inject_Z (round_half_even x - n))%Q).
  { unfold Z.sub. rewrite inject_Z_plus, inject_Z_opp. lra. }
  unfold Qle in H1, H2. cbn in H1, H2. lia.
Qed.

(** ** Rounding to double precision *)

Lemma round_half_even_comp (x y : Q) :
  (x == y)%Q -> round_half_even x = round_half_even y.
Proof.
  intros H. unfold round_half_even. rewrite (Qfloor_comp _ _ H).
  assert (E : (x - inject_Z (Qfloor y) == y - inject_Z (Qfloor y))%Q) by lra.
  now rewrite (Qcompare_comp _ _ E _ _ (Qeq_refl (1 # 2))).
Qed.

Lemma pow2_pos (e : Z) : (0 < pow2 e)%Q.
Proof. apply Qpower_0_lt. reflexivity. Qed.

Lemma pow2_add (a b : Z) : (pow2 (a + b) == pow2 a * pow2 b)%Q.
Proof. apply Qpower_plus. discriminate. Qed.

Lemma pow2_succ (a : Z) : (pow2 (a + 1) == 2 * pow2 a)%Q.
Proof. rewrite pow2_add. change (pow2 1) with 2%Q. ring. Qed.

Lemma pow2_le (a b : Z) : a <= b -> (pow2 a <= pow2 b)%Q.
Proof. intros H. apply Qpower_le_compat_l; [exact H|discriminate]. Qed.

Lemma pow2_lt (a b : Z) : a < b -> (pow2 a < pow2 b)%Q.
Proof. intros H. apply Qpower_lt_compat_l; [exact H|reflexivity]. Qed.

Lemma pow2_lt_inv (a b : Z) : (pow2 a < pow2 b)%Q -> a < b.
Proof. intros H. eapply Qpower_lt_compat_l_inv; [exact H|reflexivity]. Qed.

Lemma pow2_inject (n : Z) : 0 <= n -> (pow2 n == inject_Z (2 ^ n))%Q.
Proof. intros H. symmetry. apply Zpower_Qpower. exact H. Qed.

(** The exponent of a positive number is the one binade that holds it. *)
Lemma exponent_unique (x : Q) (a b : Z) :
  (pow2 a <= x < pow2 (a + 1))%Q -> (pow2 b <= x < pow2 (b + 1))%Q -> a = b.
Proof.
  intros [Ha1 Ha2] [Hb1 Hb2].
  assert (H1 : a < b + 1) by (apply pow2_lt_inv; lra).
  assert (H2 : b < a + 1) by (apply pow2_lt_inv; lra).
  lia.
Qed.

Lemma exponent_spec (x : Q) :
  (0 < x)%Q -> (pow2 (exponent x) <= x < pow2 (exponent x + 1))%Q.
Proof.
  intros Hx. unfold exponent.
  set (a := Z.log2 (Qnum x)). set (b := Z.log2 (Z.pos (Qden x))).
  assert (Hn : 0 < Qnum x).
  { destruct x as [n d]. unfold Qlt in Hx. cbn in *. lia. }
  destruct (Z.log2_spec (Qnum x) Hn) as [Ha1 Ha2]. fold a in Ha1, Ha2.
  destruct (Z.log2_spec (Z.pos (Qden x)) ltac:(lia)) as [Hb1 Hb2].
  fold b in Hb1, Hb2.
  assert (Ha0 : 0 <= a) by apply Z.log2_nonneg.
  assert (Hb0 : 0 <= b) by apply Z.log2_nonneg.
  assert (Hx' : (x == inject_Z (Qnum x) / inject_Z (Z.pos (Qden x)))%Q).
  { destruct x as [n d]. cbn [Qnum Qden]. apply Qmake_Qdiv. }
  assert (Hd : (0 < inject_Z (Z.pos (Qden x)))%Q).
  { change 0%Q with (inject_Z 0). rewrite <- Zlt_Qlt. lia. }
  assert (Hlo : (pow2 (a - b - 1) < x)%Q).
  { replace (a - b - 1) with (a - (b + 1)) by lia.
    unfold pow2. rewrite Qpower_minus by discriminate.
    fold (pow2 a). fold (pow2 (b + 1)).
    rewrite (pow2_inject a), (pow2_inject (b + 1)) by lia.
    rewrite Hx'. 
    assert (H2b : (0 < inject_Z (2 ^ (b + 1)))%Q).
    { change 0%Q with (inject_Z 0). rewrite <- Zlt_Qlt. lia. }
    apply Qlt_shift_div_l; [exact Hd|].
    unfold Qdiv. rewrite <- Qmult_assoc, (Qmult_comm (/ _)), Qmult_assoc.
    apply Qlt_shift_div_r; [exact H2b|].
    rewrite <- !inject_Z_mult. rewrite <- Zlt_Qlt.
    replace (b + 1) with (Z.succ b) in * by lia. nia. }
  assert (Hhi : (x < pow2 (a - b + 1))%Q).
  { replace (a - b + 1) with (a + 1 - b) by lia.
    unfold pow2. rewrite Qpower_minus by discriminate.
    fold (pow2 (a + 1)). fold (pow2 b).
    rewrite (pow2_inject (a + 1)), (pow2_inject b) by lia.
    rewrite Hx'.
    assert (H2b : (0 < inject_Z (2 ^ b))%Q).
    { change 0%Q with (inject_Z 0). rewrite <- Zlt_Qlt. lia. }
    apply Qlt_shift_div_r; [exact Hd|].
    unfold Qdiv. rewrite <- Qmult_assoc, (Qmult_comm (/ _)), Qmult_assoc.
    apply Qlt_shift_div_l; [exact H2b|].
    rewrite <- !inject_Z_mult. rewrite <- Zlt_Qlt.
    replace (a + 1) with (Z.succ a) in * by lia. nia. }
  destruct (Qle_bool (pow2 (a - b)) x) eqn:C.
  - apply Qle_bool_iff in C. split; [exact C|exact Hhi].
  - assert (C' : (x < pow2 (a - b))%Q).
    { apply Qnot_le_lt. intros H. apply Qle_bool_iff in H. congruence. }
    replace (a - b - 1 + 1) with (a - b) by lia. split; [lra|exact C'].
Qed.

Lemma exponent_eq (x : Q) (e : Z) :
  (pow2 e <= x < pow2 (e + 1))%Q -> exponent x = e.
Proof.
  intros H. apply (exponent_unique x); [|exact H].
  apply exponent_spec. pose proof (pow2_pos e). lra.
Qed.

Lemma exponent_comp (x y : Q) : (0 < x)%Q -> (x == y)%Q -> exponent x = exponent y.
Proof.
  intros Hx E. apply exponent_eq. rewrite E. apply exponent_spec. lra.
Qed.

Lemma exponent_le (x y : Q) : (0 < x)%Q -> (x <= y)%Q -> exponent x <= exponent y.
Proof.
  intros Hx Hxy.
  destruct (exponent_spec x Hx) as [Hx1 Hx2].
  destruct (exponent_spec y ltac:(lra)) as [Hy1 Hy2].
  assert (exponent x < exponent y + 1) by (apply pow2_lt_inv; lra). lia.
Qed.

Lemma pow2_split (e : Z) : (pow2 e == pow2 52 * pow2 (e - 52))%Q.
Proof. rewrite <- pow2_add. now replace (52 + (e - 52)) with e by lia. Qed.

Lemma pow2_split' (e : Z) : (pow2 (e + 1) == pow2 53 * pow2 (e - 52))%Q.
Proof. rewrite <- pow2_add. now replace (53 + (e - 52)) with (e + 1) by lia. Qed.

(** The significand of a positive number has 53 bits. *)
Lemma significand_range (x : Q) :
  (0 < x)%Q ->
  (pow2 52 <= x / pow2 (exponent x - 52) < pow2 53)%Q.
Proof.
  intros Hx. destruct (exponent_spec x Hx) as [H1 H2].
  pose proof (pow2_pos (exponent x - 52)) as Hu.
  rewrite (pow2_split (exponent x)) in H1.
  rewrite (pow2_split' (exponent x)) in H2.
  split.
  - apply Qle_shift_div_l; [exact Hu|exact H1].
  - apply Qlt_shift_div_r; [exact Hu|exact H2].
Qed.

Lemma rounded_significand_range (x : Q) :
  (0 < x)%Q ->
  2 ^ 52 <= round_half_even (x / pow2 (exponent x - 52)) <= 2 ^ 53.
Proof.
  intros Hx. destruct (significand_range x Hx) as [H1 H2].
  rewrite <- (round_half_even_inject (2 ^ 52)).
  rewrite <- (round_half_even_inject (2 ^ 53)).
  split; apply round_half_even_mono.
  - rewrite <- pow2_inject by lia. exact H1.
  - rewrite <- pow2_inject by lia. lra.
Qed.

Lemma round53_range (x : Q) :
  (0 < x)%Q ->
  (pow2 (exponent x) <= round53 x <= pow2 (exponent x + 1))%Q.
Proof.
  intros Hx. destruct (rounded_significand_range x Hx) as [H1 H2].
  pose proof (pow2_pos (exponent x - 52)) as Hu.
  unfold round53. cbv zeta.
  rewrite (pow2_split (exponent x)) at 1.
  rewrite (pow2_split' (exponent x)).
  rewrite (pow2_inject 52), (pow2_inject 53) by lia.
  split; (apply Qmult_le_compat_r; [rewrite <- Zle_Qle; assumption|lra]).
Qed.

Lemma round53_pos (x : Q) : (0 < x)%Q -> (0 < round53 x)%Q.
Proof.
  intros Hx. pose proof (round53_range x Hx). pose proof (pow2_pos (exponent x)). lra.
Qed.

Lemma round53_comp (x y : Q) : (0 < x)%Q -> (x == y)%Q -> (round53 x == round53 y)%Q.
Proof.
  intros Hx E. unfold round53. cbv zeta.
  rewrite <- (exponent_comp x y Hx E).
  rewrite (round_half_even_comp (x / pow2 (exponent x - 52)) (y / pow2 (exponent x - 52))).
  - reflexivity.
  - unfold Qdiv. apply Qmult_comp; [exact E|reflexivity].
Qed.

Lemma round53_mono (x y : Q) :
  (0 < x)%Q -> (x <= y)%Q -> (round53 x <= round53 y)%Q.
Proof.
  intros Hx Hxy.
  pose proof (exponent_le x y Hx Hxy) as He.
  destruct (Z.eq_dec (exponent x) (exponent y)) as [E|N].
  - unfold round53. cbv zeta. rewrite <- E.
    pose proof (pow2_pos (exponent x - 52)) as Hu.
    apply Qmult_le_compat_r; [|lra].
    rewrite <- Zle_Qle. apply round_half_even_mono.
    apply Qmult_le_compat_r; [exact Hxy|].
    apply Qlt_le_weak, Qinv_lt_0_compat, Hu.
  - destruct (round53_range x Hx) as [_ H1].
    destruct (round53_range y ltac:(lra)) as [H2 _].
    pose proof (pow2_le (exponent x + 1) (exponent y) ltac:(lia)). lra.
Qed.

(** A number with a significand of at most 53 bits is not rounded. *)
Lemma round53_dyadic (m k : Z) :
  0 < m <= 2 ^ 53 ->
  (round53 (inject_Z m * pow2 k) == inject_Z m * pow2 k)%Q.
Proof.
  intros [Hm1 Hm2].
  destruct (Z.log2_spec m Hm1) as [Hl1 Hl2].
  set (j := Z.log2 m) in *.
  assert (Hj : 0 <= j) by apply Z.log2_nonneg.
  pose proof (pow2_pos k) as Hk.
  assert (He : exponent (inject_Z m * pow2 k) = j + k).
  { apply exponent_eq. replace (j + k + 1) with (Z.succ j + k) by lia.
    rewrite (pow2_add j k), (pow2_add (Z.succ j) k).
    rewrite (pow2_inject j), (pow2_inject (Z.succ j)) by lia. split.
    - apply Qmult_le_compat_r; [|lra]. now rewrite <- Zle_Qle.
    - apply Qmult_lt_compat_r; [lra|]. now rewrite <- Zlt_Qlt. }
  unfold round53. cbv zeta. rewrite He.
  assert (Hj53 : j <= 53).
  { destruct (Z.le_gt_cases j 53) as [?|Hgt]; [assumption|].
    assert (2 ^ 54 <= 2 ^ j) by (apply Z.pow_le_mono_r; lia). lia. }
  destruct (Z.eq_dec j 53) as [E|N].
  - assert (Hm : m = 2 ^ 53) by (rewrite E in Hl1; lia).
    rewrite (round_half_even_integer _ (2 ^ 52)).
    + rewrite Hm, E. replace (53 + k - 52) with (1 + k) by lia.
      rewrite pow2_add. change (pow2 1) with 2%Q.
      change (inject_Z (2 ^ 53)) with (2 * inject_Z (2 ^ 52))%Q. ring.
    + rewrite Hm, E. replace (53 + k - 52) with (1 + k) by lia.
      rewrite pow2_add. change (pow2 1) with 2%Q.
      change (inject_Z (2 ^ 53)) with (2 * inject_Z (2 ^ 52))%Q. 
      field. lra.
  - assert (Hs : (pow2 k == pow2 (52 - j) * pow2 (j + k - 52))%Q).
    { rewrite <- pow2_add. now replace (52 - j + (j + k - 52)) with k by lia. }
    pose proof (pow2_pos (j + k - 52)) as Hu.
    rewrite (round_half_even_integer _ (m * 2 ^ (52 - j))).
    + rewrite inject_Z_mult, <- pow2_inject by lia. rewrite Hs. ring.
    + rewrite inject_Z_mult, <- pow2_inject by lia. rewrite Hs. field. lra.
Qed.

(** The rounded value is within half a unit in the last place. *)
Lemma round53_error (x : Q) :
  (0 < x)%Q -> (Qabs (round53 x - x) <= x * pow2 (-53))%Q.
Proof.
  intros Hx. destruct (exponent_spec x Hx) as [H1 _].
  pose proof (pow2_pos (exponent x - 52)) as Hu.
  pose proof (round_half_even_nearest (x / pow2 (exponent x - 52))) as Hn.
  unfold round53. cbv zeta.
  set (u := pow2 (exponent x - 52)) in *.
  set (m := inject_Z (round_half_even (x / u))) in *.
  assert (E : (m * u - x == (m - x / u) * u)%Q) by (field; lra).
  rewrite E, Qabs_Qmult, (Qabs_pos u) by lra.
  assert (Hu2 : (u * (1 # 2) <= x * pow2 (-53))%Q).
  { assert (Hs : (pow2 (exponent x) * pow2 (-53) == u * (1 # 2))%Q).
    { unfold u. rewrite <- pow2_add.
      replace (exponent x + -53) with (exponent x - 52 + -1) by lia.
      rewrite pow2_add. reflexivity. }
    rewrite <- Hs. apply Qmult_le_compat_r; [exact H1|].
    apply Qlt_le_weak, pow2_pos. }
  apply Qle_trans with ((1 # 2) * u)%Q; [|lra].
  apply Qmult_le_compat_r; [exact Hn|lra].
Qed.

Lemma binary64_zero (x : Q) : (x == 0)%Q -> (binary64 x == 0)%Q.
Proof.
  intros H. unfold binary64. rewrite Qred_correct.
  destruct (x ?= 0)%Q eqn:C;
    [reflexivity|apply Qlt_alt in C|apply Qgt_alt in C]; exfalso; lra.
Qed.

Lemma binary64_of_pos (x : Q) : (0 < x)%Q -> (binary64 x == round53 x)%Q.
Proof.
  intros H. unfold binary64. rewrite Qred_correct.
  destruct (x ?= 0)%Q eqn:C;
    [apply Qeq_alt in C|apply Qlt_alt in C|reflexivity]; exfalso; lra.
Qed.

Lemma binary64_of_neg (x : Q) : (x < 0)%Q -> (binary64 x == - round53 (- x))%Q.
Proof.
  intros H. unfold binary64. rewrite Qred_correct.
  destruct (x ?= 0)%Q eqn:C;
    [apply Qeq_alt in C|reflexivity|apply Qgt_alt in C]; exfalso; lra.
Qed.

(** The rounded value depends on the number only, not on the fraction
    that denotes it. *)
Lemma binary64_comp (x y : Q) : (x == y)%Q -> binary64 x = binary64 y.
Proof.
  intros E. unfold binary64. apply Qred_complete.
  rewrite (Qcompare_comp _ _ E _ _ (Qeq_refl 0)).
  destruct (y ?= 0)%Q eqn:C;
    [reflexivity|apply Qlt_alt in C|apply Qgt_alt in C].
  - apply Qopp_comp. apply round53_comp; lra.
  - apply round53_comp; lra.
Qed.

Lemma binary64_opp (x : Q) : (binary64 (- x) == - binary64 x)%Q.
Proof.
  destruct (Q_dec x 0) as [[H|H]|H].
  - rewrite (binary64_of_pos (- x)), (binary64_of_neg x) by lra. ring.
  - rewrite (binary64_of_neg (- x)), (binary64_of_pos x) by lra.
    apply Qopp_comp. apply round53_comp; lra.
  - rewrite !binary64_zero by lra. reflexivity.
Qed.

Lemma binary64_pos (x : Q) : (0 < x)%Q -> (0 < binary64 x)%Q.
Proof. intros H. rewrite binary64_of_pos by exact H. now apply round53_pos. Qed.

Lemma binary64_neg (x : Q) : (x < 0)%Q -> (binary64 x < 0)%Q.
Proof.
  intros H. rewrite binary64_of_neg by exact H.
  pose proof (round53_pos (- x) ltac:(lra)). lra.
Qed.

Lemma binary64_nonneg (x : Q) : (0 <= x)%Q -> (0 <= binary64 x)%Q.
Proof.
  intros H. destruct (Qlt_le_dec 0 x) as [Hp|Hz].
  - apply Qlt_le_weak, binary64_pos, Hp.
  - rewrite binary64_zero by lra. lra.
Qed.

(** Rounding is monotone. *)
Lemma binary64_mono (x y : Q) : (x <= y)%Q -> (binary64 x <= binary64 y)%Q.
Proof.
  intros Hxy.
  destruct (Q_dec x 0) as [[Hx|Hx]|Hx].
  - destruct (Qlt_le_dec y 0) as [Hy|Hy].
    + rewrite (binary64_of_neg x), (binary64_of_neg y) by assumption.
      apply Qopp_le_compat. apply round53_mono; lra.
    + pose proof (binary64_neg x Hx). pose proof (binary64_nonneg y Hy). lra.
  - rewrite (binary64_of_pos x), (binary64_of_pos y) by lra.
    now apply round53_mono.
  - rewrite (binary64_zero x) by exact Hx. apply binary64_nonneg. lra.
Qed.

(** A number with a significand of at most 53 bits is its own rounding:
    the whole numbers up to [2 ^ 53] among them. *)
Lemma binary64_dyadic (m k : Z) :
  Z.abs m <= 2 ^ 53 -> (binary64 (inject_Z m * pow2 k) == inject_Z m * pow2 k)%Q.
Proof.
  intros Hm. pose proof (pow2_pos k) as Hk.
  destruct (Z.lt_trichotomy m 0) as [H|[H|H]].
  - assert (Hneg : (inject_Z m * pow2 k < 0)%Q).
    { assert (inject_Z m < 0)%Q by (change 0%Q with (inject_Z 0); now rewrite <- Zlt_Qlt).
      setoid_replace (inject_Z m * pow2 k)%Q with (- ((- inject_Z m) * pow2 k))%Q
        using relation Qeq by ring.
      assert (0 < - inject_Z m * pow2 k)%Q by (apply Qmult_lt_0_compat; lra). lra. }
    rewrite binary64_of_neg by exact Hneg.
    rewrite (round53_comp _ (inject_Z (- m) * pow2 k)).
    + rewrite round53_dyadic by lia. rewrite inject_Z_opp. ring.
    + lra.
    + rewrite inject_Z_opp. ring.
  - subst m. rewrite binary64_zero by ring. ring.
  - assert (Hpos : (0 < inject_Z m * pow2 k)%Q).
    { apply Qmult_lt_0_compat; [|exact Hk].
      change 0%Q with (inject_Z 0). now rewrite <- Zlt_Qlt. }
    rewrite binary64_of_pos by exact Hpos. apply round53_dyadic. lia.
Qed.

Lemma binary64_int (n : Z) :
  Z.abs n <= 2 ^ 53 -> (binary64 (inject_Z n) == inject_Z n)%Q.
Proof.
  intros Hn. pose proof (binary64_dyadic n 0 Hn) as H.
  change (pow2 0) with 1%Q in H.
  rewrite (binary64_comp (inject_Z n) (inject_Z n * 1)) by ring.
  rewrite H. ring.
Qed.

(** A rounded value is not rounded again. *)
Lemma binary64_idem (x : Q) : (binary64 (binary64 x) == binary64 x)%Q.
Proof.
  assert (Hpos : forall y, (0 < y)%Q -> (binary64 (round53 y) == round53 y)%Q).
  { intros y Hy. unfold round53. cbv zeta.
    apply binary64_dyadic.
    pose proof (rounded_significand_range y Hy). lia. }
  destruct (Q_dec x 0) as [[H|H]|H].
  - rewrite (binary64_comp (binary64 x) (- round53 (- x)))
      by (apply binary64_of_neg, H).
    rewrite binary64_opp, Hpos by lra. symmetry. apply binary64_of_neg, H.
  - rewrite (binary64_comp (binary64 x) (round53 x)) by (apply binary64_of_pos, H).
    rewrite Hpos by exact H. symmetry. apply binary64_of_pos, H.
  - rewrite (binary64_comp (binary64 x) 0) by (apply binary64_zero, H).
    rewrite (binary64_zero x H). now apply binary64_zero.
Qed.


#[global] Instance binary64_proper : Proper (Qeq ==> Qeq) binary64.
Proof. intros x y E. now rewrite (binary64_comp x y E). Qed.

(** The relative error of one rounding is at most [2 ^ -53]. *)
Lemma binary64_error (x : Q) : (Qabs (binary64 x - x) <= Qabs x * pow2 (-53))%Q.
Proof.
  destruct (Q_dec x 0) as [[H|H]|H].
  - rewrite binary64_of_neg by exact H.
    rewrite (Qabs_neg x) by lra.
    setoid_replace (- round53 (- x) - x)%Q with (- (round53 (- x) - - x))%Q
      using relation Qeq by ring.
    rewrite Qabs_opp. apply round53_error. lra.
  - rewrite binary64_of_pos by exact H. rewrite (Qabs_pos x) by lra.
    now apply round53_error.
  - rewrite binary64_zero by exact H.
    setoid_replace (0 - x)%Q with 0%Q using relation Qeq by lra.
    assert (Hx0 : (Qabs x == 0)%Q) by (rewrite H; reflexivity).
    rewrite Hx0. change (Qabs 0) with 0%Q. rewrite Qmult_0_l. apply Qle_refl.
Qed.

Lemma Qmult_le_nonneg_l (z x y : Q) :
  (0 <= z)%Q -> (x <= y)%Q -> (z * x <= z * y)%Q.
Proof.
  intros Hz Hxy. rewrite (Qmult_comm z x), (Qmult_comm z y).
  now apply Qmult_le_compat_r.
Qed.

Lemma binary64_error_bounds (x : Q) :
  (0 <= x)%Q ->
  (x - x * (1 # 9007199254740992) <= binary64 x
   <= x + x * (1 # 9007199254740992))%Q.
Proof.
  intros Hx. pose proof (binary64_error x) as H.
  rewrite (Qabs_pos x) in H by exact Hx.
  change (pow2 (-53)) with (1 # 9007199254740992)%Q in H.
  apply Qabs_Qle_condition in H as [H1 H2]. split; lra.
Qed.



(** ** simulate_doublets *)

(** The generator of the small library meets the contract. *)
Lemma toy_randint_contract : randint_contract (L := toy_library).
Proof.
  intros st lo hi n. split.
  - revert st. induction n as [|n IH]; intros st; simpl; [reflexivity|].
    now rewrite IH.
  - intros Hlt. revert st. induction n as [|n IH]; intros st p; simpl.
    + intros [].
    + intros [<- | Hin]; [|eauto].
      simpl.
      pose proof (Z.mod_pos_bound (Toy.lcg st) (hi - lo)).
      pose proof (Z.mod_pos_bound (Toy.lcg (Toy.lcg st)) (hi - lo)).
      lia.
Qed.

Lemma truncate_nonneg (q : Q) : (0 <= q)%Q -> 0 <= truncate q.
Proof.
  intros H. rewrite truncate_floor by exact H.
  change 0 with (Qfloor (inject_Z 0)). now apply Qfloor_resp_le.
Qed.

(** A sum that is a value of the dtype is not changed by wrapping. *)
Lemma wrap_in_dtype (d : int_dtype) (x : Z) :
  0 < dtype_bits d -> in_dtype d x -> wrap d x = x.
Proof.
  intros Hb. unfold in_dtype, wrap. cbv zeta.
  assert (E : 2 ^ dtype_bits d = 2 * 2 ^ (dtype_bits d - 1)).
  { replace (dtype_bits d) with (Z.succ (dtype_bits d - 1)) at 1 by lia.
    apply Z.pow_succ_r. lia. }
  destruct (dtype_signed d); intros Hx.
  - rewrite E. rewrite (Z.mul_comm 2), Z.div_mul by lia.
    rewrite Z.mod_small by lia. lia.
  - apply Z.mod_small. lia.
Qed.

Section Simulation.
Context {L : Library}.
Hypothesis randint_ok : randint_contract.

Lemma randint_shape st lo hi n :
  length (fst (randint_pairs st lo hi n)) = n.
Proof. apply randint_ok. Qed.

Lemma randint_range st lo hi n p :
  lo < hi -> In p (fst (randint_pairs st lo hi n)) ->
  (lo <= fst p < hi) /\ (lo <= snd p < hi).
Proof. intros Hlt Hin. now apply (randint_ok st lo hi n). Qed.

Lemma draw_pairs_shape st lo hi n :
  0 <= n -> Z.of_nat (length (fst (draw_pairs st lo hi n))) = n.
Proof.
  intros Hn. unfold draw_pairs. destruct (Z.eqb_spec n 0) as [->|_].
  - reflexivity.
  - rewrite randint_shape. lia.
Qed.

Lemma draw_pairs_range st lo hi n p :
  lo < hi -> In p (fst (draw_pairs st lo hi n)) ->
  (lo <= fst p < hi) /\ (lo <= snd p < hi).
Proof.
  unfold draw_pairs. destruct (n =? 0); [intros _ []|apply randint_range].
Qed.

Lemma with_ratio_other arg attrs name :
  name <> "sim_doublet_ratio" -> with_ratio arg attrs !! name = attrs !! name.
Proof. intros H. destruct arg; simpl; [now rewrite lookup_insert_ne|reflexivity]. Qed.

Lemma take_parents {A} (l : list A) (pair_ix : list (Z * Z)) (f : Z * Z -> Z) :
  Forall (fun p => 0 <= f p < Z.of_nat (length l)) pair_ix ->
  exists r, np_take l (map f pair_ix) = Ok r
            /\ Forall2 (fun p a => l !! Z.to_nat (f p) = Some a) pair_ix r.
Proof.
  intros H.
  destruct (np_take_in_range l (map f pair_ix)) as [r [Hr HF]].
  - now apply Forall_fmap.
  - exists r. split; [assumption|]. now apply Forall2_fmap_l in HF.
Qed.

(** The number of pairs that line 347 asks for is not negative when the
    ratio is not. *)
Lemma sim_count_nonneg (n : Z) (q : Q) :
  0 < n -> (0 <= q)%Q -> 0 <= truncate (binary64 (inject_Z n * q)).
Proof.
  intros Hn Hq. apply truncate_nonneg, binary64_nonneg.
  apply Qmult_le_0_compat; [|assumption].
  change 0%Q with (inject_Z 0). rewrite <- Zle_Qle. lia.
Qed.

Lemma simulate_doublets_runs w arg E_obs totals seed q s :
  sim_inputs w arg E_obs totals seed (Fin q) ->
  0 < nrows E_obs -> (0 <= q)%Q ->
  let n_sim := truncate (binary64 (inject_Z (nrows E_obs) * q)) in
  let draw := draw_pairs (seed_state seed) 0 (nrows E_obs) n_sim in
  let pair_ix := fst draw in
  exists E1 E2 t1 t2,
    Forall2 (fun p r => rows E_obs !! Z.to_nat (fst p) = Some r) pair_ix E1
    /\ Forall2 (fun p r => rows E_obs !! Z.to_nat (snd p) = Some r) pair_ix E2
    /\ Forall2 (fun p t => totals !! Z.to_nat (fst p) = Some t) pair_ix t1
    /\ Forall2 (fun p t => totals !! Z.to_nat (snd p) = Some t) pair_ix t2
    /\ let Esum :=
         Array2 (ncols E_obs)
           (zip_with (zip_with (fun x y => wrap counts_dtype (x + y))) E1 E2) in
       let tsum := zip_with (fun x y => wrap totals_dtype (x + y)) t1 t2 in
       let out := if flt s (of_int 1)
                  then subsample_counts Esum s tsum seed (snd draw)
                  else ((Esum, tsum), snd draw) in
       simulate_doublets arg s w
       = (Ok tt,
          World L (snd out)
            (<["doublet_parents_" := VPairs pair_ix]>
               (<["_total_counts_sim" := VInts (snd (fst out))]>
                  (<["_E_sim" := VCounts (fst (fst out))]>
                     (with_ratio arg (self w)))))).
Proof.
  intros [HE Ht Hlen Hseed Hrange Hratio] Hn Hq n_sim draw pair_ix.
  assert (Hsim : 0 <= n_sim) by (now apply sim_count_nonneg).
  assert (Hin : Forall (fun p => (0 <= fst p < nrows E_obs)
                                 /\ (0 <= snd p < nrows E_obs)) pair_ix).
  { apply Forall_forall. intros p Hp. apply list_elem_of_In in Hp.
    eapply draw_pairs_range; [|exact Hp]. exact Hn. }
  destruct (take_parents (rows E_obs) pair_ix fst) as [E1 [HE1 HF1]].
  { eapply Forall_impl; [exact Hin|]. intros p [? _]. assumption. }
  destruct (take_parents (rows E_obs) pair_ix snd) as [E2 [HE2 HF2]].
  { eapply Forall_impl; [exact Hin|]. intros p [_ ?]. assumption. }
  destruct (take_parents totals pair_ix fst) as [t1 [Ht1 HG1]].
  { eapply Forall_impl; [exact Hin|]. unfold nrows. rewrite Hlen.
    intros p [? _]. assumption. }
  destruct (take_parents totals pair_ix snd) as [t2 [Ht2 HG2]].
  { eapply Forall_impl; [exact Hin|]. unfold nrows. rewrite Hlen.
    intros p [_ ?]. assumption. }
  exists E1, E2, t1, t2. repeat (split; [assumption|]).
  intros Esum tsum out.
  destruct w as [st attrs]. cbn [self np_random] in *.
  unfold simulate_doublets.
  rewrite (bind_ok _ _ _ (World L st (with_ratio arg attrs)) (Fin q)).
  2:{ destruct arg as [r|]; [subst r|].
      - reflexivity.
      - erewrite bind_ok by (apply getattr_ok; eassumption). reflexivity. }
  erewrite bind_ok
    by (apply getattr_ok; simpl; rewrite with_ratio_other by done; eassumption).
  erewrite bind_ok by reflexivity.
  rewrite (bind_ok _ _ _ (World L st (with_ratio arg attrs)) n_sim)
    by reflexivity.
  erewrite bind_ok
    by (apply getattr_ok; simpl; rewrite with_ratio_other by done; eassumption).
  erewrite bind_ok by reflexivity.
  rewrite (bind_ok _ _ _ (World L (seed_state seed) (with_ratio arg attrs)) tt).
  2:{ unfold np_random_seed.
      destruct (Z.leb_spec 0 seed); [|lia].
      destruct (Z.ltb_spec seed (2 ^ 32)); [|lia]. reflexivity. }
  rewrite (bind_ok _ _ _ (World L (snd draw) (with_ratio arg attrs)) pair_ix).
  2:{ unfold np_random_randint.
      destruct (Z.ltb_spec n_sim 0); [lia|].
      destruct (Z.leb_spec (nrows E_obs) 0); [lia|].
      rewrite andb_false_r. reflexivity. }
  assert (HL1 : length E1 = length pair_ix)
    by (symmetry; eapply Forall2_length; eassumption).
  assert (HL2 : length E2 = length pair_ix)
    by (symmetry; eapply Forall2_length; eassumption).
  assert (HL3 : length t1 = length pair_ix)
    by (symmetry; eapply Forall2_length; eassumption).
  assert (HL4 : length t2 = length pair_ix)
    by (symmetry; eapply Forall2_length; eassumption).
  erewrite bind_ok by (unfold lift, take_rows; rewrite HE1; reflexivity).
  erewrite bind_ok by (unfold lift, take_rows; rewrite HE2; reflexivity).
  erewrite bind_ok
    by (apply getattr_ok; cbn [self]; rewrite with_ratio_other by done;
        eassumption).
  erewrite bind_ok by (unfold lift, take_totals; rewrite Ht1; reflexivity).
  erewrite bind_ok by (unfold lift, take_totals; rewrite Ht2; reflexivity).
  assert (Hadd : mat_add counts_dtype (Array2 (ncols E_obs) E1)
                   (Array2 (ncols E_obs) E2)
                 = Ok Esum).
  { unfold mat_add. cbn [ncols rows]. rewrite Nat.eqb_refl, HL1, HL2, Nat.eqb_refl.
    reflexivity. }
  assert (Hvadd : vec_add totals_dtype t1 t2 = Ok tsum).
  { unfold vec_add. rewrite HL3, HL4, Nat.eqb_refl. reflexivity. }
  unfold out. destruct (flt s (of_int 1)).
  - erewrite bind_ok.
    2:{ erewrite bind_ok by (unfold lift; rewrite Hadd; reflexivity).
        erewrite bind_ok by (unfold lift; rewrite Hvadd; reflexivity).
        erewrite bind_ok
          by (apply getattr_ok; cbn [self]; rewrite with_ratio_other by done;
              eassumption).
        erewrite bind_ok by reflexivity.
        erewrite bind_ok by reflexivity.
        erewrite bind_ok by reflexivity.
        reflexivity. }
    reflexivity.
  - erewrite bind_ok.
    2:{ erewrite bind_ok by (unfold lift; rewrite Hadd; reflexivity).
        erewrite bind_ok by reflexivity.
        erewrite bind_ok by (unfold lift; rewrite Hvadd; reflexivity).
        reflexivity. }
    reflexivity.
Qed.

(** The whole part of a rounded product is the whole part of the product
    or one more. *)
Lemma floor_binary64 (x : Q) :
  (0 <= x)%Q -> Qfloor x < 2 ^ 53 ->
  Qfloor x <= Qfloor (binary64 x) <= Qfloor x + 1.
Proof.
  intros Hx Hm.
  assert (H0 : 0 <= Qfloor x).
  { change 0 with (Qfloor (inject_Z 0)). now apply Qfloor_resp_le. }
  pose proof (Qfloor_le x) as Hlo. pose proof (Qlt_floor x) as Hhi.
  split.
  - rewrite <- (Qfloor_Z (Qfloor x)) at 1. apply Qfloor_resp_le.
    rewrite <- (binary64_int (Qfloor x)) by lia. now apply binary64_mono.
  - rewrite <- (Qfloor_Z (Qfloor x + 1)). apply Qfloor_resp_le.
    rewrite <- (binary64_int (Qfloor x + 1)) by lia.
    apply binary64_mono. lra.
Qed.

(** C1 (as amended). On an object whose total counts are a vector with
    one entry per observed cell, with [n_obs > 0] cells and a ratio
    [q > 0], [simulate_doublets] returns normally and
    [doublet_parents_] is an array of [n_sim] index pairs, where [n_sim]
    is the whole part of the product [n_obs * q] as float64 arithmetic
    rounds it (the product is taken below [2 ^ 53], where a float is
    converted to [int] without overflow); every index lies in [[0, n_obs)], and the matrix of summed
    parent rows has [n_sim] rows: it is [_E_sim] itself, or with a rate
    below one the matrix handed to [subsample_counts], whose result
    becomes [_E_sim]. [n_sim] is [floor(n_obs * q)] or one more, and it is
    [floor(n_obs * q)] when the product is a double precision number. *)
Theorem simulate_doublets_n_sim w arg E_obs totals seed q s :
  sim_inputs w arg E_obs totals seed (Fin q) ->
  0 < nrows E_obs -> (0 < q)%Q ->
  (inject_Z (nrows E_obs) * q < inject_Z (2 ^ 53))%Q ->
  let x := (inject_Z (nrows E_obs) * q)%Q in
  let n_sim := Qfloor (binary64 x) in
  exists w' pair_ix E,
    simulate_doublets arg s w = (Ok tt, w')
    /\ self w' !! "doublet_parents_" = Some (VPairs pair_ix)
    /\ Z.of_nat (length pair_ix) = n_sim
    /\ (forall p, In p pair_ix ->
          (0 <= fst p < nrows E_obs) /\ (0 <= snd p < nrows E_obs))
    /\ nrows E = n_sim
    /\ (flt s (of_int 1) = false -> self w' !! "_E_sim" = Some (VCounts E))
    /\ (flt s (of_int 1) = true ->
          exists tots st,
            self w' !! "_E_sim"
            = Some (VCounts (fst (fst (subsample_counts E s tots seed st)))))
    /\ Qfloor x <= n_sim <= Qfloor x + 1
    /\ ((binary64 x == x)%Q -> n_sim = Qfloor x).
Proof.
  intros Hin Hn Hq Hb x n_sim.
  destruct (simulate_doublets_runs w arg E_obs totals seed q s Hin Hn
              (Qlt_le_weak _ _ Hq))
    as (E1 & E2 & t1 & t2 & HF1 & HF2 & _ & _ & Hrun).
  cbv zeta in Hrun. fold x in Hrun, HF1, HF2.
  assert (Hx : (0 <= x)%Q).
  { apply Qmult_le_0_compat; [|now apply Qlt_le_weak].
    change 0%Q with (inject_Z 0). rewrite <- Zle_Qle. lia. }
  assert (Hfl : truncate (binary64 x) = n_sim).
  { apply truncate_floor, binary64_nonneg, Hx. }
  rewrite Hfl in Hrun, HF1, HF2.
  assert (Hsim : 0 <= n_sim).
  { rewrite <- Hfl. now apply truncate_nonneg, binary64_nonneg. }
  set (draw := draw_pairs (seed_state seed) 0 (nrows E_obs) n_sim) in *.
  assert (Hlen : Z.of_nat (length (fst draw)) = n_sim)
    by (now apply draw_pairs_shape).
  eexists _, (fst draw),
    (Array2 (ncols E_obs)
       (zip_with (zip_with (fun x y => wrap counts_dtype (x + y))) E1 E2)).
  split; [exact Hrun|]. cbn [self].
  split; [now rewrite lookup_insert_eq|].
  split; [exact Hlen|].
  split; [intros p Hp; eapply draw_pairs_range; [exact Hn|exact Hp]|].
  split.
  { unfold nrows at 1. cbn [rows]. rewrite length_zip_with.
    apply Forall2_length in HF1, HF2. lia. }
  split; [|split; [|split]].
  - intros Hs. rewrite Hs.
    rewrite lookup_insert_ne, lookup_insert_ne, lookup_insert_eq by done.
    reflexivity.
  - intros Hs. rewrite Hs. eexists _, _.
    rewrite lookup_insert_ne, lookup_insert_ne, lookup_insert_eq by done.
    reflexivity.
  - apply floor_binary64; [exact Hx|].
    fold x in Hb. rewrite Zlt_Qlt.
    eapply Qle_lt_trans; [apply Qfloor_le|exact Hb].
  - intros E. unfold n_sim. now apply Qfloor_comp.
Qed.

(** C7 (as amended). On an object whose total counts are a vector with
    one entry per observed cell, with a subsampling rate of one (any rate
    that is not below one) nothing is thinned: [subsample_counts] is not
    called, the generator is left as the draw of the pairs left it, row
    [i] of [_E_sim] is the element-wise sum, in the dtype of the counts,
    of the two observed rows that [doublet_parents_] names at [i], and
    entry [i] of [_total_counts_sim] is the sum of their two totals in
    the dtype of the totals. Each sum is the exact one when it is a
    value of the dtype, and wraps around when it is not. The product
    [n_obs * q] is taken below [2 ^ 53], where a float is converted to
    [int] without overflow. *)
Theorem simulate_doublets_unthinned w arg E_obs totals seed q s :
  sim_inputs w arg E_obs totals seed (Fin q) ->
  0 < nrows E_obs -> (0 <= q)%Q ->
  (inject_Z (nrows E_obs) * q < inject_Z (2 ^ 53))%Q ->
  flt s (of_int 1) = false ->
  0 < dtype_bits counts_dtype -> 0 < dtype_bits totals_dtype ->
  exists w' pair_ix E_sim tots_sim,
    simulate_doublets arg s w = (Ok tt, w')
    /\ np_random w'
       = snd (draw_pairs (seed_state seed) 0 (nrows E_obs)
                (truncate (binary64 (inject_Z (nrows E_obs) * q))))
    /\ self w' !! "doublet_parents_" = Some (VPairs pair_ix)
    /\ self w' !! "_E_sim" = Some (VCounts E_sim)
    /\ self w' !! "_total_counts_sim" = Some (VInts tots_sim)
    /\ length (rows E_sim) = length pair_ix
    /\ length tots_sim = length pair_ix
    /\ forall (i : nat) a b, pair_ix !! i = Some (a, b) ->
         exists ra rb ta tb,
           rows E_obs !! Z.to_nat a = Some ra
           /\ rows E_obs !! Z.to_nat b = Some rb
           /\ totals !! Z.to_nat a = Some ta
           /\ totals !! Z.to_nat b = Some tb
           /\ rows E_sim !! i
              = Some (zip_with (fun x y => wrap counts_dtype (x + y)) ra rb)
           /\ tots_sim !! i = Some (wrap totals_dtype (ta + tb))
           /\ (Forall (in_dtype counts_dtype) (zip_with Z.add ra rb) ->
               rows E_sim !! i = Some (zip_with Z.add ra rb))
           /\ (in_dtype totals_dtype (ta + tb) ->
               tots_sim !! i = Some (ta + tb)).
Proof.
  intros Hin Hn Hq _ Hs Hbc Hbt.
  destruct (simulate_doublets_runs w arg E_obs totals seed q s Hin Hn Hq)
    as (E1 & E2 & t1 & t2 & HF1 & HF2 & HG1 & HG2 & Hrun).
  cbv zeta in Hrun. rewrite Hs in Hrun. cbn [fst snd] in Hrun.
  set (draw := draw_pairs (seed_state seed) 0 (nrows E_obs)
                 (truncate (binary64 (inject_Z (nrows E_obs) * q)))) in *.
  eexists _, (fst draw),
    (Array2 (ncols E_obs)
       (zip_with (zip_with (fun x y => wrap counts_dtype (x + y))) E1 E2)),
    (zip_with (fun x y => wrap totals_dtype (x + y)) t1 t2).
  split; [exact Hrun|]. cbn [self np_random rows].
  split; [reflexivity|].
  split; [now rewrite lookup_insert_eq|].
  split; [now rewrite lookup_insert_ne, lookup_insert_ne, lookup_insert_eq|].
  split; [now rewrite lookup_insert_ne, lookup_insert_eq|].
  pose proof (Forall2_length _ _ _ HF1). pose proof (Forall2_length _ _ _ HF2).
  pose proof (Forall2_length _ _ _ HG1). pose proof (Forall2_length _ _ _ HG2).
  split; [rewrite length_zip_with; lia|].
  split; [rewrite length_zip_with; lia|].
  intros i a b Hi.
  destruct (Forall2_lookup_l _ _ _ _ _ HF1 Hi) as (ra & Hra & Ha).
  destruct (Forall2_lookup_l _ _ _ _ _ HF2 Hi) as (rb & Hrb & Hb).
  destruct (Forall2_lookup_l _ _ _ _ _ HG1 Hi) as (ta & Hta & Hta').
  destruct (Forall2_lookup_l _ _ _ _ _ HG2 Hi) as (tb & Htb & Htb').
  exists ra, rb, ta, tb. cbn [fst snd] in *.
  repeat (split; [assumption|]).
  assert (Hrow : zip_with (zip_with (fun x y => wrap counts_dtype (x + y))) E1 E2 !! i
                 = Some (zip_with (fun x y => wrap counts_dtype (x + y)) ra rb))
    by (apply lookup_zip_with_Some; eauto).
  assert (Htot : zip_with (fun x y => wrap totals_dtype (x + y)) t1 t2 !! i
                 = Some (wrap totals_dtype (ta + tb)))
    by (apply lookup_zip_with_Some; eauto).
  split; [exact Hrow|]. split; [exact Htot|]. split.
  - intros Hfit. rewrite Hrow. f_equal.
    clear -Hfit Hbc. revert rb Hfit. induction ra as [|x ra IH]; intros [|y rb] Hfit;
      cbn in *; try reflexivity.
    apply Forall_cons in Hfit as [Hx Hfit].
    rewrite (wrap_in_dtype _ _ Hbc Hx). f_equal. now apply IH.
  - intros Hfit. rewrite Htot. now rewrite (wrap_in_dtype _ _ Hbt Hfit).
Qed.

Lemma Forall2_lookup_functional {B C} (f : C -> option B)
    (l : list C) (r1 r2 : list B) :
  Forall2 (fun p a => f p = Some a) l r1 ->
  Forall2 (fun p a => f p = Some a) l r2 ->
  r1 = r2.
Proof.
  intros H1. revert r2. induction H1 as [|p a l r1 Hp _ IH]; intros r2 H2.
  - now inversion H2.
  - inversion H2 as [|p' b l' r2' Hq H2']; subst.
    f_equal; [congruence|]. now apply IH.
Qed.

(** C8 (as amended). Two calls whose worlds agree on the observed
    matrix, the total counts, the seed, the arguments and the ratio in
    force return normally with the same parent pairs, the same synthetic
    matrix and totals, and leave the generator in the same state,
    whatever the generator and the other attributes were before. A call
    writes the three outputs, overwrites [sim_doublet_ratio] with the
    ratio in force, and reseeds and advances the process-wide generator;
    every other attribute keeps its value. *)
Theorem simulate_doublets_deterministic w1 w2 arg E_obs totals seed q s :
  sim_inputs w1 arg E_obs totals seed (Fin q) ->
  sim_inputs w2 arg E_obs totals seed (Fin q) ->
  0 < nrows E_obs -> (0 <= q)%Q ->
  exists w1' w2',
    simulate_doublets arg s w1 = (Ok tt, w1')
    /\ simulate_doublets arg s w2 = (Ok tt, w2')
    /\ np_random w1' = np_random w2'
    /\ (forall name, name ∈ simulation_outputs ->
          is_Some (self w1' !! name) /\ self w1' !! name = self w2' !! name)
    /\ self w1' !! "sim_doublet_ratio" = Some (VFloat (Fin q))
    /\ (forall name, name ∉ "sim_doublet_ratio" :: simulation_outputs ->
          self w1' !! name = self w1 !! name).
Proof.
  intros Hin1 Hin2 Hn Hq.
  destruct (simulate_doublets_runs w1 arg E_obs totals seed q s Hin1 Hn Hq)
    as (E1 & E2 & t1 & t2 & HF1 & HF2 & HG1 & HG2 & Hrun1).
  destruct (simulate_doublets_runs w2 arg E_obs totals seed q s Hin2 Hn Hq)
    as (E1' & E2' & t1' & t2' & HF1' & HF2' & HG1' & HG2' & Hrun2).
  cbv zeta in *.
  rewrite <- (Forall2_lookup_functional
                (fun p => rows E_obs !! Z.to_nat (fst p)) _ _ _ HF1 HF1') in Hrun2.
  rewrite <- (Forall2_lookup_functional
                (fun p => rows E_obs !! Z.to_nat (snd p)) _ _ _ HF2 HF2') in Hrun2.
  rewrite <- (Forall2_lookup_functional
                (fun p => totals !! Z.to_nat (fst p)) _ _ _ HG1 HG1') in Hrun2.
  rewrite <- (Forall2_lookup_functional
                (fun p => totals !! Z.to_nat (snd p)) _ _ _ HG2 HG2') in Hrun2.
  eexists _, _. split; [exact Hrun1|]. split; [exact Hrun2|].
  cbn [self np_random]. split; [reflexivity|].
  split; [|split].
  - intros name Hname. unfold simulation_outputs in Hname.
    repeat (apply elem_of_cons in Hname as [->|Hname]);
      [| | |now apply elem_of_nil in Hname].
    + attr_lookup. split; [eexists|]; reflexivity.
    + attr_lookup. split; [eexists|]; reflexivity.
    + attr_lookup. split; [eexists|]; reflexivity.
  - rewrite !lookup_insert_ne by done.
    destruct Hin1 as [_ _ _ _ _ Hratio]. destruct arg as [r|]; cbn.
    + subst r. now rewrite lookup_insert_eq.
    + exact Hratio.
  - intros name Hname. unfold simulation_outputs in Hname.
    repeat (apply not_elem_of_cons in Hname as [? Hname]).
    rewrite !lookup_insert_ne by done.
    now apply with_ratio_other.
Qed.

End Simulation.

Lemma count_labels (a b : nat) :
  count_true (map (fun l => l =? 0) (doublet_labels a b)) = Z.of_nat a
  /\ count_true (map (fun l => l =? 1) (doublet_labels a b)) = Z.of_nat b.
Proof.
  unfold doublet_labels. induction a as [|a [IH0 IH1]].
  - cbn [replicate app]. induction b as [|b [IH0 IH1]]; [split; reflexivity|].
    cbn [replicate map count_true]. rewrite IH0, IH1.
    change (1 =? 0) with false. change (1 =? 1) with true. cbv iota. lia.
  - cbn [replicate app map count_true]. rewrite IH0, IH1.
    change (0 =? 0) with true. change (0 =? 1) with false. cbv iota. lia.
Qed.

Lemma adjusted_k_value (k n_obs n_sim : Z) :
  0 < n_obs ->
  adjusted_k k n_obs n_sim
  = Ok (round_half_even (adjusted_k_float k n_obs n_sim)).
Proof.
  intros Hn. unfold adjusted_k, adjusted_k_float, of_int, fdiv, Qzero_b.
  destruct (Qeq_bool (inject_Z n_obs) 0) eqn:Hz.
  - apply Qeq_bool_iff in Hz. unfold Qeq in Hz. simpl in Hz. lia.
  - reflexivity.
Qed.

(** ** The adjusted neighborhood size *)

(** The three roundings of line 463 move the value by at most four
    units in the last place. *)
Lemma adjusted_k_float_error (k n_obs n_sim : Z) :
  0 <= k -> 0 < n_obs -> 0 <= n_sim ->
  let x := (inject_Z k * (1 + inject_Z n_sim / inject_Z n_obs))%Q in
  (Qabs (adjusted_k_float k n_obs n_sim - x) <= x * (1 # 2251799813685248))%Q.
Proof.
  intros Hk Hn Hs x. unfold adjusted_k_float.
  set (d := (inject_Z n_sim / inject_Z n_obs)%Q) in *.
  assert (Hk0 : (0 <= inject_Z k)%Q)
    by (change 0%Q with (inject_Z 0); rewrite <- Zle_Qle; lia).
  assert (Hd : (0 <= d)%Q).
  { apply Qle_shift_div_l.
    - change 0%Q with (inject_Z 0). rewrite <- Zlt_Qlt. lia.
    - rewrite Qmult_0_l. change 0%Q with (inject_Z 0). rewrite <- Zle_Qle. lia. }
  pose proof (binary64_error_bounds d Hd) as [Hd1 Hd2].
  set (d1 := binary64 d) in *.
  assert (Hs0 : (0 <= 1 + d1)%Q) by lra.
  pose proof (binary64_error_bounds (1 + d1) Hs0) as [Hs1 Hs2].
  set (s1 := binary64 (1 + d1)) in *.
  assert (Hs1' : (0 <= s1)%Q) by lra.
  assert (Hp0 : (0 <= inject_Z k * s1)%Q) by (now apply Qmult_le_0_compat).
  pose proof (binary64_error_bounds (inject_Z k * s1) Hp0) as [Hp1 Hp2].
  set (p1 := binary64 (inject_Z k * s1)) in *.
  assert (Hlo : (inject_Z k * ((1 + d) * (9007199254740990 # 9007199254740992))
                 <= inject_Z k * s1)%Q).
  { apply Qmult_le_nonneg_l; [exact Hk0|]. lra. }
  assert (Hhi : (inject_Z k * s1
                 <= inject_Z k * ((1 + d) * (18014398509481989 # 18014398509481984)))%Q).
  { apply Qmult_le_nonneg_l; [exact Hk0|]. lra. }
  assert (Hx : (0 <= x)%Q) by (unfold x; apply Qmult_le_0_compat; lra).
  unfold x in *. clear x.
  set (P := (inject_Z k * (1 + d))%Q) in *.
  set (Y := (inject_Z k * s1)%Q) in *.
  assert (Hlo' : (P * (9007199254740990 # 9007199254740992) <= Y)%Q).
  { unfold P. rewrite <- Qmult_assoc. exact Hlo. }
  assert (Hhi' : (Y <= P * (18014398509481989 # 18014398509481984))%Q).
  { unfold P. rewrite <- Qmult_assoc. exact Hhi. }
  apply Qabs_Qle_condition. split; lra.
Qed.

(** ** IEEE double precision values *)

Section Classifier.
Context {L : Library}.

Lemma classifier_unfold w k approx metric rho se_rho gp manifold_obs manifold_sim seed :
  classifier_inputs w manifold_obs manifold_sim seed ->
  0 < nrows manifold_obs ->
  let n_obs := nrows manifold_obs in
  let n_sim := nrows manifold_sim in
  let k_adj := round_half_even (adjusted_k_float k n_obs n_sim) in
  nearest_neighbor_classifier k approx metric rho se_rho gp w
  = (neighbors <- lift (get_knn_graph (pooled manifold_obs manifold_sim)
                          k_adj metric approx seed) ;;
     classifier_with_graph
       (doublet_labels (length (rows manifold_obs)) (length (rows manifold_sim)))
       n_obs n_sim k_adj rho se_rho gp neighbors) w.
Proof.
  intros [Hobs Hsim Hwidth Hseed] Hn n_obs n_sim k_adj.
  unfold nearest_neighbor_classifier.
  erewrite bind_ok by (apply getattr_ok; eassumption).
  erewrite bind_ok by reflexivity.
  erewrite bind_ok by (apply getattr_ok; eassumption).
  erewrite bind_ok by reflexivity.
  erewrite bind_ok
    by (unfold lift, vstack; rewrite Hwidth, Nat.eqb_refl; reflexivity).
  destruct (count_labels (length (rows manifold_obs))
              (length (rows manifold_sim))) as [-> ->].
  fold (nrows manifold_obs). fold (nrows manifold_sim).
  erewrite bind_ok by (unfold lift; rewrite adjusted_k_value by exact Hn; reflexivity).
  erewrite bind_ok by (apply getattr_ok; eassumption).
  erewrite bind_ok by reflexivity.
  rewrite <- Hwidth. reflexivity.
Qed.

Lemma adjusted_k_float_ge (k n_obs n_sim : Z) :
  0 <= k -> 0 < n_obs -> 0 <= n_sim ->
  (binary64 (inject_Z k) <= adjusted_k_float k n_obs n_sim)%Q.
Proof.
  intros Hk Hn Hs. unfold adjusted_k_float. apply binary64_mono.
  assert (H0 : (0 <= inject_Z k)%Q)
    by (change 0%Q with (inject_Z 0); rewrite <- Zle_Qle; lia).
  assert (H1 : (0 <= inject_Z n_sim / inject_Z n_obs)%Q).
  { apply Qle_shift_div_l.
    - change 0%Q with (inject_Z 0). rewrite <- Zlt_Qlt. lia.
    - rewrite Qmult_0_l. change 0%Q with (inject_Z 0). rewrite <- Zle_Qle. lia. }
  pose proof (binary64_nonneg _ H1) as H2.
  assert (H3 : (1 <= binary64 (1 + binary64 (inject_Z n_sim / inject_Z n_obs)))%Q).
  { rewrite <- (binary64_int 1) at 1 by (cbn; lia).
    apply binary64_mono. change (inject_Z 1) with 1%Q. lra. }
  setoid_replace (inject_Z k) with (inject_Z k * 1)%Q
    using relation Qeq at 1 by ring.
  now apply Qmult_le_nonneg_l.
Qed.

Lemma adjusted_k_ge (k n_obs n_sim : Z) :
  0 <= k <= 2 ^ 53 -> 0 < n_obs -> 0 <= n_sim ->
  k <= round_half_even (adjusted_k_float k n_obs n_sim).
Proof.
  intros Hk Hn Hs.
  rewrite <- (round_half_even_inject k) at 1.
  apply round_half_even_mono.
  rewrite <- (binary64_int k) by lia.
  apply adjusted_k_float_ge; lia.
Qed.

(** C5 (as amended). With [n_obs > 0] observed rows and a neighbor
    count [0 <= k <= 2 ^ 53], [_nearest_neighbor_classifier] queries
    [get_knn_graph] on the pooled embedding with [k_adj] neighbors,
    where [k_adj] is [round] (to the nearest integer, ties to the even
    one) of the double precision value of [k * (1 + n_sim / n_obs)]. That
    value differs from the exact [x = k * (1 + n_sim / n_obs)] by at most
    [x * 2 ^ -51], so [k_adj] is within [1/2 + x * 2 ^ -51] of [x]; and
    [k_adj >= k], in particular whenever [n_sim > 0]. *)
Theorem classifier_k_adj w k approx metric rho se_rho gp
    manifold_obs manifold_sim seed :
  classifier_inputs w manifold_obs manifold_sim seed ->
  0 < nrows manifold_obs -> 0 <= k <= 2 ^ 53 ->
  let n_obs := nrows manifold_obs in
  let n_sim := nrows manifold_sim in
  let x := (inject_Z k * (1 + inject_Z n_sim / inject_Z n_obs))%Q in
  let x64 := adjusted_k_float k n_obs n_sim in
  let k_adj := round_half_even x64 in
  adjusted_k k n_obs n_sim = Ok k_adj
  /\ nearest_neighbor_classifier k approx metric rho se_rho gp w
     = (neighbors <- lift (get_knn_graph (pooled manifold_obs manifold_sim)
                             k_adj metric approx seed) ;;
        classifier_with_graph
          (doublet_labels (length (rows manifold_obs))
             (length (rows manifold_sim)))
          n_obs n_sim k_adj rho se_rho gp neighbors) w
  /\ (Qabs (inject_Z k_adj - x64) <= 1 # 2)%Q
  /\ (Qabs (x64 - x) <= x * pow2 (-51))%Q
  /\ (Qabs (inject_Z k_adj - x) <= (1 # 2) + x * pow2 (-51))%Q
  /\ k <= k_adj.
Proof.
  intros Hin Hn Hk n_obs n_sim x x64 k_adj.
  assert (Hs : 0 <= n_sim) by (unfold n_sim, nrows; lia).
  pose proof (round_half_even_nearest x64) as H1. fold k_adj in H1.
  pose proof (adjusted_k_float_error k n_obs n_sim ltac:(lia) Hn Hs) as H2.
  cbv zeta in H2. fold x x64 in H2.
  change (1 # 2251799813685248)%Q with (pow2 (-51)) in H2.
  split; [now apply adjusted_k_value|].
  split; [now apply classifier_unfold|].
  split; [exact H1|]. split; [exact H2|]. split.
  - apply Qabs_Qle_condition in H1 as [H1a H1b].
    apply Qabs_Qle_condition in H2 as [H2a H2b].
    apply Qabs_Qle_condition. split; lra.
  - now apply adjusted_k_ge.
Qed.

End Classifier.

(** ** The Bayesian score *)

Lemma Qzero_b_false (q : Q) : ~ (q == 0)%Q -> Qzero_b q = false.
Proof.
  intros H. unfold Qzero_b. destruct (Qeq_bool q 0) eqn:E; [|reflexivity].
  now apply Qeq_bool_iff in E.
Qed.

Lemma Qzero_b_true (q : Q) : (q == 0)%Q -> Qzero_b q = true.
Proof. intros H. unfold Qzero_b. now apply Qeq_bool_iff. Qed.

Lemma Qneg_b_false (q : Q) : (0 <= q)%Q -> Qneg_b q = false.
Proof.
  intros H. unfold Qneg_b. apply Qle_bool_iff in H. now rewrite H.
Qed.



Lemma Qdiv_le_cross (a b c d : Q) :
  (0 < b)%Q -> (0 < d)%Q -> (a * d <= c * b)%Q -> (a / b <= c / d)%Q.
Proof.
  intros Hb Hd H.
  apply Qle_shift_div_r; [assumption|].
  setoid_replace (c / d * b)%Q with (c * b / d)%Q
    using relation Qeq by (field; lra).
  now apply Qle_shift_div_l.
Qed.





Lemma doublet_labels_lookup (a b i : nat) (x : Z) :
  doublet_labels a b !! i = Some x -> x = if (i <? a)%nat then 0 else 1.
Proof.
  unfold doublet_labels. intros H.
  apply lookup_app_Some in H as [H|[Hge H]].
  - apply lookup_replicate in H as [-> Hlt].
    destruct (Nat.ltb_spec i a); [reflexivity|lia].
  - apply lookup_replicate in H as [-> _].
    rewrite length_replicate in Hge.
    destruct (Nat.ltb_spec i a); [lia|reflexivity].
Qed.

Lemma doublet_labels_length (a b : nat) :
  length (doublet_labels a b) = (a + b)%nat.
Proof. unfold doublet_labels. now rewrite length_app, !length_replicate. Qed.

Lemma n_sim_neigh_row_spec (a b : nat) (row : list Z) :
  Forall (fun j => 0 <= j < Z.of_nat a + Z.of_nat b) row ->
  n_sim_neigh_row (doublet_labels a b) row
  = Ok (spec_nd (Z.of_nat a) (Z.of_nat b) row).
Proof.
  intros Hrow. unfold n_sim_neigh_row.
  destruct (np_take_in_range (doublet_labels a b) row) as [labs [-> HF]].
  { rewrite doublet_labels_length. eapply Forall_impl; [exact Hrow|].
    intros j Hj. cbn beta in *. lia. }
  cbn [obind]. f_equal. unfold spec_nd.
  induction HF as [|j lab row labs Hj HF IH]; [reflexivity|].
  apply Forall_cons in Hrow as [Hjr Hrow].
  cbn [map count_true]. rewrite IH by assumption. f_equal.
  apply doublet_labels_lookup in Hj. subst lab.
  destruct (Nat.ltb_spec (Z.to_nat j) a);
    destruct (Z.leb_spec (Z.of_nat a) j);
    destruct (Z.ltb_spec j (Z.of_nat a + Z.of_nat b)); try lia; reflexivity.
Qed.

Lemma omap_ext_ok {A B} (f : A -> outcome B) (g : A -> B) (l : list A) :
  Forall (fun a => f a = Ok (g a)) l -> omap f l = Ok (map g l).
Proof.
  induction 1 as [|a l Ha _ IH]; [reflexivity|].
  cbn [omap map]. now rewrite Ha, IH.
Qed.

Lemma select_labels_obs {A} (a b : nat) (l : list A) :
  select l (map (fun x => x =? 0) (doublet_labels a b)) = take a l.
Proof.
  unfold doublet_labels. revert l. induction a as [|a IH]; intros l.
  - cbn [replicate app take]. revert l.
    induction b as [|b IHb]; intros [|x l]; try reflexivity.
    cbn [replicate app map select]. change (1 =? 0) with false. cbv iota.
    rewrite IHb. now destruct l.
  - destruct l as [|x l]; [reflexivity|].
    cbn [replicate app map select take]. change (0 =? 0) with true. cbv iota.
    now rewrite IH.
Qed.

Lemma select_labels_sim {A} (a b : nat) (l : list A) :
  length l = (a + b)%nat ->
  select l (map (fun x => x =? 1) (doublet_labels a b)) = drop a l.
Proof.
  unfold doublet_labels. revert l. induction a as [|a IH]; intros l Hl.
  - cbn [replicate app drop]. revert l Hl.
    induction b as [|b IHb]; intros [|x l] Hl; try reflexivity; try discriminate.
    cbn [replicate app map select]. change (1 =? 1) with true. cbv iota.
    rewrite IHb by (simpl in Hl; lia). reflexivity.
  - destruct l as [|x l]; [discriminate|].
    cbn [replicate app map select drop]. change (0 =? 1) with false. cbv iota.
    apply IH. simpl in Hl. lia.
Qed.

Section Scores.
Context {L : Library}.

Lemma classifier_scores_spec (a b : nat) (k_adj : Z) (rho sigma_rho : float64)
    (neighbors : list (list Z)) :
  Forall (Forall (fun j => 0 <= j < Z.of_nat a + Z.of_nat b)) neighbors ->
  nonzero rho ->
  classifier_scores (doublet_labels a b) (Z.of_nat a) (Z.of_nat b) k_adj
    rho sigma_rho neighbors
  = Ok (map (fun row => fst (spec_score (Z.of_nat a) (Z.of_nat b) k_adj
                               rho sigma_rho row)) neighbors,
        map (fun row => snd (spec_score (Z.of_nat a) (Z.of_nat b) k_adj
                               rho sigma_rho row)) neighbors).
Proof.
  intros Hvalid Hrho. unfold classifier_scores.
  rewrite (omap_ext_ok _ (spec_nd (Z.of_nat a) (Z.of_nat b))).
  2:{ eapply Forall_impl; [exact Hvalid|]. intros row Hrow.
      now apply n_sim_neigh_row_spec. }
  cbn [obind].
  assert (Hdiv : py_truediv sigma_rho rho = Ok (fdiv sigma_rho rho)).
  { unfold py_truediv. destruct rho as [q| |]; try reflexivity.
    cbn in Hrho. now rewrite Qzero_b_false. }
  rewrite Hdiv. cbn [obind]. rewrite !map_map. reflexivity.
Qed.

Lemma np_mask_labels {A} (a b : nat) (l : list A) :
  length l = (a + b)%nat ->
  np_mask l (map (fun x => x =? 0) (doublet_labels a b)) = Ok (take a l)
  /\ np_mask l (map (fun x => x =? 1) (doublet_labels a b)) = Ok (drop a l).
Proof.
  intros Hl. unfold np_mask.
  rewrite !length_map, doublet_labels_length, Hl, Nat.eqb_refl.
  now rewrite select_labels_obs, select_labels_sim.
Qed.

(** C2. When the graph that [get_knn_graph] returns has one row of valid
    pooled indices for each pooled point, [_nearest_neighbor_classifier]
    stores for every pooled point the score [L_d] and the standard error
    [se_Ld] of the specification, computed from the number [nd] of its
    neighbors in the simulated range, [N = k_adj], [r = n_sim / n_obs]
    and the two rate parameters: the observed points first, in
    [doublet_scores_obs_] and [doublet_errors_obs_], the simulated ones
    after them. [k_adj] is the number of neighbors that line 463 computes
    and asks [get_knn_graph] for, and the formulas are evaluated in
    double precision in the order in which they are written. The values
    are a function of the graph and of the parameters, and the generator
    is not touched. *)
Theorem nearest_neighbor_classifier_scores w k approx metric rho sigma_rho gp
    manifold_obs manifold_sim seed neighbors :
  classifier_inputs w manifold_obs manifold_sim seed ->
  0 < nrows manifold_obs ->
  nonzero rho ->
  let n_obs := nrows manifold_obs in
  let n_sim := nrows manifold_sim in
  let k_adj := round_half_even (adjusted_k_float k n_obs n_sim) in
  get_knn_graph (pooled manifold_obs manifold_sim) k_adj metric approx seed
  = Ok neighbors ->
  Z.of_nat (length neighbors) = n_obs + n_sim ->
  Forall (Forall (fun j => 0 <= j < n_obs + n_sim)) neighbors ->
  let result := nearest_neighbor_classifier k approx metric rho sigma_rho gp w in
  exists obs sim err_obs err_sim,
    adjusted_k k n_obs n_sim = Ok k_adj
    /\ np_random (snd result) = np_random w
    /\ (gp = false -> fst result = Ok tt)
    /\ self (snd result) !! "doublet_scores_obs_" = Some (VFloats obs)
    /\ self (snd result) !! "doublet_scores_sim_" = Some (VFloats sim)
    /\ self (snd result) !! "doublet_errors_obs_" = Some (VFloats err_obs)
    /\ self (snd result) !! "doublet_errors_sim_" = Some (VFloats err_sim)
    /\ Z.of_nat (length obs) = n_obs /\ Z.of_nat (length err_obs) = n_obs
    /\ forall (i : nat) row, neighbors !! i = Some row ->
         let score := spec_score n_obs n_sim k_adj rho sigma_rho row in
         (obs ++ sim) !! i = Some (fst score)
         /\ (err_obs ++ err_sim) !! i = Some (snd score).
Proof.
  intros Hin Hn Hrho n_obs n_sim k_adj Hknn Hlen Hvalid result.
  set (a := length (rows manifold_obs)) in *.
  set (b := length (rows manifold_sim)) in *.
  set (Ld := map (fun row => fst (spec_score n_obs n_sim k_adj rho sigma_rho row))
               neighbors).
  set (se := map (fun row => snd (spec_score n_obs n_sim k_adj rho sigma_rho row))
               neighbors).
  assert (HLd : length Ld = (a + b)%nat)
    by (unfold Ld; rewrite length_map; unfold n_obs, n_sim, nrows in Hlen; lia).
  assert (Hse : length se = (a + b)%nat)
    by (unfold se; rewrite length_map; unfold n_obs, n_sim, nrows in Hlen; lia).
  destruct (np_mask_labels a b Ld HLd) as [HLd0 HLd1].
  destruct (np_mask_labels a b se Hse) as [Hse0 Hse1].
  exists (take a Ld), (drop a Ld), (take a se), (drop a se).
  assert (Hrun : exists W,
    result = (if gp then fst result else Ok tt, W)
    /\ np_random W = np_random w
    /\ self W !! "doublet_scores_obs_" = Some (VFloats (take a Ld))
    /\ self W !! "doublet_scores_sim_" = Some (VFloats (drop a Ld))
    /\ self W !! "doublet_errors_obs_" = Some (VFloats (take a se))
    /\ self W !! "doublet_errors_sim_" = Some (VFloats (drop a se))).
  { unfold result.
    rewrite (classifier_unfold w k approx metric rho sigma_rho gp
               manifold_obs manifold_sim seed Hin Hn).
    fold n_obs n_sim k_adj a b.
    erewrite bind_ok by (unfold lift; rewrite Hknn; reflexivity).
    unfold classifier_with_graph.
    erewrite bind_ok
      by (unfold lift, n_obs, n_sim, nrows; fold a b;
          rewrite classifier_scores_spec by assumption; reflexivity).
    cbn [fst snd].
    change (Z.of_nat a) with n_obs. change (Z.of_nat b) with n_sim.
    fold Ld se.
    erewrite bind_ok by (unfold lift; rewrite HLd0; reflexivity).
    erewrite bind_ok by reflexivity.
    erewrite bind_ok by (unfold lift; rewrite HLd1; reflexivity).
    erewrite bind_ok by reflexivity.
    erewrite bind_ok by (unfold lift; rewrite Hse0; reflexivity).
    erewrite bind_ok by reflexivity.
    erewrite bind_ok by (unfold lift; rewrite Hse1; reflexivity).
    erewrite bind_ok by reflexivity.
    destruct gp.
    - unfold bind, getattr, lift, setattr. cbn [self np_random].
      destruct (_ !! "doublet_parents_") as [v|];
        [destruct (as_pairs v) as [pc|];
         [destruct (omap _ _) as [np|]; [destruct (np_array np) as [arr|]|]|]|];
        (eexists; split; [reflexivity|]); cbn [self np_random];
        attr_lookup; repeat split; reflexivity.
    - eexists. split; [reflexivity|]. cbn [self np_random].
      attr_lookup. repeat split; reflexivity. }
  destruct Hrun as (W & Hres & Hrng & H1 & H2 & H3 & H4).
  rewrite Hres. cbn [fst snd].
  split; [now apply adjusted_k_value|].
  split; [assumption|]. split; [now intros ->|].
  repeat (split; [assumption|]).
  split; [rewrite length_take; unfold n_obs, nrows; fold a; lia|].
  split; [rewrite length_take; unfold n_obs, nrows; fold a; lia|].
  intros i row Hrow. rewrite !take_drop. unfold Ld, se.
  rewrite !list_lookup_fmap, Hrow. split; reflexivity.
Qed.

End Scores.

(** ** call_doublets and the results the wrapper stores *)

Section Calling.
Context {L : Library}.

Lemma call_doublets_at_runs w Ld_obs Ld_sim se_obs t verbose :
  scored w Ld_obs Ld_sim se_obs ->
  call_doublets_at t verbose w
  = (Ok (VBools (map (fun x => fgt x t) Ld_obs)),
     World L (np_random w) (called (self w) Ld_obs Ld_sim se_obs t)).
Proof.
  intros [Hobs Hsim Herr Hlen [rate Hrate]].
  destruct w as [st attrs]. cbn [self np_random] in *.
  unfold call_doublets_at.
  erewrite bind_ok by (apply getattr_ok; eassumption).
  erewrite bind_ok by reflexivity.
  erewrite bind_ok by (apply getattr_ok; eassumption).
  erewrite bind_ok by reflexivity.
  erewrite bind_ok by (apply getattr_ok; eassumption).
  erewrite bind_ok by reflexivity.
  erewrite bind_ok
    by (unfold lift, z_scores; rewrite Hlen, Nat.eqb_refl; reflexivity).
  do 5 (erewrite bind_ok by reflexivity; cbn [self np_random]).
  erewrite bind_ok by (apply getattr_ok; cbn [self]; attr_lookup; reflexivity).
  erewrite bind_ok by reflexivity.
  erewrite bind_ok by (apply getattr_ok; cbn [self]; attr_lookup; reflexivity).
  erewrite bind_ok by reflexivity.
  erewrite bind_ok by reflexivity. cbn [self np_random].
  match goal with
  | |- bind _ _ ?W = _ => rewrite (bind_ok _ _ W W tt)
  end.
  2:{ destruct verbose; [|reflexivity].
      erewrite bind_ok by (apply getattr_ok; cbn [self]; attr_lookup; reflexivity).
      erewrite bind_ok by (apply getattr_ok; cbn [self]; attr_lookup; reflexivity).
      erewrite bind_ok by (apply getattr_ok; cbn [self]; attr_lookup; eassumption).
      erewrite bind_ok by (apply getattr_ok; cbn [self]; attr_lookup; reflexivity).
      reflexivity. }
  unfold getattr. cbn [self]. unfold called. attr_lookup. reflexivity.
Qed.

Lemma call_doublets_runs w Ld_obs Ld_sim se_obs threshold t verbose :
  scored w Ld_obs Ld_sim se_obs ->
  calibrated threshold Ld_sim t ->
  call_doublets threshold verbose w
  = (Ok (VBools (map (fun x => fgt x t) Ld_obs)),
     World L (np_random w) (called (self w) Ld_obs Ld_sim se_obs t)).
Proof.
  intros Hsc [->|[-> Hmin]]; unfold call_doublets.
  - now apply call_doublets_at_runs.
  - erewrite bind_ok.
    2:{ unfold try_except.
        erewrite bind_ok by (apply getattr_ok; apply (sc_sim _ _ _ _ Hsc)).
        erewrite bind_ok by reflexivity.
        erewrite bind_ok by (unfold lift; rewrite Hmin; reflexivity).
        reflexivity. }
    now apply call_doublets_at_runs.
Qed.

Lemma fdiv_zero_not_finite (x : float64) (z : Q) :
  (z == 0)%Q -> is_finite (fdiv x (Fin z)) = false.
Proof.
  intros Hz. apply Qeq_bool_iff in Hz.
  destruct x as [a|s|]; unfold fdiv, Qzero_b; [|reflexivity|reflexivity].
  rewrite Hz. now destruct (Qeq_bool a 0).
Qed.

Lemma call_doublets_failure_runs (w : world) (verbose : bool) :
  search_fails w ->
  call_doublets None verbose w
  = (Ok VNone,
     World L (np_random w) (<["predicted_doublets_" := VNone]> (self w))).
Proof.
  intros Hfail. unfold search_fails in Hfail.
  unfold call_doublets, try_except, bind, getattr, lift, setattr, ret.
  destruct (self w !! "doublet_scores_sim_") as [v|] eqn:Hsim; simpl.
  - destruct v; simpl; try (rewrite lookup_insert_eq; reflexivity).
    destruct Hfail as [e He]. rewrite He. simpl.
    rewrite lookup_insert_eq. reflexivity.
  - rewrite lookup_insert_eq. reflexivity.
Qed.

(** C10. When the automatic search fails, [call_doublets] assigns
    [None] to [predicted_doublets_] and nothing else: the call returns
    [None], the generator is untouched and every other attribute,
    [threshold_], [z_scores_] and the three rates among them, is as it
    was before, unset or set. *)
Theorem call_doublets_failure_frame (w : world) (verbose : bool) :
  search_fails w ->
  exists w',
    call_doublets None verbose w = (Ok VNone, w')
    /\ np_random w' = np_random w
    /\ self w' !! "predicted_doublets_" = Some VNone
    /\ forall name, name <> "predicted_doublets_" ->
         self w' !! name = self w !! name.
Proof.
  intros Hfail. eexists. split; [now apply call_doublets_failure_runs|].
  cbn [self np_random]. split; [reflexivity|].
  split; [apply lookup_insert_eq|].
  intros name Hne. now rewrite lookup_insert_ne.
Qed.

(** C9. When calibration succeeds, [overall_doublet_rate_] is the
    quotient of [detected_doublet_rate_] by
    [detectable_doublet_fraction_] in numpy's arithmetic, and when the
    detectable fraction is zero that quotient is an infinity or
    not-a-number, never a finite value. *)
Theorem call_doublets_overall_rate w Ld_obs Ld_sim se_obs threshold t verbose :
  scored w Ld_obs Ld_sim se_obs ->
  calibrated threshold Ld_sim t ->
  exists w' predicted detected detectable,
    call_doublets threshold verbose w = (Ok predicted, w')
    /\ detected = fraction_above Ld_obs t
    /\ detectable = fraction_above Ld_sim t
    /\ self w' !! "threshold_" = Some (VFloat t)
    /\ self w' !! "detected_doublet_rate_" = Some (VFloat detected)
    /\ self w' !! "detectable_doublet_fraction_" = Some (VFloat detectable)
    /\ self w' !! "overall_doublet_rate_"
       = Some (VFloat (fdiv detected detectable))
    /\ (forall z, detectable = Fin z -> (z == 0)%Q ->
          is_finite (fdiv detected detectable) = false).
Proof.
  intros Hsc Hcal.
  rewrite (call_doublets_runs w Ld_obs Ld_sim se_obs threshold t verbose Hsc Hcal).
  eexists _, _, _, _. split; [reflexivity|]. cbn [self]. unfold called.
  split; [reflexivity|]. split; [reflexivity|].
  split; [attr_lookup; reflexivity|].
  split; [attr_lookup; reflexivity|].
  split; [attr_lookup; reflexivity|].
  split; [attr_lookup; reflexivity|].
  intros z Hz Hz0. rewrite Hz. now apply fdiv_zero_not_finite.
Qed.

(** What the statements of [_scrublet_call_doublets] from line 438 on
    store about the predictions, when they run on a scored object on
    which no threshold was stored before. If the automatic search fails,
    no threshold is stored, neither in the object nor under
    [.uns["scrublet"]], and [.obs["predicted_doublet"]] is [False] for
    every observed cell. If calibration succeeds or a threshold is
    supplied, the threshold is stored and [predicted_doublet[i]] is
    [doublet_score[i] > threshold] for every cell [i]. *)
Lemma scrublet_call_doublets_results_predictions w n parents ratio n_neighbors rho gp
    threshold seed verbose Ld_obs Ld_sim se_obs :
  scored w Ld_obs Ld_sim se_obs ->
  length Ld_obs = n ->
  self w !! "threshold_" = None ->
  (gp = true -> is_Some (self w !! "doublet_neighbor_parents_")) ->
  let run := scrublet_call_doublets_results n parents ratio n_neighbors rho gp
               threshold seed verbose w in
  (threshold = None -> (exists e, threshold_minimum Ld_sim = Raise e) ->
     exists res w',
       run = (Ok res, w')
       /\ self w' !! "threshold_" = None
       /\ uns_threshold res = None
       /\ obs_predicted_doublet res = replicate n (VBool false))
  /\ (forall t, calibrated threshold Ld_sim t ->
        exists res w',
          run = (Ok res, w')
          /\ self w' !! "threshold_" = Some (VFloat t)
          /\ uns_threshold res = Some (VFloat t)
          /\ obs_doublet_score res = map VFloat Ld_obs
          /\ length (obs_predicted_doublet res) = n
          /\ forall (i : nat) s, Ld_obs !! i = Some s ->
               obs_predicted_doublet res !! i = Some (VBool (fgt s t))).
Proof.
  intros Hsc Hn Hfresh Hgp run.
  pose proof Hsc as [Hobs Hsim Herr Hlen Hrate].
  destruct w as [st attrs]. cbn [self np_random] in *.
  assert (Hassign : obs_assign n (VFloats Ld_obs) = Ok (map VFloat Ld_obs)).
  { unfold obs_assign. now rewrite Hn, Nat.eqb_refl. }
  split.
  - intros -> Hfail.
    unfold run, scrublet_call_doublets_results.
    erewrite bind_ok.
    2:{ apply call_doublets_failure_runs. unfold search_fails. cbn [self].
        rewrite Hsim. exact Hfail. }
    cbn [self np_random].
    erewrite bind_ok by (apply getattr_ok; cbn [self]; attr_lookup; eassumption).
    erewrite bind_ok by (unfold lift; rewrite Hassign; reflexivity).
    erewrite bind_ok by (apply getattr_ok; cbn [self]; attr_lookup; eassumption).
    erewrite bind_ok.
    2:{ unfold hasattr. cbn [self]. attr_lookup. rewrite Hfresh. reflexivity. }
    rewrite bool_decide_false by (intros [? ?]; discriminate).
    erewrite bind_ok by reflexivity.
    destruct gp.
    + destruct (Hgp eq_refl) as [np Hnp].
      erewrite bind_ok
        by (erewrite bind_ok
              by (apply getattr_ok; cbn [self]; attr_lookup; eassumption);
            reflexivity).
      eexists _, _. split; [reflexivity|]. cbn [self].
      attr_lookup. repeat split; assumption || reflexivity.
    + erewrite bind_ok by reflexivity.
      eexists _, _. split; [reflexivity|]. cbn [self].
      attr_lookup. repeat split; assumption || reflexivity.
  - intros t Hcal.
    unfold run, scrublet_call_doublets_results.
    erewrite bind_ok by (eapply call_doublets_runs; eassumption).
    cbn [self np_random]. unfold called.
    erewrite bind_ok by (apply getattr_ok; cbn [self]; attr_lookup; eassumption).
    erewrite bind_ok by (unfold lift; rewrite Hassign; reflexivity).
    erewrite bind_ok by (apply getattr_ok; cbn [self]; attr_lookup; eassumption).
    erewrite bind_ok.
    2:{ unfold hasattr. cbn [self]. attr_lookup. reflexivity. }
    rewrite bool_decide_true by eauto.
    erewrite bind_ok.
    2:{ erewrite bind_ok by (apply getattr_ok; cbn [self]; attr_lookup; reflexivity).
        erewrite bind_ok by (apply getattr_ok; cbn [self]; attr_lookup; reflexivity).
        erewrite bind_ok
          by (unfold lift, obs_assign; rewrite length_map, Hn, Nat.eqb_refl;
              reflexivity).
        reflexivity. }
    assert (Hpred : forall (i : nat) s, Ld_obs !! i = Some s ->
              map VBool (map (fun x => fgt x t) Ld_obs) !! i
              = Some (VBool (fgt s t))).
    { intros i s Hi. now rewrite !list_lookup_fmap, Hi. }
    destruct gp.
    + destruct (Hgp eq_refl) as [np Hnp].
      erewrite bind_ok
        by (erewrite bind_ok
              by (apply getattr_ok; cbn [self]; attr_lookup; eassumption);
            reflexivity).
      eexists _, _. split; [reflexivity|]. cbn [self].
      attr_lookup. cbn.
      repeat split; try reflexivity; try assumption.
      now rewrite !length_map.
    + erewrite bind_ok by reflexivity.
      eexists _, _. split; [reflexivity|]. cbn [self].
      attr_lookup. cbn.
      repeat split; try reflexivity; try assumption.
      now rewrite !length_map.
Qed.

End Calling.

(** ** scrublet_simulate_doublets *)

Section Wrapper.
Context {L : Library}.

Lemma keeps_ret {A} name (a : A) : keeps name (ret a).
Proof. intros w. reflexivity. Qed.

Lemma keeps_lift {A} name (o : outcome A) : keeps name (lift o).
Proof. intros w. reflexivity. Qed.

Lemma keeps_getattr name n : keeps name (getattr n).
Proof. intros w. unfold getattr. now destruct (self w !! n). Qed.

Lemma keeps_setattr name n v : n <> name -> keeps name (setattr n v).
Proof. intros Hne w. cbn. now rewrite lookup_insert_ne. Qed.

Lemma keeps_bind {A B} name (m : M A) (k : A -> M B) :
  keeps name m -> (forall a, keeps name (k a)) -> keeps name (bind m k).
Proof.
  intros Hm Hk w. unfold bind. specialize (Hm w).
  destruct (m w) as [[a|e] w1]; cbn [snd] in *; [|assumption].
  now rewrite Hk.
Qed.

Lemma keeps_seed name s : keeps name (np_random_seed s).
Proof. intros w. unfold np_random_seed. now destruct (_ && _). Qed.

Lemma keeps_randint name lo hi n : keeps name (np_random_randint lo hi n).
Proof.
  intros w. unfold np_random_randint.
  destruct (n <? 0); [reflexivity|]. now destruct (_ && _).
Qed.

Lemma keeps_subsample name E rate totals seed :
  keeps name (call_subsample_counts E rate totals seed).
Proof. intros w. reflexivity. Qed.

Ltac keeps_steps :=
  repeat lazymatch goal with
    | |- keeps _ (bind _ _) => apply keeps_bind; [|intros ?]
    | |- keeps _ (ret _) => apply keeps_ret
    | |- keeps _ (lift _) => apply keeps_lift
    | |- keeps _ (getattr _) => apply keeps_getattr
    | |- keeps _ (setattr _ _) => apply keeps_setattr; done
    | |- keeps _ (np_random_seed _) => apply keeps_seed
    | |- keeps _ (np_random_randint _ _ _) => apply keeps_randint
    | |- keeps _ (call_subsample_counts _ _ _ _) => apply keeps_subsample
    | |- keeps _ (match ?x with _ => _ end) => destruct x
    end.

Lemma simulate_doublets_keeps_counts_sim arg s :
  keeps "_counts_sim" (simulate_doublets arg s).
Proof. unfold simulate_doublets. keeps_steps. Qed.

Lemma Scrublet_init_keeps_counts_sim X totals ratio k rho se seed :
  keeps "_counts_sim" (Scrublet_init X totals ratio k rho se seed).
Proof. unfold Scrublet_init. keeps_steps. Qed.

(** C6. [scrublet_simulate_doublets] returns nothing: every call ends
    in an exception. When the constructor and [simulate_doublets] both
    return normally, the exception is the [AttributeError] of line 539,
    which reads [scrub._counts_sim] while [simulate_doublets] stored the
    synthetic matrix in [scrub._E_sim]. *)
Theorem scrublet_simulate_doublets_raises X ratio s seed w :
  exists e w',
    scrublet_simulate_doublets X ratio s seed w = (Raise e, w')
    /\ forall w1 w2,
         Scrublet_init X None (Fin 2) None (Fin (1 # 10)) (Fin (2 # 100)) seed
           (World L (np_random w) ∅) = (Ok tt, w1) ->
         simulate_doublets (Some ratio) s w1 = (Ok tt, w2) ->
         e = AttributeError "_counts_sim" /\ w' = w2.
Proof.
  unfold scrublet_simulate_doublets.
  erewrite bind_ok by reflexivity.
  set (w0 := World L (np_random w) ∅).
  pose proof (Scrublet_init_keeps_counts_sim X None (Fin 2) None (Fin (1 # 10))
                (Fin (2 # 100)) seed w0) as Hinit.
  destruct (Scrublet_init X None (Fin 2) None (Fin (1 # 10)) (Fin (2 # 100))
              seed w0) as [[[]|e] w1] eqn:Einit; cbn [snd] in Hinit.
  2:{ erewrite bind_raise by exact Einit.
      eexists _, _. split; [reflexivity|]. intros ? ? [=]. }
  erewrite bind_ok by exact Einit.
  pose proof (simulate_doublets_keeps_counts_sim (Some ratio) s w1) as Hsim.
  destruct (simulate_doublets (Some ratio) s w1) as [[[]|e] w2] eqn:Esim;
    cbn [snd] in Hsim.
  2:{ erewrite bind_raise by exact Esim.
      eexists _, _. split; [reflexivity|].
      intros ? ? [= <-] H. rewrite Esim in H. discriminate. }
  erewrite bind_ok by exact Esim.
  erewrite bind_raise.
  2:{ apply getattr_missing. rewrite Hsim, Hinit. apply lookup_empty. }
  eexists _, _. split; [reflexivity|].
  intros ? ? [= <-] H. rewrite Esim in H. injection H as <-.
  split; reflexivity.
Qed.
End Wrapper.

(** * Further properties of the methods *)

(** ** What a method assigns *)

Section Frames.
Context {L : Library}.

Lemma keeps_hasattr name n : keeps name (hasattr n).
Proof. intros w. reflexivity. Qed.

Lemma keeps_try_except {A} name (body handler : M A) :
  keeps name body -> keeps name handler -> keeps name (try_except body handler).
Proof.
  intros Hb Hh w. unfold try_except. specialize (Hb w).
  destruct (body w) as [[a|e] w1]; cbn [snd] in *; [assumption|].
  now rewrite Hh.
Qed.

Lemma keeps_generator_ret {A} (a : A) : keeps_generator (ret a).
Proof. intros w. reflexivity. Qed.

Lemma keeps_generator_lift {A} (o : outcome A) : keeps_generator (lift o).
Proof. intros w. reflexivity. Qed.

Lemma keeps_generator_getattr n : keeps_generator (getattr n).
Proof. intros w. unfold getattr. now destruct (self w !! n). Qed.

Lemma keeps_generator_setattr n v : keeps_generator (setattr n v).
Proof. intros w. reflexivity. Qed.

Lemma keeps_generator_bind {A B} (m : M A) (k : A -> M B) :
  keeps_generator m -> (forall a, keeps_generator (k a)) ->
  keeps_generator (bind m k).
Proof.
  intros Hm Hk w. unfold bind. specialize (Hm w).
  destruct (m w) as [[a|e] w1]; cbn [snd] in *; [|assumption].
  now rewrite Hk.
Qed.

Lemma keeps_generator_try_except {A} (body handler : M A) :
  keeps_generator body -> keeps_generator handler ->
  keeps_generator (try_except body handler).
Proof.
  intros Hb Hh w. unfold try_except. specialize (Hb w).
  destruct (body w) as [[a|e] w1]; cbn [snd] in *; [assumption|].
  now rewrite Hh.
Qed.

End Frames.

(** One step of a frame argument, chosen by the head of the
    computation. *)
Ltac frame_steps :=
  repeat lazymatch goal with
    | |- keeps _ (bind _ _) => apply keeps_bind; [|intros ?]
    | |- keeps _ (ret _) => apply keeps_ret
    | |- keeps _ (lift _) => apply keeps_lift
    | |- keeps _ (getattr _) => apply keeps_getattr
    | |- keeps _ (hasattr _) => apply keeps_hasattr
    | |- keeps _ (setattr _ _) => apply keeps_setattr; congruence
    | |- keeps _ (np_random_seed _) => apply keeps_seed
    | |- keeps _ (np_random_randint _ _ _) => apply keeps_randint
    | |- keeps _ (call_subsample_counts _ _ _ _) => apply keeps_subsample
    | |- keeps _ (try_except _ _) => apply keeps_try_except
    | |- keeps _ (match ?x with _ => _ end) => destruct x
    | |- keeps_generator (bind _ _) => apply keeps_generator_bind; [|intros ?]
    | |- keeps_generator (ret _) => apply keeps_generator_ret
    | |- keeps_generator (lift _) => apply keeps_generator_lift
    | |- keeps_generator (getattr _) => apply keeps_generator_getattr
    | |- keeps_generator (setattr _ _) => apply keeps_generator_setattr
    | |- keeps_generator (try_except _ _) => apply keeps_generator_try_except
    | |- keeps_generator (match ?x with _ => _ end) => destruct x
    end.

(** A name is none of the names of a list of literals. *)
Ltac not_among :=
  repeat (apply not_elem_of_cons; split; [discriminate|]); apply not_elem_of_nil.

Ltac split_names H :=
  repeat (apply not_elem_of_cons in H as [? H]).

Section MethodFrames.
Context {L : Library}.

Lemma Scrublet_init_keeps X totals ratio nn rho se seed name :
  name ∉ init_attributes ->
  keeps name (Scrublet_init X totals ratio nn rho se seed).
Proof.
  intros H. unfold init_attributes in H. split_names H.
  unfold Scrublet_init. frame_steps.
Qed.

Lemma simulate_doublets_keeps arg s name :
  name ∉ "sim_doublet_ratio" :: simulation_outputs ->
  keeps name (simulate_doublets arg s).
Proof.
  intros H. unfold simulation_outputs in H. split_names H.
  unfold simulate_doublets. frame_steps.
Qed.

Lemma set_manifold_keeps a b name :
  name ∉ ["manifold_obs_"; "manifold_sim_"] -> keeps name (set_manifold a b).
Proof. intros H. split_names H. unfold set_manifold. frame_steps. Qed.

Lemma classifier_with_graph_keeps labels n_obs n_sim k_adj rho se gp neighbors name :
  name ∉ score_outputs ->
  keeps name (classifier_with_graph labels n_obs n_sim k_adj rho se gp neighbors).
Proof.
  intros H. unfold score_outputs in H. split_names H.
  unfold classifier_with_graph. frame_steps.
Qed.

Lemma nearest_neighbor_classifier_keeps k approx metric rho se gp name :
  name ∉ score_outputs ->
  keeps name (nearest_neighbor_classifier k approx metric rho se gp).
Proof.
  intros H. unfold nearest_neighbor_classifier. frame_steps.
  now apply classifier_with_graph_keeps.
Qed.

Lemma nearest_neighbor_classifier_keeps_generator k approx metric rho se gp :
  keeps_generator (nearest_neighbor_classifier k approx metric rho se gp).
Proof.
  unfold nearest_neighbor_classifier, classifier_with_graph. frame_steps.
Qed.

Lemma calculate_doublet_scores_keeps approx metric gp name :
  name ∉ score_outputs ->
  keeps name (calculate_doublet_scores approx metric gp).
Proof.
  intros H. unfold calculate_doublet_scores. frame_steps.
  now apply nearest_neighbor_classifier_keeps.
Qed.

Lemma calculate_doublet_scores_keeps_generator approx metric gp :
  keeps_generator (calculate_doublet_scores approx metric gp).
Proof.
  unfold calculate_doublet_scores. frame_steps.
  apply nearest_neighbor_classifier_keeps_generator.
Qed.

Lemma call_doublets_at_keeps t verbose name :
  name ∉ call_outputs -> keeps name (call_doublets_at t verbose).
Proof.
  intros H. unfold call_outputs in H. split_names H.
  unfold call_doublets_at. frame_steps.
Qed.

Lemma call_doublets_keeps threshold verbose name :
  name ∉ call_outputs -> keeps name (call_doublets threshold verbose).
Proof.
  intros H. pose proof call_doublets_at_keeps as Hat.
  unfold call_doublets. destruct threshold; [now apply Hat|].
  apply keeps_bind.
  - unfold call_outputs in H. split_names H. frame_steps.
  - intros [t|]; [now apply Hat|apply keeps_getattr].
Qed.

Lemma call_doublets_at_keeps_generator t verbose :
  keeps_generator (call_doublets_at t verbose).
Proof. unfold call_doublets_at. frame_steps. Qed.

Lemma call_doublets_keeps_generator threshold verbose :
  keeps_generator (call_doublets threshold verbose).
Proof.
  unfold call_doublets.
  destruct threshold; [apply call_doublets_at_keeps_generator|].
  apply keeps_generator_bind; [frame_steps|].
  intros [t|];
    [apply call_doublets_at_keeps_generator|apply keeps_generator_getattr].
Qed.

(** X1. Whatever the object holds and whether the call returns or
    raises, [simulate_doublets] assigns no attribute other than
    [_E_sim], [_total_counts_sim], [doublet_parents_] and, when a ratio
    is passed, [sim_doublet_ratio]: the observed matrix, its total
    counts, the seed and every other attribute are as they were. *)
Theorem simulate_doublets_frame arg s w name :
  name ∉ simulation_outputs ->
  (name = "sim_doublet_ratio" -> arg = None) ->
  self (snd (simulate_doublets arg s w)) !! name = self w !! name.
Proof.
  intros H Hratio.
  destruct (decide (name = "sim_doublet_ratio")) as [->|Hne].
  - rewrite (Hratio eq_refl).
    assert (Hkeeps : keeps "sim_doublet_ratio" (simulate_doublets None s))
      by (unfold simulate_doublets; frame_steps).
    apply Hkeeps.
  - apply simulate_doublets_keeps. now apply not_elem_of_cons.
Qed.

(** X2. Whatever the object holds and whether the call returns or
    raises, [calculate_doublet_scores] leaves the process-wide generator
    as it was and assigns no attribute other than the four score arrays
    and [doublet_neighbor_parents_]; [n_neighbors] in particular keeps
    the value given, not the adjusted one. *)
Theorem calculate_doublet_scores_frame approx metric gp w :
  np_random (snd (calculate_doublet_scores approx metric gp w)) = np_random w
  /\ forall name, name ∉ score_outputs ->
       self (snd (calculate_doublet_scores approx metric gp w)) !! name
       = self w !! name.
Proof.
  split; [apply calculate_doublet_scores_keeps_generator|].
  intros name H. now apply calculate_doublet_scores_keeps.
Qed.

(** X3. Whatever the object holds, with or without a threshold and
    whether the call returns or raises, [call_doublets] leaves the
    process-wide generator as it was and assigns no attribute other than
    [predicted_doublets_], [z_scores_], [threshold_] and the three
    rates: the scores it reads are never modified. *)
Theorem call_doublets_frame threshold verbose w :
  np_random (snd (call_doublets threshold verbose w)) = np_random w
  /\ forall name, name ∉ call_outputs ->
       self (snd (call_doublets threshold verbose w)) !! name = self w !! name.
Proof.
  split; [apply call_doublets_keeps_generator|].
  intros name H. now apply call_doublets_keeps.
Qed.

End MethodFrames.

(** ** More on simulate_doublets *)

Lemma np_take_length {A} (l : list A) (ix : list Z) (r : list A) :
  np_take l ix = Ok r -> length r = length ix.
Proof.
  revert r. induction ix as [|i ix IH]; intros r; simpl.
  - now intros [= <-].
  - destruct (np_index l i); [|discriminate]. simpl.
    destruct (np_take l ix) as [r'|]; [|discriminate]. simpl.
    intros [= <-]. simpl. now rewrite (IH r').
Qed.

Lemma take_totals_length (v : value) (ix : list Z) (r : list Z) :
  take_totals v ix = Ok r -> length r = length ix.
Proof. destruct v; try discriminate. apply np_take_length. Qed.

Lemma take_rows_length {A} (m : array2 A) (ix : list Z) (r : array2 A) :
  take_rows m ix = Ok r -> length (rows r) = length ix /\ ncols r = ncols m.
Proof.
  unfold take_rows. destruct (np_take (rows m) ix) as [x|] eqn:E; [|discriminate].
  simpl. intros [= <-]. simpl. split; [|reflexivity]. now apply np_take_length in E.
Qed.

Lemma fst_snd_eq {A B} (p : A * B) (a : A) : fst p = a -> p = (a, snd p).
Proof. intros <-. now destruct p. Qed.

Lemma sum_zip_with (a b : list Z) :
  length a = length b ->
  foldr Z.add 0 (zip_with Z.add a b) = foldr Z.add 0 a + foldr Z.add 0 b.
Proof.
  revert b. induction a as [|x a IH]; intros [|y b] Hl; try discriminate.
  - reflexivity.
  - cbn. rewrite IH by (simpl in Hl; lia). lia.
Qed.

Lemma zip_with_wrap_fits (d : int_dtype) (a b : list Z) :
  0 < dtype_bits d ->
  Forall (in_dtype d) (zip_with Z.add a b) ->
  zip_with (fun x y => wrap d (x + y)) a b = zip_with Z.add a b.
Proof.
  intros Hb. revert b. induction a as [|x a IH]; intros [|y b] H;
    cbn in *; try reflexivity.
  apply Forall_cons in H as [Hx H].
  rewrite (wrap_in_dtype _ _ Hb Hx). f_equal. now apply IH.
Qed.

Lemma row_sums_of_pairs (X : array2 Z) (pair_ix : list (Z * Z))
    (E1 E2 : list (list Z)) (t1 t2 : list Z) (n : nat) :
  Forall (fun r => length r = n) (rows X) ->
  Forall2 (fun p r => rows X !! Z.to_nat (fst p) = Some r) pair_ix E1 ->
  Forall2 (fun p r => rows X !! Z.to_nat (snd p) = Some r) pair_ix E2 ->
  Forall2 (fun p t => row_sums X !! Z.to_nat (fst p) = Some t) pair_ix t1 ->
  Forall2 (fun p t => row_sums X !! Z.to_nat (snd p) = Some t) pair_ix t2 ->
  map (fun r => foldr Z.add 0 r) (zip_with (zip_with Z.add) E1 E2)
  = zip_with Z.add t1 t2.
Proof.
  intros Hrect HF1. revert E2 t1 t2.
  induction HF1 as [|p ra pair_ix E1 Hra _ IH]; intros E2 t1 t2 HF2 HG1 HG2.
  - inversion HF2; inversion HG1; inversion HG2; subst. reflexivity.
  - inversion HF2 as [|? rb ? E2' Hrb HF2']; subst.
    inversion HG1 as [|? ta ? t1' Hta HG1']; subst.
    inversion HG2 as [|? tb ? t2' Htb HG2']; subst.
    cbn [zip_with map]. rewrite (IH E2' t1' t2') by assumption. f_equal.
    unfold row_sums in Hta, Htb. rewrite list_lookup_fmap in Hta, Htb.
    rewrite Hra in Hta. rewrite Hrb in Htb. cbn in Hta, Htb.
    injection Hta as <-. injection Htb as <-.
    apply sum_zip_with.
    rewrite Forall_forall in Hrect.
    rewrite (Hrect ra), (Hrect rb); [reflexivity| |];
      eapply list_elem_of_lookup_2; eassumption.
Qed.

Section Outcomes.
Context {L : Library}.

Lemma bind_raise_inv {A B} (m : M A) (k : A -> M B) w e w' :
  bind m k w = (Raise e, w') ->
  m w = (Raise e, w') \/ exists a w1, m w = (Ok a, w1) /\ k a w1 = (Raise e, w').
Proof.
  unfold bind. destruct (m w) as [[a|e1] w1]; [eauto|]. intros [= -> ->]. now left.
Qed.

Lemma getattr_inv name w (r : outcome value) w1 :
  getattr name w = (r, w1) -> w1 = w.
Proof. unfold getattr. destruct (self w !! name); now intros [= _ <-]. Qed.

Lemma lift_inv {A} (o : outcome A) w r w1 : lift o w = (r, w1) -> r = o /\ w1 = w.
Proof. now intros [= <- <-]. Qed.

Lemma Scrublet_init_attrs X totals ratio nn rho se seed w0 w1 :
  Scrublet_init X totals ratio nn rho se seed w0 = (Ok tt, w1) ->
  np_random w1 = np_random w0
  /\ self w1 !! "_E_obs" = Some (VCounts X)
  /\ self w1 !! "_total_counts_obs"
     = Some (match totals with
             | None => squeeze (row_sums X)
             | Some t => VInts t
             end)
  /\ self w1 !! "sim_doublet_ratio" = Some (VFloat ratio)
  /\ self w1 !! "expected_doublet_rate" = Some (VFloat rho)
  /\ self w1 !! "stdev_doublet_rate" = Some (VFloat se)
  /\ self w1 !! "random_state" = Some (VInt seed)
  /\ exists k, self w1 !! "n_neighbors" = Some (VInt k)
               /\ forall k', nn = Some k' -> k = k'.
Proof.
  unfold Scrublet_init, bind, setattr, ret, lift. cbn [self np_random].
  destruct nn as [k|].
  - intros [= <-]. cbn [self np_random].
    repeat (split; [attr_lookup; reflexivity|]).
    exists k. split; [attr_lookup; reflexivity|]. now intros ? [= ->].
  - destruct (py_round _) as [k|]; [|discriminate].
    intros [= <-]. cbn [self np_random].
    repeat (split; [attr_lookup; reflexivity|]).
    exists k. split; [attr_lookup; reflexivity|]. discriminate.
Qed.

End Outcomes.

(** One statement of a method raised, or returned [a] and the rest
    raised; a statement that reads an attribute or computes a value
    leaves the world as it was. *)
Ltac raise_pure H a E :=
  apply bind_raise_inv in H as [H | (a & ? & E & H)];
  [ first [apply getattr_inv in H | apply lift_inv in H as [_ H]]; subst; auto
  | first [pose proof (getattr_inv _ _ _ _ E); subst
          | apply lift_inv in E as [E ?]; symmetry in E; subst ] ].

Section MoreSimulation.
Context {L : Library}.

Lemma simulate_doublets_raise_keeps arg s w e w' name :
  simulate_doublets arg s w = (Raise e, w') ->
  name <> "sim_doublet_ratio" ->
  self w' !! name = self w !! name.
Proof.
  intros Hrun Hname. unfold simulate_doublets in Hrun.
  assert (Hkeep : forall w0, self w0 = with_ratio arg (self w) ->
                   self w0 !! name = self w !! name).
  { intros w0 ->. destruct arg; cbn; [now rewrite lookup_insert_ne|reflexivity]. }
  apply bind_raise_inv in Hrun as [Hrun | (ratio & w1 & H1 & Hrun)].
  { destruct arg as [r|]; [discriminate|].
    apply bind_raise_inv in Hrun as [Hrun | (v & w1 & H1 & Hrun)].
    - apply getattr_inv in Hrun. now subst.
    - apply getattr_inv in H1. apply lift_inv in Hrun as [_ ->]. now subst. }
  assert (Hw1 : self w1 = with_ratio arg (self w)).
  { destruct arg as [r|].
    - injection H1 as _ <-. reflexivity.
    - unfold bind in H1.
      destruct (getattr "sim_doublet_ratio" w) as [[v|?] w0] eqn:E;
        [|discriminate].
      apply getattr_inv in E. apply lift_inv in H1 as [_ ->]. now subst. }
  clear H1.
  raise_pure Hrun vE HvE. raise_pure Hrun E_obs HE_obs.
  raise_pure Hrun n_sim Hn_sim.
  raise_pure Hrun vseed Hvseed. raise_pure Hrun seed Hseed.
  apply bind_raise_inv in Hrun as [Hrun | ([] & w2 & H1 & Hrun)].
  { unfold np_random_seed in Hrun. destruct (_ && _); [discriminate|].
    injection Hrun as _ <-. auto. }
  assert (Hw2 : self w2 = self w1).
  { unfold np_random_seed in H1. destruct (_ && _); [|discriminate].
    now injection H1 as <-. }
  clear H1.
  apply bind_raise_inv in Hrun as [Hrun | (pair_ix & w3 & H1 & Hrun)].
  { unfold np_random_randint in Hrun.
    destruct (n_sim <? 0);
      [|destruct (_ && _); [|discriminate]];
      injection Hrun as _ <-; apply Hkeep; congruence. }
  assert (Hw3 : self w3 = self w1).
  { unfold np_random_randint in H1.
    destruct (n_sim <? 0); [discriminate|].
    destruct (_ && _); [discriminate|].
    injection H1 as _ <-. exact Hw2. }
  clear H1 Hw2 w2.
  assert (Hw3' : self w3 = with_ratio arg (self w)) by congruence.
  raise_pure Hrun E1 HE1. raise_pure Hrun E2 HE2.
  raise_pure Hrun totals Htotals. raise_pure Hrun tots1 Ht1.
  raise_pure Hrun tots2 Ht2.
  apply take_rows_length in HE1 as [HL1 HC1].
  apply take_rows_length in HE2 as [HL2 HC2].
  apply take_totals_length in Ht1, Ht2.
  rewrite length_map in HL1, HL2, Ht1, Ht2.
  assert (Hadd : exists E, mat_add counts_dtype E1 E2 = Ok E).
  { unfold mat_add. rewrite HC1, HC2, HL1, HL2, !Nat.eqb_refl. cbn. eauto. }
  assert (Hvadd : exists t, vec_add totals_dtype tots1 tots2 = Ok t).
  { unfold vec_add. rewrite Ht1, Ht2, Nat.eqb_refl. eauto. }
  destruct Hadd as [E HE], Hvadd as [t Ht].
  assert (Hrs : getattr "random_state" w3 = (Ok vseed, w3)).
  { unfold getattr in *. rewrite Hw3.
    destruct (self w1 !! "random_state"); [|discriminate].
    now injection Hvseed as ->. }
  exfalso.
  apply bind_raise_inv in Hrun as [Hrun | (? & ? & H1 & Hrun)]; [|discriminate].
  destruct (flt s (of_int 1)).
  - unfold bind at 1 2, lift at 1 2 in Hrun. rewrite HE, Ht in Hrun.
    unfold bind at 1 in Hrun. rewrite Hrs in Hrun.
    unfold bind at 1, lift in Hrun. rewrite Hseed in Hrun.
    discriminate.
  - unfold bind, lift in Hrun. rewrite HE in Hrun. cbn in Hrun.
    rewrite Ht in Hrun. discriminate.
Qed.

(** X4. A call of [simulate_doublets] that raises has assigned none of
    its outputs: whatever the object held and whichever statement
    raised, every attribute other than [sim_doublet_ratio] is as it was
    before the call. *)
Theorem simulate_doublets_failure_frame arg s w e name :
  fst (simulate_doublets arg s w) = Raise e ->
  name <> "sim_doublet_ratio" ->
  self (snd (simulate_doublets arg s w)) !! name = self w !! name.
Proof.
  intros Hraise Hname. apply fst_snd_eq in Hraise.
  now apply (simulate_doublets_raise_keeps arg s w e _ name Hraise).
Qed.

Lemma simulate_doublets_draw w arg E_obs seed q s :
  self w !! "_E_obs" = Some (VCounts E_obs) ->
  self w !! "random_state" = Some (VInt seed) ->
  0 <= seed < 2 ^ 32 ->
  match arg with
  | Some r => r = Fin q
  | None => self w !! "sim_doublet_ratio" = Some (VFloat (Fin q))
  end ->
  0 < nrows E_obs ->
  0 <= truncate (binary64 (inject_Z (nrows E_obs) * q)) ->
  let draw := draw_pairs (seed_state seed) 0 (nrows E_obs)
                (truncate (binary64 (inject_Z (nrows E_obs) * q))) in
  let pair_ix := fst draw in
  simulate_doublets arg s w
  = (E1 <- lift (take_rows E_obs (map fst pair_ix)) ;;
     E2 <- lift (take_rows E_obs (map snd pair_ix)) ;;
     totals <- getattr "_total_counts_obs" ;;
     tots1 <- lift (take_totals totals (map fst pair_ix)) ;;
     tots2 <- lift (take_totals totals (map snd pair_ix)) ;;
     (if flt s (of_int 1)
      then
        E <- lift (mat_add counts_dtype E1 E2) ;;
        tots <- lift (vec_add totals_dtype tots1 tots2) ;;
        v <- getattr "random_state" ;;
        seed <- lift (as_int v) ;;
        r <- call_subsample_counts E s tots seed ;;
        setattr "_E_sim" (VCounts (fst r)) ;;
        setattr "_total_counts_sim" (VInts (snd r))
      else
        E <- lift (mat_add counts_dtype E1 E2) ;;
        setattr "_E_sim" (VCounts E) ;;
        tots <- lift (vec_add totals_dtype tots1 tots2) ;;
        setattr "_total_counts_sim" (VInts tots)) ;;
     setattr "doublet_parents_" (VPairs pair_ix))
      (World L (snd draw) (with_ratio arg (self w))).
Proof.
  intros HE Hseed Hrange Hratio Hn Hsim draw pair_ix.
  assert (Hother : forall name, name <> "sim_doublet_ratio" ->
            with_ratio arg (self w) !! name = self w !! name).
  { intros name Hne.
    destruct arg; cbn; [now rewrite lookup_insert_ne|reflexivity]. }
  destruct w as [st attrs]. cbn [self np_random] in *.
  unfold simulate_doublets.
  rewrite (bind_ok _ _ _ (World L st (with_ratio arg attrs)) (Fin q)).
  2:{ destruct arg as [r|]; [subst r|].
      - reflexivity.
      - erewrite bind_ok by (apply getattr_ok; eassumption). reflexivity. }
  erewrite bind_ok
    by (apply getattr_ok; simpl; rewrite Hother by done; eassumption).
  erewrite bind_ok by reflexivity.
  erewrite bind_ok by reflexivity.
  erewrite bind_ok
    by (apply getattr_ok; simpl; rewrite Hother by done; eassumption).
  erewrite bind_ok by reflexivity.
  rewrite (bind_ok _ _ _ (World L (seed_state seed) (with_ratio arg attrs)) tt).
  2:{ unfold np_random_seed.
      destruct (Z.leb_spec 0 seed); [|lia].
      destruct (Z.ltb_spec seed (2 ^ 32)); [|lia]. reflexivity. }
  rewrite (bind_ok _ _ _ (World L (snd draw) (with_ratio arg attrs)) pair_ix).
  2:{ unfold np_random_randint.
      destruct (Z.ltb_spec (truncate (binary64 (inject_Z (nrows E_obs) * q))) 0);
        [lia|].
      destruct (Z.leb_spec (nrows E_obs) 0); [lia|].
      rewrite andb_false_r. reflexivity. }
  reflexivity.
Qed.



(** X6. [int] truncates towards zero, so every ratio whose double
    precision product with [n_obs] lies strictly between [-1] and [1],
    the small negative ones among them, gives [n_sim = 0]: without
    thinning the call returns normally and stores an empty parent array,
    a synthetic matrix without rows and an empty total-count vector.
    [randint] returns the empty array without drawing, so the generator
    is left as the seed set it. *)
Theorem simulate_doublets_empty w arg E_obs totals seed q s :
  sim_inputs w arg E_obs totals seed (Fin q) ->
  0 < nrows E_obs ->
  truncate (binary64 (inject_Z (nrows E_obs) * q)) = 0 ->
  flt s (of_int 1) = false ->
  simulate_doublets arg s w
  = (Ok tt,
     World L (seed_state seed)
       (<["doublet_parents_" := VPairs []]>
          (<["_total_counts_sim" := VInts []]>
             (<["_E_sim" := VCounts (Array2 (ncols E_obs) [])]>
                (with_ratio arg (self w)))))).
Proof.
  intros [HE Ht Hlen Hseed Hrange Hratio] Hn Hzero Hs.
  rewrite (simulate_doublets_draw w arg E_obs seed q s HE Hseed Hrange Hratio Hn)
    by lia.
  cbv zeta. rewrite Hzero. unfold draw_pairs. cbn [Z.eqb fst snd map].
  erewrite bind_ok by reflexivity.
  erewrite bind_ok by reflexivity.
  erewrite bind_ok
    by (apply getattr_ok; cbn [self]; rewrite with_ratio_other by done;
        eassumption).
  erewrite bind_ok by reflexivity.
  erewrite bind_ok by reflexivity.
  rewrite Hs.
  erewrite bind_ok.
  2:{ erewrite bind_ok by (unfold lift, mat_add; cbn; rewrite Nat.eqb_refl;
                           reflexivity).
      erewrite bind_ok by reflexivity.
      erewrite bind_ok by reflexivity.
      reflexivity. }
  reflexivity.
Qed.

Section WithGenerator.
Hypothesis randint_ok : randint_contract.

(** X7. Calling [simulate_doublets] a second time with the same
    arguments changes nothing: the generator is reseeded at each call,
    so the second call draws the same pairs and leaves the object and
    the generator exactly as the first call left them. *)
Theorem simulate_doublets_idempotent w arg E_obs totals seed q s :
  sim_inputs w arg E_obs totals seed (Fin q) ->
  0 < nrows E_obs -> (0 <= q)%Q ->
  (simulate_doublets arg s ;; simulate_doublets arg s) w
  = simulate_doublets arg s w.
Proof.
  intros Hin Hn Hq.
  destruct (simulate_doublets_runs randint_ok w arg E_obs totals seed q s Hin Hn Hq)
    as (E1 & E2 & t1 & t2 & HF1 & HF2 & HG1 & HG2 & Hrun).
  cbv zeta in Hrun.
  erewrite bind_ok by exact Hrun. rewrite Hrun.
  match goal with |- simulate_doublets _ _ ?W = _ => set (w1 := W) end.
  assert (Hin1 : sim_inputs w1 arg E_obs totals seed (Fin q)).
  { destruct Hin as [HE Ht Hlen Hseed Hrange Hratio].
    split; try assumption; unfold w1; cbn [self]; attr_lookup.
    - now rewrite with_ratio_other.
    - now rewrite with_ratio_other.
    - now rewrite with_ratio_other.
    - destruct arg; [assumption|]. attr_lookup. exact Hratio. }
  destruct (simulate_doublets_runs randint_ok w1 arg E_obs totals seed q s Hin1 Hn Hq)
    as (E1' & E2' & t1' & t2' & HF1' & HF2' & HG1' & HG2' & Hrun1).
  cbv zeta in Hrun1.
  rewrite <- (Forall2_lookup_functional
                (fun p => rows E_obs !! Z.to_nat (fst p)) _ _ _ HF1 HF1') in Hrun1.
  rewrite <- (Forall2_lookup_functional
                (fun p => rows E_obs !! Z.to_nat (snd p)) _ _ _ HF2 HF2') in Hrun1.
  rewrite <- (Forall2_lookup_functional
                (fun p => totals !! Z.to_nat (fst p)) _ _ _ HG1 HG1') in Hrun1.
  rewrite <- (Forall2_lookup_functional
                (fun p => totals !! Z.to_nat (snd p)) _ _ _ HG2 HG2') in Hrun1.
  rewrite Hrun1. f_equal. unfold w1. cbn [self]. f_equal.
  apply map_eq. intros name.
  destruct (decide (name = "doublet_parents_")) as [->|H1]; [now attr_lookup|].
  destruct (decide (name = "_total_counts_sim")) as [->|H2]; [now attr_lookup|].
  destruct (decide (name = "_E_sim")) as [->|H3]; [now attr_lookup|].
  rewrite !lookup_insert_ne by done.
  destruct arg as [r|]; cbn [with_ratio]; [|now rewrite !lookup_insert_ne by done].
  destruct (decide (name = "sim_doublet_ratio")) as [->|H4]; [now attr_lookup|].
  now rewrite !lookup_insert_ne by done.
Qed.

(** X8. With a subsampling rate below one, [subsample_counts] is called
    once, on the matrix whose row [i] is the sum, in the dtype of the
    counts, of the two observed rows that the pair [i] names, on the
    sums of their totals in the dtype of the totals, with [random_state]
    as seed and on the generator as the draw of the pairs left it; its
    two results are stored as [_E_sim] and [_total_counts_sim], and the
    generator is left as it returned it. The pairs are as many as the
    whole part of the double precision product [n_obs * ratio], which is
    taken below [2 ^ 53]. *)
Theorem simulate_doublets_thinned w arg E_obs totals seed q s :
  sim_inputs w arg E_obs totals seed (Fin q) ->
  0 < nrows E_obs -> (0 <= q)%Q ->
  (inject_Z (nrows E_obs) * q < inject_Z (2 ^ 53))%Q ->
  flt s (of_int 1) = true ->
  let draw := draw_pairs (seed_state seed) 0 (nrows E_obs)
                (truncate (binary64 (inject_Z (nrows E_obs) * q))) in
  exists w' E tots,
    simulate_doublets arg s w = (Ok tt, w')
    /\ ncols E = ncols E_obs
    /\ length (rows E) = length (fst draw)
    /\ length tots = length (fst draw)
    /\ (forall (i : nat) a b, fst draw !! i = Some (a, b) ->
          exists ra rb ta tb,
            rows E_obs !! Z.to_nat a = Some ra
            /\ rows E_obs !! Z.to_nat b = Some rb
            /\ totals !! Z.to_nat a = Some ta
            /\ totals !! Z.to_nat b = Some tb
            /\ rows E !! i
               = Some (zip_with (fun x y => wrap counts_dtype (x + y)) ra rb)
            /\ tots !! i = Some (wrap totals_dtype (ta + tb)))
    /\ let out := subsample_counts E s tots seed (snd draw) in
       self w' !! "_E_sim" = Some (VCounts (fst (fst out)))
       /\ self w' !! "_total_counts_sim" = Some (VInts (snd (fst out)))
       /\ self w' !! "doublet_parents_" = Some (VPairs (fst draw))
       /\ np_random w' = snd out.
Proof.
  intros Hin Hn Hq _ Hs draw.
  destruct (simulate_doublets_runs randint_ok w arg E_obs totals seed q s Hin Hn Hq)
    as (E1 & E2 & t1 & t2 & HF1 & HF2 & HG1 & HG2 & Hrun).
  cbv zeta in Hrun. rewrite Hs in Hrun. fold draw in Hrun, HF1, HF2, HG1, HG2.
  eexists _,
    (Array2 (ncols E_obs)
       (zip_with (zip_with (fun x y => wrap counts_dtype (x + y))) E1 E2)),
    (zip_with (fun x y => wrap totals_dtype (x + y)) t1 t2).
  split; [exact Hrun|]. cbn [self np_random rows ncols].
  pose proof (Forall2_length _ _ _ HF1). pose proof (Forall2_length _ _ _ HF2).
  pose proof (Forall2_length _ _ _ HG1). pose proof (Forall2_length _ _ _ HG2).
  split; [reflexivity|].
  split; [rewrite length_zip_with; lia|].
  split; [rewrite length_zip_with; lia|].
  split.
  - intros i a b Hi.
    destruct (Forall2_lookup_l _ _ _ _ _ HF1 Hi) as (ra & Hra & Ha).
    destruct (Forall2_lookup_l _ _ _ _ _ HF2 Hi) as (rb & Hrb & Hb).
    destruct (Forall2_lookup_l _ _ _ _ _ HG1 Hi) as (ta & Hta & Hta').
    destruct (Forall2_lookup_l _ _ _ _ _ HG2 Hi) as (tb & Htb & Htb').
    exists ra, rb, ta, tb. cbn [fst snd] in *.
    repeat (split; [assumption|]).
    split; apply lookup_zip_with_Some; eauto.
  - cbv zeta. attr_lookup. repeat split; reflexivity.
Qed.

(** X9. A matrix of a single observed cell, given to the constructor
    without [total_counts], cannot be simulated from: the constructor
    squeezes the one row sum to a zero-dimensional array, and line 354
    of [simulate_doublets] raises [IndexError] when it indexes it, for
    every ratio that is not negative, every rate and every seed numpy
    accepts. *)
Theorem simulate_doublets_single_row X row ratio nn rho se seed arg q s w0 :
  rows X = [row] ->
  fst (Scrublet_init X None ratio nn rho se seed w0) = Ok tt ->
  0 <= seed < 2 ^ 32 ->
  match arg with Some r => r = Fin q | None => ratio = Fin q end ->
  (0 <= q)%Q ->
  let w1 := snd (Scrublet_init X None ratio nn rho se seed w0) in
  self w1 !! "_total_counts_obs" = Some (VInt0 (foldr Z.add 0 row))
  /\ fst (simulate_doublets arg s w1) = Raise IndexError.
Proof.
  intros Hrow Hinit Hrange Hratio Hq w1.
  apply fst_snd_eq in Hinit. fold w1 in Hinit.
  apply Scrublet_init_attrs in Hinit
    as (_ & HE & Ht & Hr & _ & _ & Hseed & _).
  unfold row_sums in Ht. rewrite Hrow in Ht. cbn in Ht.
  split; [exact Ht|].
  assert (Hn : nrows X = 1) by (unfold nrows; now rewrite Hrow).
  assert (Hnq : (0 <= inject_Z (nrows X) * q)%Q).
  { apply Qmult_le_0_compat; [|assumption]. rewrite Hn. discriminate. }
  rewrite (simulate_doublets_draw w1 arg X seed q s HE Hseed Hrange).
  2:{ destruct arg; [assumption|]. now rewrite Hr, Hratio. }
  2:{ lia. }
  2:{ now apply truncate_nonneg, binary64_nonneg. }
  cbv zeta.
  set (draw := draw_pairs _ _ _ _).
  assert (Hin : Forall (fun p => (0 <= fst p < nrows X) /\ (0 <= snd p < nrows X))
                  (fst draw)).
  { apply Forall_forall. intros p Hp. apply list_elem_of_In in Hp.
    eapply (draw_pairs_range randint_ok); [|exact Hp]. lia. }
  destruct (take_parents (rows X) (fst draw) fst) as [E1 [HE1 _]].
  { eapply Forall_impl; [exact Hin|]. intros p [? _]. assumption. }
  destruct (take_parents (rows X) (fst draw) snd) as [E2 [HE2 _]].
  { eapply Forall_impl; [exact Hin|]. intros p [_ ?]. assumption. }
  erewrite bind_ok by (unfold lift, take_rows; rewrite HE1; reflexivity).
  erewrite bind_ok by (unfold lift, take_rows; rewrite HE2; reflexivity).
  erewrite bind_ok
    by (apply getattr_ok; cbn [self]; rewrite with_ratio_other by done;
        eassumption).
  reflexivity.
Qed.

(** X10. On an object that the constructor built without
    [total_counts] from a matrix of at least two cells, in which no sum
    of the counts or of the totals of two cells leaves its dtype, a
    simulation without thinning keeps the totals consistent with the
    counts: entry [i] of [_total_counts_sim] is the sum of row [i] of
    [_E_sim], and [_E_sim] has the genes of the observed matrix. The
    product [n_obs * ratio] is taken below [2 ^ 53]. *)
Theorem simulate_doublets_totals_are_row_sums X ratio nn rho se seed arg q s w0 :
  fst (Scrublet_init X None ratio nn rho se seed w0) = Ok tt ->
  1 < nrows X ->
  Forall (fun r => length r = ncols X) (rows X) ->
  0 < dtype_bits counts_dtype -> 0 < dtype_bits totals_dtype ->
  (forall ra rb, ra ∈ rows X -> rb ∈ rows X ->
     Forall (in_dtype counts_dtype) (zip_with Z.add ra rb)
     /\ in_dtype totals_dtype (foldr Z.add 0 ra + foldr Z.add 0 rb)) ->
  0 <= seed < 2 ^ 32 ->
  match arg with Some r => r = Fin q | None => ratio = Fin q end ->
  (0 <= q)%Q ->
  (inject_Z (nrows X) * q < inject_Z (2 ^ 53))%Q ->
  flt s (of_int 1) = false ->
  let w1 := snd (Scrublet_init X None ratio nn rho se seed w0) in
  exists w2 E,
    simulate_doublets arg s w1 = (Ok tt, w2)
    /\ self w2 !! "_E_sim" = Some (VCounts E)
    /\ self w2 !! "_total_counts_sim" = Some (VInts (row_sums E))
    /\ ncols E = ncols X
    /\ Forall (fun r => length r = ncols X) (rows E).
Proof.
  intros Hinit Hn Hrect Hbc Hbt Hfit Hrange Hratio Hq _ Hs w1.
  apply fst_snd_eq in Hinit. fold w1 in Hinit.
  apply Scrublet_init_attrs in Hinit
    as (_ & HE & Ht & Hr & _ & _ & Hseed & _).
  assert (Hsq : squeeze (row_sums X) = VInts (row_sums X)).
  { unfold squeeze, row_sums, nrows in *.
    destruct (rows X) as [|r1 [|r2 rest]]; try reflexivity. simpl in Hn. lia. }
  rewrite Hsq in Ht.
  assert (Hin : sim_inputs w1 arg X (row_sums X) seed (Fin q)).
  { split; try assumption.
    - unfold row_sums. apply length_map.
    - destruct arg; [assumption|]. now rewrite Hr, Hratio. }
  destruct (simulate_doublets_runs randint_ok w1 arg X (row_sums X) seed q s Hin)
    as (E1 & E2 & t1 & t2 & HF1 & HF2 & HG1 & HG2 & Hrun); [lia|assumption|].
  cbv zeta in Hrun. rewrite Hs in Hrun. cbn [fst snd] in Hrun.
  set (pair_ix := fst (draw_pairs _ _ _ _)) in *.
  assert (HE12 : zip_with (zip_with (fun x y => wrap counts_dtype (x + y))) E1 E2
                 = zip_with (zip_with Z.add) E1 E2
                 /\ zip_with (fun x y => wrap totals_dtype (x + y)) t1 t2
                    = zip_with Z.add t1 t2).
  { clear Hrun. revert E2 t1 t2 HF2 HG1 HG2.
    induction HF1 as [|p ra ps E1 Hra _ IH]; intros E2 t1 t2 HF2 HG1 HG2.
    - inversion HF2; inversion HG1; inversion HG2; subst. split; reflexivity.
    - inversion HF2 as [|? rb ? E2' Hrb HF2']; subst.
      inversion HG1 as [|? ta ? t1' Hta HG1']; subst.
      inversion HG2 as [|? tb ? t2' Htb HG2']; subst.
      destruct (IH E2' t1' t2' HF2' HG1' HG2') as [IH1 IH2].
      assert (Hra' : ra ∈ rows X) by (eapply list_elem_of_lookup_2; eassumption).
      assert (Hrb' : rb ∈ rows X) by (eapply list_elem_of_lookup_2; eassumption).
      destruct (Hfit ra rb Hra' Hrb') as [Hc Htot].
      unfold row_sums in Hta, Htb. rewrite list_lookup_fmap in Hta, Htb.
      rewrite Hra in Hta. rewrite Hrb in Htb. cbn in Hta, Htb.
      injection Hta as <-. injection Htb as <-.
      cbn [zip_with]. rewrite IH1, IH2.
      rewrite (zip_with_wrap_fits _ _ _ Hbc Hc).
      now rewrite (wrap_in_dtype _ _ Hbt Htot). }
  destruct HE12 as [HE12 Ht12]. rewrite HE12, Ht12 in Hrun.
  eexists _, _. split; [exact Hrun|]. cbn [self].
  split; [attr_lookup; reflexivity|].
  split; [|split; [reflexivity|]].
  - attr_lookup. do 2 f_equal. unfold row_sums at 1. cbn [rows]. symmetry.
    eapply row_sums_of_pairs; eassumption.
  - cbn [rows]. apply Forall_forall. intros r Hr'.
    apply list_elem_of_lookup in Hr' as [i Hi].
    apply lookup_zip_with_Some in Hi as (ra & rb & -> & Ha & Hb).
    destruct (Forall2_lookup_r _ _ _ _ _ HF1 Ha) as (p & _ & Hpa).
    destruct (Forall2_lookup_r _ _ _ _ _ HF2 Hb) as (p' & _ & Hpb).
    rewrite Forall_forall in Hrect. rewrite length_zip_with.
    rewrite (Hrect ra), (Hrect rb); [lia| |];
      eapply list_elem_of_lookup_2; eassumption.
Qed.

End WithGenerator.
End MoreSimulation.

(** ** More on the classifier *)

(** X11. When the number of simulated points is a whole multiple [m]
    of the number of observed ones, as it is for the default ratio 2,
    line 463 asks for exactly [k * (1 + m)] neighbors: the quotient, the
    sum and the product are whole numbers below [2 ^ 53], and nothing is
    rounded. *)
Theorem adjusted_k_whole_ratio (k n_obs m : Z) :
  0 < n_obs ->
  Z.abs m < 2 ^ 53 -> Z.abs (k * (1 + m)) <= 2 ^ 53 ->
  adjusted_k k n_obs (m * n_obs) = Ok (k * (1 + m)).
Proof.
  intros Hn Hm Hkm. rewrite adjusted_k_value by assumption. f_equal.
  apply round_half_even_integer. unfold adjusted_k_float.
  assert (Hq : ~ (inject_Z n_obs == 0)%Q).
  { change 0%Q with (inject_Z 0). rewrite inject_Z_injective. lia. }
  assert (E1 : (inject_Z (m * n_obs) / inject_Z n_obs == inject_Z m)%Q).
  { rewrite inject_Z_mult. field. exact Hq. }
  rewrite E1, binary64_int by lia.
  assert (E2 : (1 + inject_Z m == inject_Z (1 + m))%Q).
  { rewrite inject_Z_plus. reflexivity. }
  rewrite E2, binary64_int by lia.
  rewrite <- inject_Z_mult. apply binary64_int. exact Hkm.
Qed.

Lemma count_true_nonneg (mask : list bool) : 0 <= count_true mask.
Proof. induction mask as [|[] mask IH]; cbn [count_true]; lia. Qed.

Lemma count_true_le_length (mask : list bool) :
  count_true mask <= Z.of_nat (length mask).
Proof. induction mask as [|[] mask IH]; cbn [count_true length]; lia. Qed.

Lemma insert_unique_elem (x y : Z) (l : list Z) :
  y ∈ insert_unique x l <-> y = x \/ y ∈ l.
Proof.
  induction l as [|z l IH]; cbn [insert_unique].
  - rewrite list_elem_of_singleton. rewrite elem_of_nil. tauto.
  - destruct (Z.ltb_spec x z).
    + now rewrite elem_of_cons.
    + destruct (Z.eqb_spec x z) as [->|Hne].
      * rewrite elem_of_cons. tauto.
      * rewrite !elem_of_cons, IH. tauto.
Qed.

Lemma insert_unique_sorted (x : Z) (l : list Z) :
  StronglySorted Z.lt l -> StronglySorted Z.lt (insert_unique x l).
Proof.
  induction 1 as [|z l Hs IH Hz]; cbn [insert_unique].
  - repeat constructor.
  - destruct (Z.ltb_spec x z).
    + constructor; [now constructor|].
      constructor; [assumption|].
      eapply Forall_impl; [exact Hz|]. intros; cbn in *; lia.
    + destruct (Z.eqb_spec x z) as [->|Hne]; [now constructor|].
      constructor; [assumption|].
      apply Forall_forall. intros y Hy. apply insert_unique_elem in Hy as [->|Hy].
      * lia.
      * rewrite Forall_forall in Hz. now apply Hz.
Qed.

Lemma np_unique_elem (y : Z) (l : list Z) : y ∈ np_unique l <-> y ∈ l.
Proof.
  unfold np_unique. induction l as [|x l IH]; cbn [foldr]; [reflexivity|].
  rewrite insert_unique_elem, IH, elem_of_cons. reflexivity.
Qed.

Lemma np_unique_sorted (l : list Z) : StronglySorted Z.lt (np_unique l).
Proof.
  unfold np_unique. induction l as [|x l IH]; cbn [foldr]; [constructor|].
  now apply insert_unique_sorted.
Qed.

Lemma select_elem {A} (p : A -> bool) (l : list A) (x : A) :
  x ∈ select l (map p l) <-> x ∈ l /\ p x = true.
Proof.
  induction l as [|a l IH]; cbn [map select].
  - rewrite elem_of_nil. tauto.
  - destruct (p a) eqn:Ha.
    + rewrite !elem_of_cons, IH. split; [intros [->|[? ?]]; auto|tauto].
    + rewrite elem_of_cons, IH. split; [tauto|].
      intros [[->|?] Hp]; [congruence|auto].
Qed.

Lemma omap_Forall2 {A B} (f : A -> outcome B) (P : A -> B -> Prop) (l : list A) :
  Forall (fun a => exists b, f a = Ok b /\ P a b) l ->
  exists r, omap f l = Ok r /\ Forall2 P l r.
Proof.
  induction 1 as [|a l (b & Hb & HP) _ (r & Hr & HF)]; cbn [omap].
  - exists []. split; [reflexivity|constructor].
  - exists (b :: r). rewrite Hb, Hr. split; [reflexivity|now constructor].
Qed.

Lemma neighbor_parents_of_spec (n_obs : Z) (parents : list (Z * Z))
    (neighbors : list (list Z)) (i : nat) (row : list Z) :
  neighbors !! i = Some row ->
  Forall (fun j => j < n_obs + Z.of_nat (length parents)) row ->
  exists ps,
    neighbor_parents_of parents (map (map (fun j => j - n_obs)) neighbors)
      (Z.of_nat i) = Ok ps
    /\ StronglySorted Z.lt ps
    /\ forall x, x ∈ ps <-> parent_of_neighbor n_obs parents row x.
Proof.
  intros Hi Hrow. unfold neighbor_parents_of.
  set (shifted := map (map (fun j => j - n_obs)) neighbors).
  destruct (np_index_in_range shifted (Z.of_nat i)) as (row' & -> & Hrow').
  { unfold shifted. rewrite length_map. apply lookup_lt_Some in Hi. lia. }
  rewrite Nat2Z.id in Hrow'. unfold shifted in Hrow'.
  rewrite list_lookup_fmap, Hi in Hrow'. injection Hrow' as <-.
  cbn [obind].
  set (this := select _ _).
  assert (Hthis : forall j',
            j' ∈ this <-> exists j, j ∈ row /\ n_obs <= j /\ j' = j - n_obs).
  { intros j'. unfold this. rewrite select_elem, list_elem_of_fmap.
    split.
    - intros [(j & -> & Hj) Hpos]. apply Z.ltb_lt in Hpos. exists j.
      repeat split; [assumption|lia].
    - intros (j & Hj & Hge & ->). split; [eauto|]. apply Z.ltb_lt. lia. }
  destruct (np_take_in_range parents this) as (pairs & Hpairs & HF).
  { apply Forall_forall. intros j' Hj'. apply Hthis in Hj' as (j & Hj & Hge & ->).
    rewrite Forall_forall in Hrow. specialize (Hrow j Hj). lia. }
  assert (Hchar : forall x,
            x ∈ flat_map (fun p : Z * Z => [fst p; snd p]) pairs
            <-> parent_of_neighbor n_obs parents row x).
  { intros x. rewrite list_elem_of_In, in_flat_map. split.
    - intros ([a b] & Hp & Hx). apply list_elem_of_In in Hp.
      apply list_elem_of_lookup in Hp as [n Hn].
      destruct (Forall2_lookup_r _ _ _ _ _ HF Hn) as (j' & Hj' & Hlook).
      apply list_elem_of_lookup_2 in Hj'.
      apply Hthis in Hj' as (j & Hj & Hge & ->).
      exists j, a, b. repeat split; try assumption.
      cbn in Hx. destruct Hx as [<-|[<-|[]]]; auto.
    - intros (j & a & b & Hj & Hge & Hlook & Hx).
      assert (Hj' : j - n_obs ∈ this) by (apply Hthis; eauto).
      apply list_elem_of_lookup in Hj' as [n Hn].
      destruct (Forall2_lookup_l _ _ _ _ _ HF Hn) as (p & Hp & Hlook').
      rewrite Hlook in Hlook'. injection Hlook' as <-.
      exists (a, b). split.
      + apply list_elem_of_In. eapply list_elem_of_lookup_2; eassumption.
      + cbn. destruct Hx as [->| ->]; auto. }
  destruct (Z.ltb_spec 0 (Z.of_nat (length this))) as [Hlen|Hlen].
  - rewrite Hpairs. cbn [obind]. eexists. split; [reflexivity|].
    split; [apply np_unique_sorted|].
    intros x. rewrite np_unique_elem. apply Hchar.
  - exists []. split; [reflexivity|]. split; [constructor|].
    intros x. rewrite <- Hchar.
    destruct this; [|simpl in Hlen; lia].
    simpl in Hpairs. injection Hpairs as <-. reflexivity.
Qed.

(** X13. The loop of lines 510 to 518 collects, for each observed cell
    [i], the parents of its simulated neighbors: when every index of
    the graph is below [n_obs + n_sim], the loop raises nothing and
    builds one entry per observed cell, and entry [i] lists, in
    increasing order and without repetition, exactly the observed cells
    that are a parent of some simulated neighbor of [i]; it is empty
    when [i] has no simulated neighbor. *)
Theorem neighbor_parents_collected (n_obs : Z) (parents : list (Z * Z))
    (neighbors : list (list Z)) :
  0 <= n_obs <= Z.of_nat (length neighbors) ->
  Forall (Forall (fun j => j < n_obs + Z.of_nat (length parents))) neighbors ->
  exists neighbor_parents,
    omap (neighbor_parents_of parents
            (map (map (fun j => j - n_obs)) neighbors))
      (map Z.of_nat (seq 0 (Z.to_nat n_obs)))
    = Ok neighbor_parents
    /\ Z.of_nat (length neighbor_parents) = n_obs
    /\ forall (i : nat) row, Z.of_nat i < n_obs -> neighbors !! i = Some row ->
         exists ps,
           neighbor_parents !! i = Some ps
           /\ StronglySorted Z.lt ps
           /\ (forall x, x ∈ ps <-> parent_of_neighbor n_obs parents row x)
           /\ (Forall (fun j => j < n_obs) row -> ps = []).
Proof.
  intros Hn Hvalid.
  destruct (omap_Forall2
              (neighbor_parents_of parents
                 (map (map (fun j => j - n_obs)) neighbors))
              (fun i ps =>
                 forall row, neighbors !! Z.to_nat i = Some row ->
                   StronglySorted Z.lt ps
                   /\ forall x, x ∈ ps <-> parent_of_neighbor n_obs parents row x)
              (map Z.of_nat (seq 0 (Z.to_nat n_obs))))
    as (np & Hnp & HF).
  { apply Forall_forall. intros iz Hiz.
    apply list_elem_of_fmap in Hiz as (i & -> & Hi).
    apply elem_of_seq in Hi.
    destruct (neighbors !! i) as [row|] eqn:Hrow.
    2:{ apply lookup_ge_None in Hrow. lia. }
    destruct (neighbor_parents_of_spec n_obs parents neighbors i row Hrow)
      as (ps & Hps & Hsorted & Hchar).
    { rewrite Forall_forall in Hvalid.
      exact (Hvalid row (list_elem_of_lookup_2 _ _ _ Hrow)). }
    exists ps. split; [exact Hps|]. intros row'. rewrite Nat2Z.id, Hrow.
    intros [= <-]. split; assumption. }
  exists np. split; [exact Hnp|].
  apply Forall2_length in HF as Hl. rewrite length_map, length_seq in Hl.
  split; [lia|].
  intros i row Hi Hrow.
  destruct (Forall2_lookup_l _ _ _ i (Z.of_nat i) HF) as (ps & Hps & HP).
  { rewrite list_lookup_fmap, lookup_seq_lt by lia. reflexivity. }
  destruct (HP row) as [Hsorted Hchar]; [now rewrite Nat2Z.id|].
  exists ps. repeat (split; [assumption|]).
  intros Hobs. destruct ps as [|x ps]; [reflexivity|]. exfalso.
  destruct (proj1 (Hchar x)) as (j & a & b & Hj & Hge & _); [apply elem_of_cons; now left|].
  rewrite Forall_forall in Hobs. specialize (Hobs j Hj). lia.
Qed.

Section MoreClassifier.
Context {L : Library}.

Lemma classifier_with_graph_scores w (a b : nat) k_adj rho sigma_rho gp neighbors :
  length neighbors = (a + b)%nat ->
  Forall (Forall (fun j => 0 <= j < Z.of_nat a + Z.of_nat b)) neighbors ->
  nonzero rho ->
  let Ld := map (fun row => fst (spec_score (Z.of_nat a) (Z.of_nat b) k_adj
                                   rho sigma_rho row)) neighbors in
  let se := map (fun row => snd (spec_score (Z.of_nat a) (Z.of_nat b) k_adj
                                   rho sigma_rho row)) neighbors in
  classifier_with_graph (doublet_labels a b) (Z.of_nat a) (Z.of_nat b) k_adj
    rho sigma_rho gp neighbors w
  = (if gp
     then
       v <- getattr "doublet_parents_" ;;
       parent_cells <- lift (as_pairs v) ;;
       neighbor_parents <-
         lift (omap (neighbor_parents_of parent_cells
                       (map (map (fun j => j - Z.of_nat a)) neighbors))
                 (map Z.of_nat (seq 0 (Z.to_nat (Z.of_nat a))))) ;;
       v <- lift (np_array neighbor_parents) ;;
       setattr "doublet_neighbor_parents_" v
     else ret tt)
      (World L (np_random w) (scores_stored (self w) a Ld se)).
Proof.
  intros Hlen Hvalid Hrho Ld se.
  assert (HLd : length Ld = (a + b)%nat) by (unfold Ld; now rewrite length_map).
  assert (Hse : length se = (a + b)%nat) by (unfold se; now rewrite length_map).
  destruct (np_mask_labels a b Ld HLd) as [HLd0 HLd1].
  destruct (np_mask_labels a b se Hse) as [Hse0 Hse1].
  unfold classifier_with_graph.
  erewrite bind_ok
    by (unfold lift; rewrite classifier_scores_spec by assumption; reflexivity).
  cbn [fst snd]. fold Ld se.
  erewrite bind_ok by (unfold lift; rewrite HLd0; reflexivity).
  erewrite bind_ok by reflexivity.
  erewrite bind_ok by (unfold lift; rewrite HLd1; reflexivity).
  erewrite bind_ok by reflexivity.
  erewrite bind_ok by (unfold lift; rewrite Hse0; reflexivity).
  erewrite bind_ok by reflexivity.
  erewrite bind_ok by (unfold lift; rewrite Hse1; reflexivity).
  erewrite bind_ok by reflexivity.
  reflexivity.
Qed.

(** X14. With an expected doublet rate of zero the classifier raises
    [ZeroDivisionError]: line 496 divides [se_rho] by [rho], two Python
    floats. The graph has been computed by then, but no score is
    stored: the object and the generator are as they were. *)
Theorem nearest_neighbor_classifier_zero_rate w k approx metric z sigma_rho gp
    manifold_obs manifold_sim seed neighbors :
  classifier_inputs w manifold_obs manifold_sim seed ->
  0 < nrows manifold_obs ->
  (z == 0)%Q ->
  let n_obs := nrows manifold_obs in
  let n_sim := nrows manifold_sim in
  let k_adj := round_half_even (adjusted_k_float k n_obs n_sim) in
  get_knn_graph (pooled manifold_obs manifold_sim) k_adj metric approx seed
  = Ok neighbors ->
  Forall (Forall (fun j => 0 <= j < n_obs + n_sim)) neighbors ->
  nearest_neighbor_classifier k approx metric (Fin z) sigma_rho gp w
  = (Raise ZeroDivisionError, w).
Proof.
  intros Hin Hn Hz n_obs n_sim k_adj Hknn Hvalid.
  rewrite (classifier_unfold w k approx metric (Fin z) sigma_rho gp
             manifold_obs manifold_sim seed Hin Hn).
  fold n_obs n_sim k_adj.
  erewrite bind_ok by (unfold lift; rewrite Hknn; reflexivity).
  unfold classifier_with_graph. apply bind_raise.
  unfold lift, classifier_scores. f_equal.
  rewrite (omap_ext_ok _ (spec_nd n_obs n_sim)).
  2:{ eapply Forall_impl; [exact Hvalid|]. intros row Hrow.
      now apply n_sim_neigh_row_spec. }
  cbn [obind]. unfold py_truediv. now rewrite Qzero_b_true.
Qed.

Lemma spec_score_no_doublets (n_obs k : Z) (p : Q) (sigma_rho : float64)
    (row : list Z) :
  0 < n_obs -> 0 <= k -> (0 < p)%Q ->
  fst (spec_score n_obs 0 k (Fin p) sigma_rho row) = NaN.
Proof.
  intros Hn Hk Hp. unfold spec_score. cbn [fst].
  pose proof (count_true_nonneg
                (map (fun j => (n_obs <=? j) && (j <? n_obs + 0)) row)) as Hnd.
  fold (spec_nd n_obs 0 row) in Hnd.
  assert (Hq : exists q, spec_q (of_int (spec_nd n_obs 0 row)) (of_int k) = Fin q
                         /\ (0 < q)%Q).
  { unfold spec_q, of_int, fadd, fdiv.
    assert (Hk' : (0 <= inject_Z k)%Q)
      by (change 0%Q with (inject_Z 0); rewrite <- Zle_Qle; lia).
    assert (Hnd' : (0 <= inject_Z (spec_nd n_obs 0 row))%Q)
      by (change 0%Q with (inject_Z 0); rewrite <- Zle_Qle; lia).
    change (inject_Z 1) with 1%Q. change (inject_Z 2) with 2%Q.
    pose proof (binary64_pos (inject_Z (spec_nd n_obs 0 row) + 1) ltac:(lra)) as Ha.
    pose proof (binary64_pos (inject_Z k + 2) ltac:(lra)) as Hb.
    rewrite Qzero_b_false by lra.
    eexists. split; [reflexivity|]. apply binary64_pos.
    apply Qlt_shift_div_l; lra. }
  destruct Hq as (q & -> & Hq).
  assert (Hn' : (0 < inject_Z n_obs)%Q)
    by (change 0%Q with (inject_Z 0); rewrite <- Zlt_Qlt; lia).
  assert (Hr : exists r, fdiv (of_int 0) (of_int n_obs) = Fin r /\ (r == 0)%Q).
  { unfold fdiv, of_int. rewrite Qzero_b_false by lra.
    eexists. split; [reflexivity|]. apply binary64_zero.
    change (inject_Z 0) with 0%Q. unfold Qdiv. ring. }
  destruct Hr as (r & -> & Hr).
  assert (Hqp : (0 < q * p)%Q) by now apply Qmult_lt_0_compat.
  pose proof (binary64_pos _ Hqp) as Hqp'.
  unfold spec_Ld, of_int, fmul, fdiv, fsub, fneg, fadd.
  rewrite (Qzero_b_true r Hr), (Qzero_b_false (binary64 (q * p))),
    (Qzero_b_false p) by lra.
  rewrite (Qneg_b_false (binary64 (q * p))), (Qneg_b_false p) by lra. cbn.
  destruct (Qzero_b q); [reflexivity|]. destruct (Qneg_b q); reflexivity.
Qed.

(** X15. Without any simulated doublet the scores carry no
    information: when [manifold_sim_] has no row, [r = n_sim / n_obs] is
    zero, the divisions by it give infinities, and for a prior
    [rho > 0] and [0 <= k <= 2 ^ 53] the classifier asks for [k]
    neighbors, returns normally and stores not-a-number as the score of
    every observed cell, and an empty array of simulated scores. *)
Theorem nearest_neighbor_classifier_no_doublets w k approx metric p sigma_rho
    manifold_obs manifold_sim seed neighbors :
  classifier_inputs w manifold_obs manifold_sim seed ->
  0 < nrows manifold_obs ->
  rows manifold_sim = [] ->
  0 <= k <= 2 ^ 53 -> (0 < p)%Q ->
  get_knn_graph (pooled manifold_obs manifold_sim) k metric approx seed
  = Ok neighbors ->
  Z.of_nat (length neighbors) = nrows manifold_obs ->
  Forall (Forall (fun j => 0 <= j < nrows manifold_obs)) neighbors ->
  let result :=
    nearest_neighbor_classifier k approx metric (Fin p) sigma_rho false w in
  fst result = Ok tt
  /\ self (snd result) !! "doublet_scores_obs_"
     = Some (VFloats (replicate (length neighbors) NaN))
  /\ self (snd result) !! "doublet_scores_sim_" = Some (VFloats []).
Proof.
  intros Hin Hn Hsim Hk Hp Hknn Hlen Hvalid result.
  set (a := length (rows manifold_obs)) in *.
  assert (Hb : nrows manifold_sim = Z.of_nat 0)
    by (unfold nrows; now rewrite Hsim).
  assert (Hkadj : round_half_even
                    (adjusted_k_float k (nrows manifold_obs) (nrows manifold_sim))
                  = k).
  { apply round_half_even_integer. rewrite Hb. unfold adjusted_k_float.
    assert (E0 : (inject_Z (Z.of_nat 0) / inject_Z (nrows manifold_obs) == 0)%Q).
    { change (inject_Z (Z.of_nat 0)) with 0%Q. unfold Qdiv. ring. }
    rewrite E0, (binary64_zero 0) by reflexivity.
    assert (E1 : (1 + 0 == inject_Z 1)%Q) by reflexivity.
    rewrite E1, (binary64_int 1) by (cbn; lia).
    assert (E2 : (inject_Z k * inject_Z 1 == inject_Z k)%Q) by (cbn; ring).
    rewrite E2. apply binary64_int. lia. }
  unfold result.
  rewrite (classifier_unfold w k approx metric (Fin p) sigma_rho false
             manifold_obs manifold_sim seed Hin Hn).
  rewrite Hkadj.
  erewrite bind_ok by (unfold lift; rewrite Hknn; reflexivity).
  rewrite Hsim, Hb. cbn [length]. fold a.
  change (nrows manifold_obs) with (Z.of_nat a).
  rewrite classifier_with_graph_scores.
  2:{ unfold nrows in Hlen. fold a in Hlen. lia. }
  2:{ eapply Forall_impl; [exact Hvalid|]. intros row Hrow.
      eapply Forall_impl; [exact Hrow|]. cbn beta. unfold nrows. fold a. lia. }
  2:{ cbn. lra. }
  cbv zeta. cbn [fst snd ret self]. unfold scores_stored.
  split; [reflexivity|].
  assert (HLd : map (fun row => fst (spec_score (Z.of_nat a) (Z.of_nat 0) k
                                       (Fin p) sigma_rho row)) neighbors
                = replicate (length neighbors) NaN).
  { clear -Hn Hk Hp. induction neighbors as [|row l IH]; [reflexivity|].
    cbn [map length replicate]. f_equal; [|exact IH].
    apply spec_score_no_doublets; [assumption|lia|assumption]. }
  rewrite HLd.
  assert (Ha : length neighbors = a) by (unfold nrows in Hlen; fold a in Hlen; lia).
  split.
  - attr_lookup. rewrite take_replicate, Ha, Nat.min_id. reflexivity.
  - attr_lookup. rewrite drop_replicate, Ha, Nat.sub_diag. reflexivity.
Qed.

(** X16. [calculate_doublet_scores] needs [set_manifold] first: on an
    object as the constructor leaves it, and still after
    [simulate_doublets] has run on it, whatever that call did, the call
    raises [AttributeError] for [manifold_obs_] and changes nothing. *)
Theorem calculate_doublet_scores_before_set_manifold
    X totals ratio nn rho se seed arg s approx metric gp w0 :
  fst ((new_object ;; Scrublet_init X totals ratio nn rho se seed) w0) = Ok tt ->
  let w1 := snd ((new_object ;; Scrublet_init X totals ratio nn rho se seed) w0) in
  let w2 := snd (simulate_doublets arg s w1) in
  calculate_doublet_scores approx metric gp w1
  = (Raise (AttributeError "manifold_obs_"), w1)
  /\ calculate_doublet_scores approx metric gp w2
     = (Raise (AttributeError "manifold_obs_"), w2).
Proof.
  intros Hinit w1 w2. apply fst_snd_eq in Hinit. fold w1 in Hinit.
  change (Scrublet_init X totals ratio nn rho se seed (World L (np_random w0) ∅)
          = (Ok tt, w1)) in Hinit.
  pose proof (Scrublet_init_keeps X totals ratio nn rho se seed "manifold_obs_"
                ltac:(not_among) (World L (np_random w0) ∅)) as Hnone.
  rewrite Hinit in Hnone. cbn [snd self] in Hnone. rewrite lookup_empty in Hnone.
  apply Scrublet_init_attrs in Hinit
    as (_ & _ & _ & _ & Hrho & Hse & _ & k & Hk & _).
  assert (Hraise : forall w : world,
            self w !! "n_neighbors" = Some (VInt k) ->
            self w !! "expected_doublet_rate" = Some (VFloat rho) ->
            self w !! "stdev_doublet_rate" = Some (VFloat se) ->
            self w !! "manifold_obs_" = None ->
            calculate_doublet_scores approx metric gp w
            = (Raise (AttributeError "manifold_obs_"), w)).
  { intros w H1 H2 H3 H4. unfold calculate_doublet_scores.
    erewrite bind_ok by (apply getattr_ok; eassumption).
    erewrite bind_ok by reflexivity.
    erewrite bind_ok by (apply getattr_ok; eassumption).
    erewrite bind_ok by reflexivity.
    erewrite bind_ok by (apply getattr_ok; eassumption).
    erewrite bind_ok by reflexivity.
    apply bind_raise. unfold nearest_neighbor_classifier.
    apply bind_raise. now apply getattr_missing. }
  split; [now apply Hraise|].
  apply Hraise; unfold w2;
    (rewrite simulate_doublets_keeps by not_among); assumption.
Qed.

(** X17. Embeddings of different widths are refused when they are
    used, not when they are set: [set_manifold] stores them, and
    [calculate_doublet_scores] then raises [ValueError] from
    [np.vstack], before any neighbor is searched and any score
    stored. *)
Theorem calculate_doublet_scores_width_mismatch w k rho se manifold_obs
    manifold_sim approx metric gp :
  self w !! "n_neighbors" = Some (VInt k) ->
  self w !! "expected_doublet_rate" = Some (VFloat rho) ->
  self w !! "stdev_doublet_rate" = Some (VFloat se) ->
  ncols manifold_obs <> ncols manifold_sim ->
  (set_manifold manifold_obs manifold_sim ;;
   calculate_doublet_scores approx metric gp) w
  = (Raise ValueError, snd (set_manifold manifold_obs manifold_sim w)).
Proof.
  intros Hk Hrho Hse Hwidth.
  erewrite bind_ok by reflexivity. cbn [snd self np_random].
  unfold calculate_doublet_scores.
  erewrite bind_ok by (apply getattr_ok; cbn [self]; attr_lookup; eassumption).
  erewrite bind_ok by reflexivity.
  erewrite bind_ok by (apply getattr_ok; cbn [self]; attr_lookup; eassumption).
  erewrite bind_ok by reflexivity.
  erewrite bind_ok by (apply getattr_ok; cbn [self]; attr_lookup; eassumption).
  erewrite bind_ok by reflexivity.
  apply bind_raise. unfold nearest_neighbor_classifier.
  erewrite bind_ok by (apply getattr_ok; cbn [self]; attr_lookup; reflexivity).
  erewrite bind_ok by reflexivity.
  erewrite bind_ok by (apply getattr_ok; cbn [self]; attr_lookup; reflexivity).
  erewrite bind_ok by reflexivity.
  apply bind_raise. unfold lift, vstack.
  destruct (Nat.eqb_spec (ncols manifold_obs) (ncols manifold_sim));
    [contradiction|reflexivity].
Qed.

End MoreClassifier.

(** ** More on call_doublets *)

Lemma fraction_above_bounds (l : list float64) (t : float64) :
  l <> [] ->
  let c := count_true (map (fun y => fgt y t) l) in
  let x := binary64 (inject_Z c / inject_Z (Z.of_nat (length l))) in
  fraction_above l t = Fin x
  /\ (0 <= x)%Q /\ (x <= 1)%Q
  /\ ((x == 0)%Q <-> c = 0)
  /\ (binary64 x == x)%Q.
Proof.
  intros Hl c x. unfold fraction_above, of_int, fdiv. fold c.
  assert (Hc0 : 0 <= c) by apply count_true_nonneg.
  assert (Hc1 : c <= Z.of_nat (length l)).
  { unfold c. etransitivity; [apply count_true_le_length|].
    now rewrite length_map. }
  assert (Hn : 0 < Z.of_nat (length l)) by (destruct l; [congruence|simpl; lia]).
  assert (Hn' : (0 < inject_Z (Z.of_nat (length l)))%Q)
    by (change 0%Q with (inject_Z 0); rewrite <- Zlt_Qlt; lia).
  assert (Hc0' : (0 <= inject_Z c)%Q)
    by (change 0%Q with (inject_Z 0); rewrite <- Zle_Qle; lia).
  assert (Hc1' : (inject_Z c <= inject_Z (Z.of_nat (length l)))%Q)
    by (rewrite <- Zle_Qle; lia).
  assert (Hq0 : (0 <= inject_Z c / inject_Z (Z.of_nat (length l)))%Q)
    by (apply Qle_shift_div_l; lra).
  assert (Hq1 : (inject_Z c / inject_Z (Z.of_nat (length l)) <= 1)%Q)
    by (apply Qle_shift_div_r; lra).
  rewrite Qzero_b_false by lra. fold x.
  split; [reflexivity|]. split; [now apply binary64_nonneg|]. split; [|split].
  - unfold x. rewrite <- (binary64_int 1) by (cbn; lia).
    now apply binary64_mono.
  - split.
    + intros Hx. destruct (Z.eq_dec c 0) as [|Hne]; [assumption|]. exfalso.
      assert (Hpos : (0 < inject_Z c / inject_Z (Z.of_nat (length l)))%Q).
      { apply Qlt_shift_div_l; [assumption|]. rewrite Qmult_0_l.
        change 0%Q with (inject_Z 0). rewrite <- Zlt_Qlt. lia. }
      apply binary64_pos in Hpos. fold x in Hpos. lra.
    + intros Hc. unfold x. apply binary64_zero. rewrite Hc.
      change (inject_Z 0) with 0%Q. unfold Qdiv. ring.
  - apply binary64_idem.
Qed.

Lemma fgt_threshold_mono (x : float64) (t1 t2 : Q) :
  (t1 <= t2)%Q -> fgt x (Fin t2) = true -> fgt x (Fin t1) = true.
Proof.
  intros Hle. destruct x as [a|s|]; cbn; try tauto.
  destruct (Qle_bool a t2) eqn:E2; [discriminate|]. intros _.
  destruct (Qle_bool a t1) eqn:E1; [|reflexivity].
  apply Qle_bool_iff in E1.
  assert (H : (a <= t2)%Q) by lra. apply Qle_bool_iff in H. congruence.
Qed.

Lemma count_above_mono (l : list float64) (t1 t2 : Q) :
  (t1 <= t2)%Q ->
  count_true (map (fun x => fgt x (Fin t2)) l)
  <= count_true (map (fun x => fgt x (Fin t1)) l).
Proof.
  intros Hle. induction l as [|x l IH]; cbn [map count_true]; [lia|].
  pose proof (fgt_threshold_mono x t1 t2 Hle) as Hx.
  destruct (fgt x (Fin t2)); [rewrite Hx by reflexivity; lia|].
  destruct (fgt x (Fin t1)); lia.
Qed.

Section MoreCalling.
Context {L : Library}.

Lemma called_scored attrs Ld_obs Ld_sim se_obs t st :
  scored (World L st attrs) Ld_obs Ld_sim se_obs ->
  scored (World L st (called attrs Ld_obs Ld_sim se_obs t)) Ld_obs Ld_sim se_obs.
Proof.
  intros [Hobs Hsim Herr Hlen Hrate]. cbn [self] in *.
  split; cbn [self]; unfold called; attr_lookup; assumption.
Qed.

Lemma called_called attrs Ld_obs Ld_sim se_obs t1 t2 :
  called (called attrs Ld_obs Ld_sim se_obs t1) Ld_obs Ld_sim se_obs t2
  = called attrs Ld_obs Ld_sim se_obs t2.
Proof.
  apply map_eq. intros name. unfold called.
  destruct (decide (name = "overall_doublet_rate_")) as [->|H1];
    [now attr_lookup|].
  destruct (decide (name = "detectable_doublet_fraction_")) as [->|H2];
    [now attr_lookup|].
  destruct (decide (name = "detected_doublet_rate_")) as [->|H3];
    [now attr_lookup|].
  destruct (decide (name = "threshold_")) as [->|H4]; [now attr_lookup|].
  destruct (decide (name = "z_scores_")) as [->|H5]; [now attr_lookup|].
  destruct (decide (name = "predicted_doublets_")) as [->|H6];
    [now attr_lookup|].
  now rewrite !lookup_insert_ne by done.
Qed.

(** X18. On an object without scores the two ways of calling differ:
    with a threshold, [call_doublets] raises [AttributeError] for
    [doublet_scores_obs_] and changes nothing; without one, the missing
    [doublet_scores_sim_] is caught as a failed search, and the call
    returns [None] after assigning [None] to [predicted_doublets_]. *)
Theorem call_doublets_without_scores (w : world) (t : float64) (verbose : bool) :
  self w !! "doublet_scores_obs_" = None ->
  self w !! "doublet_scores_sim_" = None ->
  call_doublets (Some t) verbose w
  = (Raise (AttributeError "doublet_scores_obs_"), w)
  /\ call_doublets None verbose w
     = (Ok VNone,
        World L (np_random w) (<["predicted_doublets_" := VNone]> (self w))).
Proof.
  intros Hobs Hsim. split.
  - unfold call_doublets, call_doublets_at. apply bind_raise.
    now apply getattr_missing.
  - apply call_doublets_failure_runs. unfold search_fails. now rewrite Hsim.
Qed.

(** X19. A later successful call of [call_doublets] supersedes an
    earlier one entirely: calling with one threshold, supplied or
    found, and then with another leaves the object exactly as the second
    call alone would, and returns the same predictions; calling twice
    with the same threshold is calling once. *)
Theorem call_doublets_supersedes w Ld_obs Ld_sim se_obs
    threshold1 t1 verbose1 threshold2 t2 verbose2 :
  scored w Ld_obs Ld_sim se_obs ->
  calibrated threshold1 Ld_sim t1 ->
  calibrated threshold2 Ld_sim t2 ->
  (call_doublets threshold1 verbose1 ;; call_doublets threshold2 verbose2) w
  = call_doublets threshold2 verbose2 w.
Proof.
  intros Hsc Hcal1 Hcal2.
  erewrite bind_ok by (eapply call_doublets_runs; eassumption).
  destruct w as [st attrs]. cbn [self np_random].
  rewrite (call_doublets_runs _ Ld_obs Ld_sim se_obs threshold2 t2 verbose2)
    by (try apply called_scored; assumption).
  rewrite (call_doublets_runs _ Ld_obs Ld_sim se_obs threshold2 t2 verbose2)
    by assumption.
  cbn [self np_random]. now rewrite called_called.
Qed.

(** X20. When calibration succeeds on non-empty score arrays,
    [detected_doublet_rate_] and [detectable_doublet_fraction_] are
    finite numbers between 0 and 1, [predicted_doublets_] has one entry
    per observed cell, and the detected rate is the double precision
    number nearest to the number of cells predicted to be doublets
    divided by the number of observed cells: it is zero exactly when no
    cell is predicted to be a doublet. *)
Theorem call_doublets_rates w Ld_obs Ld_sim se_obs threshold t verbose :
  scored w Ld_obs Ld_sim se_obs ->
  calibrated threshold Ld_sim t ->
  Ld_obs <> [] -> Ld_sim <> [] ->
  let w' := snd (call_doublets threshold verbose w) in
  exists predicted detected detectable,
    self w' !! "predicted_doublets_" = Some (VBools predicted)
    /\ self w' !! "detected_doublet_rate_" = Some (VFloat (Fin detected))
    /\ self w' !! "detectable_doublet_fraction_" = Some (VFloat (Fin detectable))
    /\ length predicted = length Ld_obs
    /\ (0 <= detected)%Q /\ (detected <= 1)%Q
    /\ (0 <= detectable)%Q /\ (detectable <= 1)%Q
    /\ detected
       = binary64 (inject_Z (count_true predicted)
                   / inject_Z (Z.of_nat (length Ld_obs)))
    /\ ((detected == 0)%Q <-> count_true predicted = 0).
Proof.
  intros Hsc Hcal Hobs Hsim w'. unfold w'.
  rewrite (call_doublets_runs w Ld_obs Ld_sim se_obs threshold t verbose Hsc Hcal).
  cbn [snd self]. unfold called.
  destruct (fraction_above_bounds Ld_obs t Hobs) as (Hx & Hx0 & Hx1 & Hxc & _).
  destruct (fraction_above_bounds Ld_sim t Hsim) as (Hy & Hy0 & Hy1 & _).
  eexists (map (fun s => fgt s t) Ld_obs), _, _.
  rewrite Hx, Hy. attr_lookup.
  repeat (split; [first [reflexivity | assumption | apply length_map]|]).
  exact Hxc.
Qed.


(** X22. Raising the threshold can only unmark cells: for two finite
    thresholds [t1 <= t2] supplied to [call_doublets] on the same
    scores, every cell predicted to be a doublet at [t2] is predicted
    at [t1] too, and the detected doublet rate at [t2] is at most the
    rate at [t1]. *)
Theorem call_doublets_threshold_monotone w Ld_obs Ld_sim se_obs t1 t2 verbose :
  scored w Ld_obs Ld_sim se_obs ->
  (t1 <= t2)%Q ->
  Ld_obs <> [] ->
  let w1 := snd (call_doublets (Some (Fin t1)) verbose w) in
  let w2 := snd (call_doublets (Some (Fin t2)) verbose w) in
  exists p1 p2 d1 d2,
    self w1 !! "predicted_doublets_" = Some (VBools p1)
    /\ self w2 !! "predicted_doublets_" = Some (VBools p2)
    /\ self w1 !! "detected_doublet_rate_" = Some (VFloat (Fin d1))
    /\ self w2 !! "detected_doublet_rate_" = Some (VFloat (Fin d2))
    /\ (forall i : nat, p2 !! i = Some true -> p1 !! i = Some true)
    /\ (d2 <= d1)%Q.
Proof.
  intros Hsc Hle Hne w1 w2. unfold w1, w2.
  rewrite !(call_doublets_runs w Ld_obs Ld_sim se_obs (Some (Fin _)) _ verbose Hsc
              (or_introl eq_refl)).
  cbn [snd self]. unfold called.
  assert (Hn : (0 < inject_Z (Z.of_nat (length Ld_obs)))%Q).
  { change 0%Q with (inject_Z 0). rewrite <- Zlt_Qlt.
    destruct Ld_obs; [congruence|simpl; lia]. }
  assert (Hfr : forall t, fraction_above Ld_obs (Fin t)
            = Fin (binary64
                     (inject_Z (count_true (map (fun x => fgt x (Fin t)) Ld_obs))
                      / inject_Z (Z.of_nat (length Ld_obs))))).
  { intros t. unfold fraction_above, of_int, fdiv.
    now rewrite Qzero_b_false by lra. }
  rewrite !Hfr.
  eexists _, _, _, _. attr_lookup.
  split; [reflexivity|]. split; [reflexivity|].
  split; [reflexivity|]. split; [reflexivity|].
  split.
  - intros i. rewrite !list_lookup_fmap.
    destruct (Ld_obs !! i) as [x|]; cbn; [|discriminate].
    intros [= Hx]. f_equal. now apply (fgt_threshold_mono x t1 t2).
  - apply binary64_mono.
    apply Qdiv_le_cross; [assumption|assumption|].
    apply Qmult_le_compat_r; [|lra].
    rewrite <- Zle_Qle. now apply count_above_mono.
Qed.

(** X23. When calibration succeeds and at least one simulated doublet
    scores above the threshold, [overall_doublet_rate_] is a finite
    number and it is never below [detected_doublet_rate_]: the
    detectable fraction it is divided by is at most one. *)
Theorem overall_rate_at_least_detected w Ld_obs Ld_sim se_obs threshold t verbose :
  scored w Ld_obs Ld_sim se_obs ->
  calibrated threshold Ld_sim t ->
  Ld_obs <> [] ->
  0 < count_true (map (fun x => fgt x t) Ld_sim) ->
  let w' := snd (call_doublets threshold verbose w) in
  exists detected overall,
    self w' !! "detected_doublet_rate_" = Some (VFloat (Fin detected))
    /\ self w' !! "overall_doublet_rate_" = Some (VFloat (Fin overall))
    /\ (detected <= overall)%Q.
Proof.
  intros Hsc Hcal Hne Hpos w'. unfold w'.
  rewrite (call_doublets_runs w Ld_obs Ld_sim se_obs threshold t verbose Hsc Hcal).
  cbn [snd self]. unfold called.
  assert (Hsim : Ld_sim <> []) by (intros ->; cbn in Hpos; lia).
  destruct (fraction_above_bounds Ld_obs t Hne) as (Hx & Hx0 & Hx1 & _ & Hxi).
  destruct (fraction_above_bounds Ld_sim t Hsim) as (Hy & Hy0 & Hy1 & Hyc & _).
  set (x := binary64 _) in Hx, Hx0, Hx1, Hxi.
  set (y := binary64 _) in Hy, Hy0, Hy1, Hyc.
  assert (Hy' : (0 < y)%Q).
  { destruct (Qlt_le_dec 0 y) as [|Hy']; [assumption|].
    assert (Hz : (y == 0)%Q) by lra. apply Hyc in Hz. lia. }
  rewrite Hx, Hy. attr_lookup.
  exists x, (binary64 (x / y)).
  split; [reflexivity|].
  split; [unfold fdiv; now rewrite Qzero_b_false by lra|].
  rewrite <- Hxi at 1. apply binary64_mono.
  apply Qle_shift_div_l; [assumption|].
  assert (H : (0 <= x * (1 - y))%Q) by (apply Qmult_le_0_compat; lra).
  lra.
Qed.

Lemma scrublet_call_doublets_results_tail W n parents ratio n_neighbors rho gp
    seed Ld_obs Ld_sim v :
  self W !! "doublet_scores_obs_" = Some (VFloats Ld_obs) ->
  self W !! "doublet_scores_sim_" = Some (VFloats Ld_sim) ->
  length Ld_obs = n ->
  self W !! "predicted_doublets_" = Some v ->
  (v = VNone \/ exists l, v = VBools l /\ length l = n) ->
  (gp = true -> is_Some (self W !! "doublet_neighbor_parents_")) ->
  exists res,
    (v <- getattr "doublet_scores_obs_" ;;
     doublet_score <- lift (obs_assign n v) ;;
     scores_sim <- getattr "doublet_scores_sim_" ;;
     has_threshold <- hasattr "threshold_" ;;
     res <- (if has_threshold : bool
             then
               t <- getattr "threshold_" ;;
               v <- getattr "predicted_doublets_" ;;
               predicted <- lift (obs_assign n v) ;;
               ret (predicted, Some t)
             else
               predicted <- lift (obs_assign n (VBool false)) ;;
               ret (predicted, None)) ;;
     neighbor_parents <-
       (if gp
        then v <- getattr "doublet_neighbor_parents_" ;; ret (Some v)
        else ret None) ;;
     ret (AdataScrublet doublet_score (fst res) scores_sim parents
            (rho, ratio, n_neighbors, seed) (snd res) neighbor_parents)) W
    = (Ok res, W)
    /\ obs_doublet_score res = map VFloat Ld_obs
    /\ uns_doublet_scores_sim res = VFloats Ld_sim
    /\ uns_doublet_parents res = parents
    /\ uns_parameters res = (rho, ratio, n_neighbors, seed)
    /\ length (obs_predicted_doublet res) = n
    /\ uns_threshold res = self W !! "threshold_".
Proof.
  intros Hobs Hsim Hn Hpred Hv Hgp.
  assert (Hassign : obs_assign n (VFloats Ld_obs) = Ok (map VFloat Ld_obs)).
  { unfold obs_assign. now rewrite Hn, Nat.eqb_refl. }
  assert (Hcol : exists col, obs_assign n v = Ok col /\ length col = n).
  { destruct Hv as [->|(l & -> & Hl)].
    - eexists. split; [reflexivity|]. apply length_replicate.
    - exists (map VBool l). unfold obs_assign. rewrite Hl, Nat.eqb_refl.
      split; [reflexivity|]. now rewrite length_map. }
  destruct Hcol as (col & Hcol & Hlen).
  erewrite bind_ok by (apply getattr_ok; eassumption).
  erewrite bind_ok by (unfold lift; rewrite Hassign; reflexivity).
  erewrite bind_ok by (apply getattr_ok; eassumption).
  erewrite bind_ok by reflexivity.
  assert (Hnp : exists np,
            (if gp
             then v <- getattr "doublet_neighbor_parents_" ;; ret (Some v)
             else ret None) W = (Ok np, W)).
  { destruct gp; [|eexists; reflexivity].
    destruct (Hgp eq_refl) as [x Hx]. eexists.
    erewrite bind_ok by (apply getattr_ok; eassumption). reflexivity. }
  destruct Hnp as (np & Hnp).
  destruct (self W !! "threshold_") as [t|] eqn:Ht.
  - rewrite bool_decide_true by eauto.
    erewrite bind_ok.
    2:{ erewrite bind_ok by (apply getattr_ok; eassumption).
        erewrite bind_ok by (apply getattr_ok; eassumption).
        erewrite bind_ok by (unfold lift; rewrite Hcol; reflexivity).
        reflexivity. }
    erewrite bind_ok by exact Hnp.
    eexists. split; [reflexivity|]. cbn. repeat split; try reflexivity.
    exact Hlen.
  - rewrite bool_decide_false by (intros [? ?]; discriminate).
    erewrite bind_ok by reflexivity.
    erewrite bind_ok by exact Hnp.
    eexists. split; [reflexivity|]. cbn. repeat split; try reflexivity.
    apply length_replicate.
Qed.

(** X24. Whether or not a threshold is found, the statements of
    [_scrublet_call_doublets] from line 438 on return normally on a
    scored object with as many observed scores as [adata_obs] has rows:
    [.obs["doublet_score"]] holds the observed scores,
    [.uns["scrublet"]] the simulated scores, the parent pairs and the
    four parameters as they were passed, [.obs["predicted_doublet"]]
    has one entry per row, and the threshold recorded under [.uns] is
    the attribute [threshold_] of the object, absent when it has
    none. *)
Theorem scrublet_call_doublets_results_stored w n parents ratio n_neighbors rho
    gp threshold seed verbose Ld_obs Ld_sim se_obs :
  scored w Ld_obs Ld_sim se_obs ->
  length Ld_obs = n ->
  (gp = true -> is_Some (self w !! "doublet_neighbor_parents_")) ->
  exists res w',
    scrublet_call_doublets_results n parents ratio n_neighbors rho gp
      threshold seed verbose w
    = (Ok res, w')
    /\ obs_doublet_score res = map VFloat Ld_obs
    /\ uns_doublet_scores_sim res = VFloats Ld_sim
    /\ uns_doublet_parents res = parents
    /\ uns_parameters res = (rho, ratio, n_neighbors, seed)
    /\ length (obs_predicted_doublet res) = n
    /\ uns_threshold res = self w' !! "threshold_".
Proof.
  intros Hsc Hn Hgp.
  pose proof Hsc as [Hobs Hsim Herr Hlen Hrate].
  assert (Hcases : (exists t, calibrated threshold Ld_sim t)
                   \/ (threshold = None /\ search_fails w)).
  { destruct threshold as [t|]; [left; exists t; now left|].
    destruct (threshold_minimum Ld_sim) as [t|e] eqn:E.
    - left. exists t. now right.
    - right. split; [reflexivity|]. unfold search_fails. rewrite Hsim. eauto. }
  unfold scrublet_call_doublets_results.
  destruct Hcases as [(t & Hcal)|(-> & Hfail)].
  - erewrite bind_ok by (eapply call_doublets_runs; eassumption).
    destruct (scrublet_call_doublets_results_tail
                (World L (np_random w) (called (self w) Ld_obs Ld_sim se_obs t))
                n parents ratio n_neighbors rho gp seed Ld_obs Ld_sim
                (VBools (map (fun x => fgt x t) Ld_obs)))
      as (res & Hres & Hprops);
      try (cbn [self]; unfold called; attr_lookup; first [assumption|reflexivity]).
    { right. eexists. split; [reflexivity|]. now rewrite length_map. }
    exists res. eexists. split; [exact Hres|]. exact Hprops.
  - erewrite bind_ok by (now apply call_doublets_failure_runs).
    destruct (scrublet_call_doublets_results_tail
                (World L (np_random w) (<["predicted_doublets_" := VNone]> (self w)))
                n parents ratio n_neighbors rho gp seed Ld_obs Ld_sim VNone)
      as (res & Hres & Hprops);
      try (cbn [self]; attr_lookup; first [assumption|reflexivity]).
    { now left. }
    exists res. eexists. split; [exact Hres|]. exact Hprops.
Qed.

End MoreCalling.

(** ** The object before call_doublets, and _scrublet_call_doublets *)

Section MoreWrapper.
Context {L : Library}.

(** X25. No statement before [call_doublets] creates one of the
    attributes it assigns: after the constructor, [simulate_doublets],
    [set_manifold] and [calculate_doublet_scores] have run on a new
    object, whatever their arguments and whether they returned or
    raised, [threshold_], [predicted_doublets_], [z_scores_] and the
    three rates do not exist. So [hasattr(scrub, "threshold_")] tells
    whether a call of [call_doublets] had a threshold. *)
Theorem call_outputs_unset_before_call X totals ratio nn rho se seed arg s
    manifold_obs manifold_sim approx metric gp w name :
  name ∈ call_outputs ->
  self (snd ((new_object ;;
              Scrublet_init X totals ratio nn rho se seed ;;
              simulate_doublets arg s ;;
              set_manifold manifold_obs manifold_sim ;;
              calculate_doublet_scores approx metric gp) w)) !! name
  = None.
Proof.
  intros Hname.
  erewrite bind_ok by reflexivity.
  match goal with |- self (snd (?m ?W)) !! _ = _ =>
    assert (Hkeeps : keeps name m); [|rewrite Hkeeps; apply lookup_empty]
  end.
  unfold call_outputs in Hname.
  repeat (apply elem_of_cons in Hname as [->|Hname]);
    [| | | | | |now apply elem_of_nil in Hname];
    (apply keeps_bind; [apply Scrublet_init_keeps; not_among|intros _];
     apply keeps_bind; [apply simulate_doublets_keeps; not_among|intros _];
     apply keeps_bind; [apply set_manifold_keeps; not_among|intros _];
     apply calculate_doublet_scores_keeps; not_among).
Qed.

Lemma scrublet_call_doublets_stops (P : Pipeline) X X_sim parents ratio
    n_neighbors rho se mean_center normalize_variance n_prin_comps approx metric
    gp threshold seed verbose w :
  keeps "_random_state" (scrublet_preprocessing P mean_center normalize_variance) ->
  exists e w',
    scrublet_call_doublets P X X_sim parents ratio n_neighbors rho se
      mean_center normalize_variance n_prin_comps approx metric gp threshold
      seed verbose w
    = (Raise e, w')
    /\ (mean_center = false -> normalize_variance = false ->
        is_Some n_neighbors ->
        e = AttributeError "_random_state"
        /\ forall name,
             name ∈ ["doublet_scores_obs_"; "predicted_doublets_"; "threshold_"] ->
             self w' !! name = None).
Proof.
  intros Hkeep. unfold scrublet_call_doublets.
  assert (Hrest : forall k,
    exists e w',
      (new_object ;;
       Scrublet_init X None (Fin 2) (Some k) rho se seed ;;
       setattr "_counts_obs_norm" (VCounts X) ;;
       setattr "_counts_sim_norm" (VCounts X_sim) ;;
       setattr "doublet_parents_" parents ;;
       scrublet_preprocessing P mean_center normalize_variance ;;
       (if mean_center
        then rs <- getattr "_random_state" ;; pipeline_pca P n_prin_comps rs
        else rs <- getattr "_random_state" ;;
             pipeline_truncated_svd P n_prin_comps rs) ;;
       calculate_doublet_scores approx metric gp ;;
       scrublet_call_doublets_results (length (rows X)) parents ratio k rho gp
         threshold seed verbose) w
      = (Raise e, w')
      /\ (mean_center = false -> normalize_variance = false ->
          e = AttributeError "_random_state"
          /\ forall name,
               name ∈ ["doublet_scores_obs_"; "predicted_doublets_"; "threshold_"] ->
               self w' !! name = None)).
  { intros k.
    erewrite bind_ok by reflexivity.
    erewrite bind_ok by reflexivity.
    do 3 (erewrite bind_ok by reflexivity; cbn [self np_random]).
    match goal with |- context [bind _ _ ?W] => set (w1 := W) end.
    assert (Hnone : forall name,
              name ∈ ["_random_state"; "doublet_scores_obs_";
                      "predicted_doublets_"; "threshold_"] ->
              self w1 !! name = None).
    { intros name Hname. unfold w1. cbn [self].
      repeat (apply elem_of_cons in Hname as [->|Hname]);
        [| | | |now apply elem_of_nil in Hname]; attr_lookup; apply lookup_empty. }
    pose proof (Hkeep w1) as Hk.
    destruct (scrublet_preprocessing P mean_center normalize_variance w1)
      as [[[]|e] w2] eqn:Epre; cbn [snd] in Hk.
    - erewrite bind_ok by exact Epre.
      assert (Hget : getattr "_random_state" w2
                     = (Raise (AttributeError "_random_state"), w2)).
      { apply getattr_missing. rewrite Hk. apply Hnone.
        apply elem_of_cons. now left. }
      exists (AttributeError "_random_state"), w2. split.
      + apply bind_raise. clear Epre Hkeep.
        destruct mean_center; apply bind_raise; exact Hget.
      + intros -> ->. split; [reflexivity|].
        cbn in Epre. injection Epre as <-. intros name Hname. apply Hnone.
        apply elem_of_cons. now right.
    - exists e, w2. split; [apply bind_raise; exact Epre|].
      intros -> ->. discriminate. }
  destruct n_neighbors as [k|].
  - erewrite bind_ok by reflexivity.
    destruct (Hrest k) as (e & w' & Hrun & He).
    exists e, w'. split; [exact Hrun|]. intros Hm Hv _. now apply He.
  - destruct (py_round (fmul (Fin (1 # 2)) (np_sqrt (of_int (nrows X)))))
      as [k|e] eqn:Ek.
    + rewrite (bind_ok _ _ w w k) by reflexivity.
      destruct (Hrest k) as (e & w' & Hrun & He).
      exists e, w'. split; [exact Hrun|]. intros _ _ [? [=]].
    + exists e, w. split.
      * apply bind_raise. reflexivity.
      * intros _ _ [? [=]].
Qed.

(** X26. [_scrublet_call_doublets] returns nothing: unless the
    preprocessing of the absent module [pipeline] itself assigns
    [_random_state] to the object, every call ends in an exception.
    Lines 421 and 425 read [scrub._random_state], an attribute the
    class never assigns (the constructor stores [random_state]). With
    both [mean_center] and [normalize_variance] off and [n_neighbors]
    given, no function of [pipeline] runs before that read: the
    exception is this [AttributeError], and no score has been
    computed. *)
Theorem scrublet_call_doublets_raises (P : Pipeline) X X_sim parents ratio
    n_neighbors rho se mean_center normalize_variance n_prin_comps approx metric
    gp threshold seed verbose w :
  keeps "_random_state" (scrublet_preprocessing P mean_center normalize_variance) ->
  exists e w',
    scrublet_call_doublets P X X_sim parents ratio n_neighbors rho se
      mean_center normalize_variance n_prin_comps approx metric gp threshold
      seed verbose w
    = (Raise e, w')
    /\ (mean_center = false -> normalize_variance = false ->
        is_Some n_neighbors ->
        e = AttributeError "_random_state"
        /\ self w' !! "doublet_scores_obs_" = None).
Proof.
  intros Hkeep.
  destruct (scrublet_call_doublets_stops P X X_sim parents ratio n_neighbors rho
              se mean_center normalize_variance n_prin_comps approx metric gp
              threshold seed verbose w Hkeep) as (e & w' & Hrun & He).
  exists e, w'. split; [exact Hrun|]. intros Hm Hv Hk.
  destruct (He Hm Hv Hk) as [-> Hnone]. split; [reflexivity|].
  apply Hnone. apply elem_of_cons. now left.
Qed.

(** C3 (code bug). No run of [_scrublet_call_doublets] exposes a
    prediction. Whatever the threshold, supplied or to be searched for,
    and whatever the data, the call ends in an exception before line 438
    calls [call_doublets], unless the preprocessing of the absent module
    [pipeline] itself assigns [_random_state] to the object: lines 421
    and 425 read [scrub._random_state], which the class never assigns.
    Nothing is returned, so there is neither a [predicted_doublet] column
    nor a stored threshold; with both preprocessing flags off and
    [n_neighbors] given the exception is this [AttributeError], and the
    object holds neither scores nor [predicted_doublets_] nor
    [threshold_]. *)
Theorem scrublet_call_doublets_exposes_no_prediction (P : Pipeline) X X_sim
    parents ratio n_neighbors rho se mean_center normalize_variance n_prin_comps
    approx metric gp threshold seed verbose w :
  keeps "_random_state" (scrublet_preprocessing P mean_center normalize_variance) ->
  let run := scrublet_call_doublets P X X_sim parents ratio n_neighbors rho se
               mean_center normalize_variance n_prin_comps approx metric gp
               threshold seed verbose w in
  (forall res, fst run <> Ok res)
  /\ (mean_center = false -> normalize_variance = false ->
      is_Some n_neighbors ->
      fst run = Raise (AttributeError "_random_state")
      /\ self (snd run) !! "predicted_doublets_" = None
      /\ self (snd run) !! "threshold_" = None
      /\ self (snd run) !! "doublet_scores_obs_" = None).
Proof.
  intros Hkeep run.
  destruct (scrublet_call_doublets_stops P X X_sim parents ratio n_neighbors rho
              se mean_center normalize_variance n_prin_comps approx metric gp
              threshold seed verbose w Hkeep) as (e & w' & Hrun & He).
  unfold run. rewrite Hrun. cbn [fst snd]. split; [discriminate|].
  intros Hm Hv Hk. destruct (He Hm Hv Hk) as [-> Hnone].
  split; [reflexivity|].
  repeat split; apply Hnone;
    repeat first [apply list_elem_of_here | apply list_elem_of_further].
Qed.

End MoreWrapper.

(** * The properties on concrete inputs *)

#[local] Existing Instance toy_library.

(** ** simulate_doublets *)

(** [toy_scrub] holds what [simulate_doublets] reads, with the ratio 2
    as argument or as attribute. *)
Lemma toy_scrub_inputs (arg : option float64) :
  match arg with Some r => r = Fin 2 | None => True end ->
  sim_inputs toy_scrub arg toy_X [3; 7; 11] 0 (Fin 2).
Proof.
  intros Harg.
  split; try (vm_compute; reflexivity); [lia|].
  destruct arg; [assumption|vm_compute; reflexivity].
Defined.

(** C1 (as amended) on three cells and the ratio 2: six pairs. *)
Lemma simulate_doublets_n_sim_witness :
  randint_contract
  /\ sim_inputs toy_scrub (Some (Fin 2)) toy_X [3; 7; 11] 0 (Fin 2)
  /\ 0 < nrows toy_X /\ (0 < 2)%Q
  /\ (inject_Z (nrows toy_X) * 2 < inject_Z (2 ^ 53))%Q
  /\ Qfloor (binary64 (inject_Z (nrows toy_X) * 2)) = 6
  /\ let x := (inject_Z (nrows toy_X) * 2)%Q in
     let n_sim := Qfloor (binary64 x) in
     exists w' pair_ix E,
       simulate_doublets (Some (Fin 2)) (Fin 1) toy_scrub = (Ok tt, w')
       /\ self w' !! "doublet_parents_" = Some (VPairs pair_ix)
       /\ Z.of_nat (length pair_ix) = n_sim
       /\ (forall p, In p pair_ix ->
             (0 <= fst p < nrows toy_X) /\ (0 <= snd p < nrows toy_X))
       /\ nrows E = n_sim
       /\ (flt (Fin 1) (of_int 1) = false ->
             self w' !! "_E_sim" = Some (VCounts E))
       /\ (flt (Fin 1) (of_int 1) = true ->
             exists tots st,
               self w' !! "_E_sim"
               = Some (VCounts
                         (fst (fst (subsample_counts E (Fin 1) tots 0 st)))))
       /\ Qfloor x <= n_sim <= Qfloor x + 1
       /\ ((binary64 x == x)%Q -> n_sim = Qfloor x).
Proof.
  split; [exact toy_randint_contract|].
  split; [exact (toy_scrub_inputs (Some (Fin 2)) eq_refl)|].
  split; [reflexivity|]. split; [reflexivity|]. split; [reflexivity|].
  split; [vm_compute; reflexivity|].
  exact (simulate_doublets_n_sim toy_randint_contract toy_scrub (Some (Fin 2))
           toy_X [3; 7; 11] 0 2 (Fin 1)
           (toy_scrub_inputs (Some (Fin 2)) eq_refl) eq_refl eq_refl eq_refl).
Defined.

(** [toy_ten] holds what [simulate_doublets] reads. *)
Lemma toy_ten_inputs :
  sim_inputs toy_ten (Some (Fin double_0_7)) toy_ten_X
    [1; 2; 3; 4; 5; 6; 7; 8; 9; 10] 0 (Fin double_0_7).
Proof. split; try (vm_compute; reflexivity). lia. Qed.

(** C1 as worded fails twice. With ten cells and the ratio [0.7], a
    double precision number a little below seven tenths, the product
    [n_obs * ratio] is below 7 and its whole part is 6, but float64
    multiplication rounds it to 7.0 and seven pairs are drawn. And a
    matrix of one cell, given to the constructor without
    [total_counts], has [n_obs = 1 > 0], yet with the ratio 2 the call
    raises [IndexError]: the constructor stored a zero-dimensional total
    count. *)
Lemma simulate_doublets_not_floor_of_product :
  sim_inputs toy_ten (Some (Fin double_0_7)) toy_ten_X
    [1; 2; 3; 4; 5; 6; 7; 8; 9; 10] 0 (Fin double_0_7)
  /\ nrows toy_ten_X = 10
  /\ binary64 (7 # 10) = double_0_7
  /\ (inject_Z (nrows toy_ten_X) * double_0_7 < 7)%Q
  /\ Qfloor (inject_Z (nrows toy_ten_X) * double_0_7) = 6
  /\ fmul (of_int (nrows toy_ten_X)) (Fin double_0_7) = Fin 7
  /\ fst (simulate_doublets (Some (Fin double_0_7)) (Fin 1) toy_ten) = Ok tt
  /\ (exists p1 p2 p3 p4 p5 p6 p7,
        self toy_ten_simulated !! "doublet_parents_"
        = Some (VPairs [p1; p2; p3; p4; p5; p6; p7]))
  /\ self toy_single !! "_E_obs" = Some (VCounts (Array2 2 [[1; 2]]))
  /\ self toy_single !! "sim_doublet_ratio" = Some (VFloat (Fin 2))
  /\ self toy_single !! "_total_counts_obs" = Some (VInt0 3)
  /\ fst (simulate_doublets None (Fin 1) toy_single) = Raise IndexError.
Proof.
  split; [exact toy_ten_inputs|].
  split; [reflexivity|]. split; [vm_compute; reflexivity|].
  split; [reflexivity|]. split; [vm_compute; reflexivity|].
  split; [vm_compute; reflexivity|]. split; [vm_compute; reflexivity|].
  split; [do 7 eexists; vm_compute; reflexivity|].
  repeat split; vm_compute; reflexivity.
Qed.

(** C7 (as amended) on three cells, the ratio read from the object and
    the rate 1; counts and totals are of dtype [int64]. *)
Lemma simulate_doublets_unthinned_witness :
  randint_contract
  /\ sim_inputs toy_scrub None toy_X [3; 7; 11] 0 (Fin 2)
  /\ 0 < nrows toy_X /\ (0 <= 2)%Q
  /\ (inject_Z (nrows toy_X) * 2 < inject_Z (2 ^ 53))%Q
  /\ flt (Fin 1) (of_int 1) = false
  /\ 0 < dtype_bits counts_dtype /\ 0 < dtype_bits totals_dtype
  /\ exists w' pair_ix E_sim tots_sim,
       simulate_doublets None (Fin 1) toy_scrub = (Ok tt, w')
       /\ np_random w'
          = snd (draw_pairs (seed_state 0) 0 (nrows toy_X)
                   (truncate (binary64 (inject_Z (nrows toy_X) * 2))))
       /\ self w' !! "doublet_parents_" = Some (VPairs pair_ix)
       /\ self w' !! "_E_sim" = Some (VCounts E_sim)
       /\ self w' !! "_total_counts_sim" = Some (VInts tots_sim)
       /\ length (rows E_sim) = length pair_ix
       /\ length tots_sim = length pair_ix
       /\ forall (i : nat) a b, pair_ix !! i = Some (a, b) ->
            exists ra rb ta tb,
              rows toy_X !! Z.to_nat a = Some ra
              /\ rows toy_X !! Z.to_nat b = Some rb
              /\ [3; 7; 11] !! Z.to_nat a = Some ta
              /\ [3; 7; 11] !! Z.to_nat b = Some tb
              /\ rows E_sim !! i
                 = Some (zip_with (fun x y => wrap counts_dtype (x + y)) ra rb)
              /\ tots_sim !! i = Some (wrap totals_dtype (ta + tb))
              /\ (Forall (in_dtype counts_dtype) (zip_with Z.add ra rb) ->
                  rows E_sim !! i = Some (zip_with Z.add ra rb))
              /\ (in_dtype totals_dtype (ta + tb) ->
                  tots_sim !! i = Some (ta + tb)).
Proof.
  split; [exact toy_randint_contract|].
  split; [exact (toy_scrub_inputs None I)|].
  split; [reflexivity|]. split; [unfold Qle; simpl; lia|]. split; [reflexivity|].
  split; [reflexivity|]. split; [reflexivity|]. split; [reflexivity|].
  apply (simulate_doublets_unthinned toy_randint_contract toy_scrub None
           toy_X [3; 7; 11] 0 2 (Fin 1)).
  - exact (toy_scrub_inputs None I).
  - reflexivity.
  - unfold Qle; simpl; lia.
  - reflexivity.
  - reflexivity.
  - reflexivity.
  - reflexivity.
Defined.

(** C7 as worded fails: in a matrix of dtype [int8] the sum of two
    cells with 100 counts each is not 200. Without thinning, every
    synthetic row is the sum of two of the two observed rows, both
    [[100]], and [_E_sim] holds [-56] in each: the sum wrapped around.
    The totals, of dtype [int64], are the exact sums. *)
Lemma simulate_doublets_sum_wraps :
  sim_inputs (L := toy_library_of int8) toy_narrow None toy_narrow_X
    [100; 100] 0 (Fin 1)
  /\ counts_dtype (Library := toy_library_of int8) = int8
  /\ Forall (in_dtype int8) [100; 100]
  /\ flt (Fin 1) (of_int 1) = false
  /\ fst (simulate_doublets (L := toy_library_of int8) None (Fin 1) toy_narrow)
     = Ok tt
  /\ self toy_narrow_simulated !! "_E_sim"
     = Some (VCounts (Array2 1 [[-56]; [-56]]))
  /\ self toy_narrow_simulated !! "_total_counts_sim"
     = Some (VInts [200; 200])
  /\ zip_with Z.add [100] [100] = [200]
  /\ wrap int8 200 = -56.
Proof.
  split.
  { split; try (vm_compute; reflexivity). lia. }
  split; [reflexivity|].
  split; [repeat constructor; vm_compute; discriminate|].
  repeat split; vm_compute; reflexivity.
Qed.

(** [toy_scrub_other] holds the same inputs. *)
Lemma toy_scrub_other_inputs :
  sim_inputs toy_scrub_other (Some (Fin 2)) toy_X [3; 7; 11] 0 (Fin 2).
Proof. split; try (vm_compute; reflexivity). lia. Defined.

(** C8 (as amended) on two objects that agree on the inputs and
    differ in the generator and in another attribute, with thinning at
    the rate 1/2. *)
Lemma simulate_doublets_deterministic_witness :
  randint_contract
  /\ sim_inputs toy_scrub (Some (Fin 2)) toy_X [3; 7; 11] 0 (Fin 2)
  /\ sim_inputs toy_scrub_other (Some (Fin 2)) toy_X [3; 7; 11] 0 (Fin 2)
  /\ np_random toy_scrub <> np_random toy_scrub_other
  /\ exists w1' w2',
       simulate_doublets (Some (Fin 2)) (Fin (1 # 2)) toy_scrub = (Ok tt, w1')
       /\ simulate_doublets (Some (Fin 2)) (Fin (1 # 2)) toy_scrub_other
          = (Ok tt, w2')
       /\ np_random w1' = np_random w2'
       /\ (forall name, name ∈ simulation_outputs ->
             is_Some (self w1' !! name)
             /\ self w1' !! name = self w2' !! name)
       /\ self w1' !! "sim_doublet_ratio" = Some (VFloat (Fin 2))
       /\ (forall name, name ∉ "sim_doublet_ratio" :: simulation_outputs ->
             self w1' !! name = self toy_scrub !! name).
Proof.
  split; [exact toy_randint_contract|].
  split; [exact (toy_scrub_inputs (Some (Fin 2)) eq_refl)|].
  split; [exact toy_scrub_other_inputs|].
  split; [vm_compute; discriminate|].
  apply (simulate_doublets_deterministic toy_randint_contract toy_scrub
           toy_scrub_other (Some (Fin 2)) toy_X [3; 7; 11] 0 2 (Fin (1 # 2))).
  - exact (toy_scrub_inputs (Some (Fin 2)) eq_refl).
  - exact toy_scrub_other_inputs.
  - reflexivity.
  - unfold Qle; simpl; lia.
Defined.

(** C8 as worded fails: a call with another ratio overwrites the
    attribute [sim_doublet_ratio], which is no output of the simulation,
    and leaves the process-wide generator in another state. *)
Lemma simulate_doublets_modifies_ratio_and_generator :
  fst (simulate_doublets (Some (Fin 1)) (Fin 1) toy_scrub) = Ok tt
  /\ self toy_scrub !! "sim_doublet_ratio" = Some (VFloat (Fin 2))
  /\ self toy_resimulated !! "sim_doublet_ratio" = Some (VFloat (Fin 1))
  /\ np_random toy_scrub = 7
  /\ np_random toy_resimulated = 1109335178
  /\ ~ only_outputs_modified toy_scrub toy_resimulated.
Proof.
  split; [vm_compute; reflexivity|].
  split; [vm_compute; reflexivity|].
  split; [vm_compute; reflexivity|].
  split; [vm_compute; reflexivity|].
  split; [vm_compute; reflexivity|].
  intros [Hrng _]. vm_compute in Hrng. discriminate.
Qed.

(** A single observed cell: the constructor squeezes the row sums of a
    one-row matrix to a zero-dimensional array, and line 354 of
    [simulate_doublets] cannot index it. The statements above take the
    total counts as a vector with one entry per cell. *)
Example simulate_doublets_single_cell :
  let w := snd (Scrublet_init (Array2 2 [[1; 2]]) None (Fin 2) None
                  (Fin (1 # 10)) (Fin (1 # 50)) 0 toy_fresh) in
  self w !! "_total_counts_obs" = Some (VInt0 3)
  /\ fst (simulate_doublets None (Fin 1) w) = Raise IndexError.
Proof. split; vm_compute; reflexivity. Qed.

(** ** The classifier *)

(** [toy_embedded] holds what the classifier reads. *)
Lemma toy_embedded_inputs :
  classifier_inputs toy_embedded toy_manifold_obs toy_manifold_sim 0.
Proof. split; vm_compute; reflexivity. Defined.

(** C5 (as amended) with [k = 1], three observed and six simulated
    points: [k_adj = 3]. *)
Lemma classifier_k_adj_witness :
  classifier_inputs toy_embedded toy_manifold_obs toy_manifold_sim 0
  /\ 0 < nrows toy_manifold_obs /\ 0 <= 1 <= 2 ^ 53
  /\ round_half_even (adjusted_k_float 1 3 6) = 3
  /\ let n_obs := nrows toy_manifold_obs in
     let n_sim := nrows toy_manifold_sim in
     let x := (inject_Z 1 * (1 + inject_Z n_sim / inject_Z n_obs))%Q in
     let x64 := adjusted_k_float 1 n_obs n_sim in
     let k_adj := round_half_even x64 in
     adjusted_k 1 n_obs n_sim = Ok k_adj
     /\ nearest_neighbor_classifier 1 true "euclidean" (Fin (1 # 10))
          (Fin (1 # 50)) false toy_embedded
        = (neighbors <- lift (get_knn_graph
                                (pooled toy_manifold_obs toy_manifold_sim)
                                k_adj "euclidean" true 0) ;;
           classifier_with_graph
             (doublet_labels (length (rows toy_manifold_obs))
                (length (rows toy_manifold_sim)))
             n_obs n_sim k_adj (Fin (1 # 10)) (Fin (1 # 50)) false neighbors)
            toy_embedded
     /\ (Qabs (inject_Z k_adj - x64) <= 1 # 2)%Q
     /\ (Qabs (x64 - x) <= x * pow2 (-51))%Q
     /\ (Qabs (inject_Z k_adj - x) <= (1 # 2) + x * pow2 (-51))%Q
     /\ 1 <= k_adj.
Proof.
  assert (Hk : 0 <= 1 <= 2 ^ 53) by (split; vm_compute; discriminate).
  split; [exact toy_embedded_inputs|].
  split; [reflexivity|]. split; [exact Hk|]. split; [vm_compute; reflexivity|].
  exact (classifier_k_adj toy_embedded 1 true "euclidean" (Fin (1 # 10))
           (Fin (1 # 50)) false toy_manifold_obs toy_manifold_sim 0
           toy_embedded_inputs eq_refl Hk).
Defined.

(** C5 as worded fails. For 6 neighbors, 12 observed and 19 simulated
    points the exact value of [k * (1 + n_sim / n_obs)] is [31/2], which
    rounds to 16 whether ties go to the even integer or up, but the
    double precision value is a little below it and line 463 gives 15.
    For 3 neighbors, 6 observed and 7 simulated points the exact value
    is [13/2], which Python's [round] takes to 6; the double precision
    value is a little above it and line 463 gives 7. *)
Lemma adjusted_k_not_round_of_exact :
  adjusted_k 6 12 19 = Ok 15
  /\ (inject_Z 6 * (1 + inject_Z 19 / inject_Z 12) == 31 # 2)%Q
  /\ round_half_even (inject_Z 6 * (1 + inject_Z 19 / inject_Z 12)) = 16
  /\ Qfloor (inject_Z 6 * (1 + inject_Z 19 / inject_Z 12) + (1 # 2)) = 16
  /\ (adjusted_k_float 6 12 19 < 31 # 2)%Q
  /\ adjusted_k 3 6 7 = Ok 7
  /\ (inject_Z 3 * (1 + inject_Z 7 / inject_Z 6) == 13 # 2)%Q
  /\ round_half_even (inject_Z 3 * (1 + inject_Z 7 / inject_Z 6)) = 6
  /\ (13 # 2 < adjusted_k_float 3 6 7)%Q.
Proof. repeat split; vm_compute; reflexivity. Qed.



(** Every entry of [toy_neighbors] is a pooled index. *)
Lemma toy_neighbors_valid :
  Forall (Forall (fun j => 0 <= j < nrows toy_manifold_obs + nrows toy_manifold_sim))
    toy_neighbors.
Proof.
  repeat first [apply Forall_nil_2 | apply Forall_cons_2];
    (vm_compute; split; [discriminate|reflexivity]).
Defined.

(** C2 on the pooled embedding of nine points, with the parents of the
    neighbors requested. *)
Lemma nearest_neighbor_classifier_scores_witness :
  classifier_inputs toy_embedded toy_manifold_obs toy_manifold_sim 0
  /\ 0 < nrows toy_manifold_obs
  /\ nonzero (Fin (1 # 10))
  /\ let n_obs := nrows toy_manifold_obs in
     let n_sim := nrows toy_manifold_sim in
     let k_adj := round_half_even (adjusted_k_float 1 n_obs n_sim) in
     get_knn_graph (pooled toy_manifold_obs toy_manifold_sim) k_adj
       "euclidean" true 0 = Ok toy_neighbors
     /\ Z.of_nat (length toy_neighbors) = n_obs + n_sim
     /\ Forall (Forall (fun j => 0 <= j < n_obs + n_sim)) toy_neighbors
     /\ let result := nearest_neighbor_classifier 1 true "euclidean"
                        (Fin (1 # 10)) (Fin (1 # 50)) true toy_embedded in
        exists obs sim err_obs err_sim,
          adjusted_k 1 n_obs n_sim = Ok k_adj
          /\ np_random (snd result) = np_random toy_embedded
          /\ (true = false -> fst result = Ok tt)
          /\ self (snd result) !! "doublet_scores_obs_" = Some (VFloats obs)
          /\ self (snd result) !! "doublet_scores_sim_" = Some (VFloats sim)
          /\ self (snd result) !! "doublet_errors_obs_" = Some (VFloats err_obs)
          /\ self (snd result) !! "doublet_errors_sim_" = Some (VFloats err_sim)
          /\ Z.of_nat (length obs) = n_obs
          /\ Z.of_nat (length err_obs) = n_obs
          /\ forall (i : nat) row, toy_neighbors !! i = Some row ->
               let score := spec_score n_obs n_sim k_adj (Fin (1 # 10))
                              (Fin (1 # 50)) row in
               (obs ++ sim) !! i = Some (fst score)
               /\ (err_obs ++ err_sim) !! i = Some (snd score).
Proof.
  split; [exact toy_embedded_inputs|].
  split; [reflexivity|].
  split; [discriminate|].
  split; [vm_compute; reflexivity|].
  split; [reflexivity|].
  split; [exact toy_neighbors_valid|].
  apply (nearest_neighbor_classifier_scores toy_embedded 1 true "euclidean"
           (Fin (1 # 10)) (Fin (1 # 50)) true toy_manifold_obs toy_manifold_sim
           0 toy_neighbors).
  - exact toy_embedded_inputs.
  - reflexivity.
  - discriminate.
  - vm_compute; reflexivity.
  - reflexivity.
  - exact toy_neighbors_valid.
Defined.

(** ** call_doublets and the wrappers *)

(** [toy_scored] and [toy_flat] hold what [call_doublets] reads. *)
Lemma toy_scored_scored :
  scored toy_scored (floats_of toy_scored "doublet_scores_obs_")
    (floats_of toy_scored "doublet_scores_sim_")
    (floats_of toy_scored "doublet_errors_obs_").
Proof.
  split; try (vm_compute; reflexivity).
  eexists. vm_compute. reflexivity.
Defined.

Lemma toy_flat_scored :
  scored toy_flat (floats_of toy_scored "doublet_scores_obs_")
    [Fin (1 # 2); Fin (1 # 2)]
    (floats_of toy_scored "doublet_errors_obs_").
Proof.
  split; try (vm_compute; reflexivity).
  eexists. vm_compute. reflexivity.
Defined.

(** C10 after a successful call: the threshold of that call stays. *)
Lemma call_doublets_failure_frame_witness :
  search_fails toy_called
  /\ self toy_called !! "threshold_" = Some (VFloat (Fin (1 # 20)))
  /\ exists w',
       call_doublets None true toy_called = (Ok VNone, w')
       /\ np_random w' = np_random toy_called
       /\ self w' !! "predicted_doublets_" = Some VNone
       /\ forall name, name <> "predicted_doublets_" ->
            self w' !! name = self toy_called !! name.
Proof.
  assert (Hfail : search_fails toy_called).
  { unfold search_fails. vm_compute. eexists. reflexivity. }
  split; [exact Hfail|].
  split; [vm_compute; reflexivity|].
  exact (call_doublets_failure_frame toy_called true Hfail).
Defined.

(** C9 with a threshold above every score: both fractions are zero and
    the overall rate is not finite. *)
Lemma call_doublets_overall_rate_witness :
  scored toy_scored (floats_of toy_scored "doublet_scores_obs_")
    (floats_of toy_scored "doublet_scores_sim_")
    (floats_of toy_scored "doublet_errors_obs_")
  /\ calibrated (Some (Fin 5)) (floats_of toy_scored "doublet_scores_sim_") (Fin 5)
  /\ fraction_above (floats_of toy_scored "doublet_scores_sim_") (Fin 5)
     = Fin 0
  /\ exists w' predicted detected detectable,
       call_doublets (Some (Fin 5)) true toy_scored = (Ok predicted, w')
       /\ detected
          = fraction_above (floats_of toy_scored "doublet_scores_obs_") (Fin 5)
       /\ detectable
          = fraction_above (floats_of toy_scored "doublet_scores_sim_") (Fin 5)
       /\ self w' !! "threshold_" = Some (VFloat (Fin 5))
       /\ self w' !! "detected_doublet_rate_" = Some (VFloat detected)
       /\ self w' !! "detectable_doublet_fraction_" = Some (VFloat detectable)
       /\ self w' !! "overall_doublet_rate_"
          = Some (VFloat (fdiv detected detectable))
       /\ (forall z, detectable = Fin z -> (z == 0)%Q ->
             is_finite (fdiv detected detectable) = false).
Proof.
  split; [exact toy_scored_scored|].
  split; [left; reflexivity|].
  split; [vm_compute; reflexivity|].
  exact (call_doublets_overall_rate toy_scored _ _ _ (Some (Fin 5)) (Fin 5) true
           toy_scored_scored (or_introl eq_refl)).
Defined.

(** The failing input of C6: two cells, two genes, the default ratio and
    rate. The simulation runs, then line 539 raises. *)
Example scrublet_simulate_doublets_example :
  fst (simulate_doublets (Some (Fin 2)) (Fin 1)
         (snd (Scrublet_init (Array2 2 [[1; 2]; [3; 4]]) None (Fin 2) None
                 (Fin (1 # 10)) (Fin (2 # 100)) 0 toy_fresh)))
  = Ok tt
  /\ fst (scrublet_simulate_doublets (Array2 2 [[1; 2]; [3; 4]]) (Fin 2)
            (Fin 1) 0 toy_fresh)
     = Raise (AttributeError "_counts_sim").
Proof. split; vm_compute; reflexivity. Qed.

(** ** Further properties *)

(** [toy_scrub] holds what [simulate_doublets] reads, for any ratio
    passed as argument. *)
Lemma toy_scrub_inputs_for (q : Q) :
  sim_inputs toy_scrub (Some (Fin q)) toy_X [3; 7; 11] 0 (Fin q).
Proof. split; try (vm_compute; reflexivity). lia. Defined.

(** X1 on [toy_scrub]: the observed matrix is
    not touched, and without a ratio passed neither is
    [sim_doublet_ratio]. *)
Lemma simulate_doublets_frame_witness :
  ("_E_obs" ∉ simulation_outputs)
  /\ ("sim_doublet_ratio" ∉ simulation_outputs)
  /\ self (snd (simulate_doublets (Some (Fin 1)) (Fin 1) toy_scrub)) !! "_E_obs"
     = self toy_scrub !! "_E_obs"
  /\ self (snd (simulate_doublets None (Fin 1) toy_scrub)) !! "sim_doublet_ratio"
     = self toy_scrub !! "sim_doublet_ratio".
Proof.
  assert (H1 : "_E_obs" ∉ simulation_outputs)
    by (unfold simulation_outputs; not_among).
  assert (H2 : "sim_doublet_ratio" ∉ simulation_outputs)
    by (unfold simulation_outputs; not_among).
  split; [exact H1|]. split; [exact H2|]. split.
  - apply (simulate_doublets_frame (Some (Fin 1)) (Fin 1) toy_scrub "_E_obs" H1).
    discriminate.
  - apply (simulate_doublets_frame None (Fin 1) toy_scrub "sim_doublet_ratio" H2).
    reflexivity.
Defined.

(** X4 on a call with the ratio -1,
    which raises: [_E_sim] is still [None]. *)
Lemma simulate_doublets_failure_frame_witness :
  fst (simulate_doublets (Some (Fin (-1 # 1))) (Fin 1) toy_scrub)
  = Raise ValueError
  /\ "_E_sim" <> "sim_doublet_ratio"
  /\ self toy_scrub !! "_E_sim" = Some VNone
  /\ self toy_failed !! "_E_sim" = self toy_scrub !! "_E_sim".
Proof.
  split; [vm_compute; reflexivity|]. split; [discriminate|].
  split; [vm_compute; reflexivity|].
  apply (simulate_doublets_failure_frame (Some (Fin (-1 # 1))) (Fin 1) toy_scrub
           ValueError "_E_sim"); [vm_compute; reflexivity|discriminate].
Defined.


(** X6 with three cells and the ratio -1/4:
    [int(-0.75)] is 0. *)
Lemma simulate_doublets_empty_witness :
  sim_inputs toy_scrub (Some (Fin (-1 # 4))) toy_X [3; 7; 11] 0 (Fin (-1 # 4))
  /\ 0 < nrows toy_X
  /\ truncate (binary64 (inject_Z (nrows toy_X) * (-1 # 4))) = 0
  /\ Qfloor (binary64 (inject_Z (nrows toy_X) * (-1 # 4))) = -1
  /\ flt (Fin 1) (of_int 1) = false
  /\ simulate_doublets (Some (Fin (-1 # 4))) (Fin 1) toy_scrub
     = (Ok tt,
        World toy_library (seed_state 0)
          (<["doublet_parents_" := VPairs []]>
             (<["_total_counts_sim" := VInts []]>
                (<["_E_sim" := VCounts (Array2 (ncols toy_X) [])]>
                   (with_ratio (Some (Fin (-1 # 4))) (self toy_scrub)))))).
Proof.
  split; [exact (toy_scrub_inputs_for (-1 # 4))|].
  split; [reflexivity|]. split; [vm_compute; reflexivity|].
  split; [vm_compute; reflexivity|].
  split; [reflexivity|].
  apply (simulate_doublets_empty toy_scrub
           (Some (Fin (-1 # 4))) toy_X [3; 7; 11] 0 (-1 # 4) (Fin 1)
           (toy_scrub_inputs_for (-1 # 4)) eq_refl); [vm_compute|]; reflexivity.
Defined.

(** X7 on three cells, the ratio 2 and
    thinning at the rate 1/2. *)
Lemma simulate_doublets_idempotent_witness :
  randint_contract
  /\ sim_inputs toy_scrub (Some (Fin 2)) toy_X [3; 7; 11] 0 (Fin 2)
  /\ 0 < nrows toy_X /\ (0 <= 2)%Q
  /\ (simulate_doublets (Some (Fin 2)) (Fin (1 # 2)) ;;
      simulate_doublets (Some (Fin 2)) (Fin (1 # 2))) toy_scrub
     = simulate_doublets (Some (Fin 2)) (Fin (1 # 2)) toy_scrub.
Proof.
  split; [exact toy_randint_contract|].
  split; [exact (toy_scrub_inputs_for 2)|].
  split; [reflexivity|]. split; [discriminate|].
  apply (simulate_doublets_idempotent toy_randint_contract toy_scrub
           (Some (Fin 2)) toy_X [3; 7; 11] 0 2 (Fin (1 # 2))).
  - exact (toy_scrub_inputs_for 2).
  - reflexivity.
  - discriminate.
Defined.

(** X8 on three cells, the ratio 2 and the
    rate 1/2. *)
Lemma simulate_doublets_thinned_witness :
  randint_contract
  /\ sim_inputs toy_scrub (Some (Fin 2)) toy_X [3; 7; 11] 0 (Fin 2)
  /\ 0 < nrows toy_X /\ (0 <= 2)%Q
  /\ (inject_Z (nrows toy_X) * 2 < inject_Z (2 ^ 53))%Q
  /\ flt (Fin (1 # 2)) (of_int 1) = true
  /\ let draw := draw_pairs (seed_state 0) 0 (nrows toy_X)
                   (truncate (binary64 (inject_Z (nrows toy_X) * 2))) in
     exists w' E tots,
       simulate_doublets (Some (Fin 2)) (Fin (1 # 2)) toy_scrub = (Ok tt, w')
       /\ ncols E = ncols toy_X
       /\ length (rows E) = length (fst draw)
       /\ length tots = length (fst draw)
       /\ (forall (i : nat) a b, fst draw !! i = Some (a, b) ->
             exists ra rb ta tb,
               rows toy_X !! Z.to_nat a = Some ra
               /\ rows toy_X !! Z.to_nat b = Some rb
               /\ [3; 7; 11] !! Z.to_nat a = Some ta
               /\ [3; 7; 11] !! Z.to_nat b = Some tb
               /\ rows E !! i
                  = Some (zip_with (fun x y => wrap counts_dtype (x + y)) ra rb)
               /\ tots !! i = Some (wrap totals_dtype (ta + tb)))
       /\ let out := subsample_counts E (Fin (1 # 2)) tots 0 (snd draw) in
          self w' !! "_E_sim" = Some (VCounts (fst (fst out)))
          /\ self w' !! "_total_counts_sim" = Some (VInts (snd (fst out)))
          /\ self w' !! "doublet_parents_" = Some (VPairs (fst draw))
          /\ np_random w' = snd out.
Proof.
  split; [exact toy_randint_contract|].
  split; [exact (toy_scrub_inputs_for 2)|].
  split; [reflexivity|]. split; [discriminate|]. split; [reflexivity|].
  split; [reflexivity|].
  apply (simulate_doublets_thinned toy_randint_contract toy_scrub
           (Some (Fin 2)) toy_X [3; 7; 11] 0 2 (Fin (1 # 2))).
  - exact (toy_scrub_inputs_for 2).
  - reflexivity.
  - discriminate.
  - reflexivity.
  - reflexivity.
Defined.

(** X9 on one cell and two genes, with
    the defaults of the constructor. *)
Lemma simulate_doublets_single_row_witness :
  randint_contract
  /\ rows (Array2 2 [[1; 2]]) = [[1; 2]]
  /\ fst (Scrublet_init (Array2 2 [[1; 2]]) None (Fin 2) None (Fin (1 # 10))
            (Fin (1 # 50)) 0 toy_fresh) = Ok tt
  /\ 0 <= 0 < 2 ^ 32
  /\ (0 <= 2)%Q
  /\ self toy_single !! "_total_counts_obs"
     = Some (VInt0 (foldr Z.add 0 [1; 2]))
  /\ fst (simulate_doublets None (Fin 1) toy_single) = Raise IndexError.
Proof.
  split; [exact toy_randint_contract|].
  split; [reflexivity|]. split; [vm_compute; reflexivity|].
  split; [lia|]. split; [discriminate|].
  apply (simulate_doublets_single_row toy_randint_contract (Array2 2 [[1; 2]])
           [1; 2] (Fin 2) None (Fin (1 # 10)) (Fin (1 # 50)) 0 None 2 (Fin 1)
           toy_fresh).
  - reflexivity.
  - vm_compute; reflexivity.
  - lia.
  - reflexivity.
  - discriminate.
Defined.

(** Sums of two cells of [toy_X] are values of [int64]. *)
Lemma toy_X_sums_fit (ra rb : list Z) :
  ra ∈ rows toy_X -> rb ∈ rows toy_X ->
  Forall (in_dtype counts_dtype) (zip_with Z.add ra rb)
  /\ in_dtype totals_dtype (foldr Z.add 0 ra + foldr Z.add 0 rb).
Proof.
  assert (Hall : Forall (fun ra => Forall (fun rb =>
            Forall (in_dtype int64) (zip_with Z.add ra rb)
            /\ in_dtype int64 (foldr Z.add 0 ra + foldr Z.add 0 rb))
              (rows toy_X)) (rows toy_X)).
  { cbn. repeat (first [apply Forall_nil | apply Forall_cons; split | split]).
    all: vm_compute; discriminate. }
  intros Ha Hb.
  rewrite Forall_forall in Hall. specialize (Hall _ Ha).
  rewrite Forall_forall in Hall. exact (Hall _ Hb).
Qed.

(** X10 on three cells, the
    ratio of the constructor and no thinning. *)
Lemma simulate_doublets_totals_are_row_sums_witness :
  randint_contract
  /\ fst (Scrublet_init toy_X None (Fin 2) (Some 1) (Fin (1 # 10)) (Fin (1 # 50))
            0 toy_fresh) = Ok tt
  /\ 1 < nrows toy_X
  /\ Forall (fun r => length r = ncols toy_X) (rows toy_X)
  /\ 0 < dtype_bits counts_dtype /\ 0 < dtype_bits totals_dtype
  /\ (forall ra rb, ra ∈ rows toy_X -> rb ∈ rows toy_X ->
        Forall (in_dtype counts_dtype) (zip_with Z.add ra rb)
        /\ in_dtype totals_dtype (foldr Z.add 0 ra + foldr Z.add 0 rb))
  /\ 0 <= 0 < 2 ^ 32
  /\ (0 <= 2)%Q
  /\ (inject_Z (nrows toy_X) * 2 < inject_Z (2 ^ 53))%Q
  /\ flt (Fin 1) (of_int 1) = false
  /\ exists w2 E,
       simulate_doublets None (Fin 1) toy_scrub = (Ok tt, w2)
       /\ self w2 !! "_E_sim" = Some (VCounts E)
       /\ self w2 !! "_total_counts_sim" = Some (VInts (row_sums E))
       /\ ncols E = ncols toy_X
       /\ Forall (fun r => length r = ncols toy_X) (rows E).
Proof.
  assert (Hrect : Forall (fun r => length r = ncols toy_X) (rows toy_X))
    by (repeat constructor).
  split; [exact toy_randint_contract|].
  split; [vm_compute; reflexivity|]. split; [reflexivity|].
  split; [exact Hrect|]. split; [reflexivity|]. split; [reflexivity|].
  split; [exact toy_X_sums_fit|]. split; [lia|]. split; [discriminate|].
  split; [reflexivity|]. split; [reflexivity|].
  apply (simulate_doublets_totals_are_row_sums toy_randint_contract toy_X (Fin 2)
           (Some 1) (Fin (1 # 10)) (Fin (1 # 50)) 0 None 2 (Fin 1) toy_fresh).
  - vm_compute; reflexivity.
  - reflexivity.
  - exact Hrect.
  - reflexivity.
  - reflexivity.
  - exact toy_X_sums_fit.
  - lia.
  - reflexivity.
  - discriminate.
  - reflexivity.
  - reflexivity.
Defined.

(** ** The classifier, further *)

(** X11 with the defaults: 40 neighbors and twice as
    many doublets as cells give 120. *)
Lemma adjusted_k_whole_ratio_witness :
  0 < 3 /\ Z.abs 2 < 2 ^ 53 /\ Z.abs (40 * (1 + 2)) <= 2 ^ 53
  /\ adjusted_k 40 3 (2 * 3) = Ok (40 * (1 + 2)).
Proof.
  split; [reflexivity|]. split; [reflexivity|].
  split; [vm_compute; discriminate|].
  apply (adjusted_k_whole_ratio 40 3 2);
    [reflexivity|reflexivity|vm_compute; discriminate].
Defined.

(** Every index of [toy_neighbors] is below the number of pooled
    points. *)
Lemma toy_neighbors_below :
  Forall (Forall (fun j => j < 3 + Z.of_nat (length toy_parents))) toy_neighbors.
Proof.
  repeat first [apply Forall_nil_2 | apply Forall_cons_2]; reflexivity.
Defined.

(** X13 on the graph of nine pooled points,
    three of them observed. *)
Lemma neighbor_parents_collected_witness :
  0 <= 3 <= Z.of_nat (length toy_neighbors)
  /\ Forall (Forall (fun j => j < 3 + Z.of_nat (length toy_parents))) toy_neighbors
  /\ exists neighbor_parents,
       omap (neighbor_parents_of toy_parents
               (map (map (fun j => j - 3)) toy_neighbors))
         (map Z.of_nat (seq 0 (Z.to_nat 3)))
       = Ok neighbor_parents
       /\ Z.of_nat (length neighbor_parents) = 3
       /\ forall (i : nat) row, Z.of_nat i < 3 -> toy_neighbors !! i = Some row ->
            exists ps,
              neighbor_parents !! i = Some ps
              /\ StronglySorted Z.lt ps
              /\ (forall x, x ∈ ps <-> parent_of_neighbor 3 toy_parents row x)
              /\ (Forall (fun j => j < 3) row -> ps = []).
Proof.
  assert (H : 0 <= 3 <= Z.of_nat (length toy_neighbors)) by (cbn; lia).
  split; [exact H|]. split; [exact toy_neighbors_below|].
  exact (neighbor_parents_collected 3 toy_parents toy_neighbors H
           toy_neighbors_below).
Defined.

(** X14 on the pooled embedding
    of nine points. *)
Lemma nearest_neighbor_classifier_zero_rate_witness :
  classifier_inputs toy_embedded toy_manifold_obs toy_manifold_sim 0
  /\ 0 < nrows toy_manifold_obs
  /\ (0 == 0)%Q
  /\ let n_obs := nrows toy_manifold_obs in
     let n_sim := nrows toy_manifold_sim in
     let k_adj := round_half_even (adjusted_k_float 1 n_obs n_sim) in
     get_knn_graph (pooled toy_manifold_obs toy_manifold_sim) k_adj
       "euclidean" true 0 = Ok toy_neighbors
     /\ Forall (Forall (fun j => 0 <= j < n_obs + n_sim)) toy_neighbors
     /\ nearest_neighbor_classifier 1 true "euclidean" (Fin 0) (Fin (1 # 50))
          false toy_embedded
        = (Raise ZeroDivisionError, toy_embedded).
Proof.
  split; [exact toy_embedded_inputs|].
  split; [reflexivity|]. split; [reflexivity|].
  split; [vm_compute; reflexivity|].
  split; [exact toy_neighbors_valid|].
  apply (nearest_neighbor_classifier_zero_rate toy_embedded 1 true "euclidean" 0
           (Fin (1 # 50)) false toy_manifold_obs toy_manifold_sim 0
           toy_neighbors).
  - exact toy_embedded_inputs.
  - reflexivity.
  - reflexivity.
  - vm_compute; reflexivity.
  - exact toy_neighbors_valid.
Defined.

(** [toy_alone] holds what the classifier reads. *)
Lemma toy_alone_inputs :
  classifier_inputs toy_alone toy_manifold_obs (Array2 1 []) 0.
Proof. split; vm_compute; reflexivity. Defined.

(** X15 on three observed
    cells, one neighbor each. *)
Lemma nearest_neighbor_classifier_no_doublets_witness :
  classifier_inputs toy_alone toy_manifold_obs (Array2 1 []) 0
  /\ 0 < nrows toy_manifold_obs
  /\ 0 <= 1 <= 2 ^ 53 /\ (0 < 1 # 10)%Q
  /\ get_knn_graph (pooled toy_manifold_obs (Array2 1 [])) 1 "euclidean" true 0
     = Ok [[1]; [2]; [0]]
  /\ Forall (Forall (fun j => 0 <= j < nrows toy_manifold_obs)) [[1]; [2]; [0]]
  /\ let result :=
       nearest_neighbor_classifier 1 true "euclidean" (Fin (1 # 10))
         (Fin (1 # 50)) false toy_alone in
     fst result = Ok tt
     /\ self (snd result) !! "doublet_scores_obs_"
        = Some (VFloats (replicate (length [[1]; [2]; [0]]) NaN))
     /\ self (snd result) !! "doublet_scores_sim_" = Some (VFloats []).
Proof.
  assert (Hvalid : Forall (Forall (fun j => 0 <= j < nrows toy_manifold_obs))
                     [[1]; [2]; [0]]).
  { repeat first [apply Forall_nil_2 | apply Forall_cons_2];
      (vm_compute; split; [discriminate|reflexivity]). }
  assert (Hk : 0 <= 1 <= 2 ^ 53) by (split; vm_compute; discriminate).
  split; [exact toy_alone_inputs|].
  split; [reflexivity|]. split; [exact Hk|]. split; [reflexivity|].
  split; [vm_compute; reflexivity|].
  split; [exact Hvalid|].
  apply (nearest_neighbor_classifier_no_doublets toy_alone 1 true "euclidean"
           (1 # 10) (Fin (1 # 50)) toy_manifold_obs (Array2 1 []) 0
           [[1]; [2]; [0]]).
  - exact toy_alone_inputs.
  - reflexivity.
  - reflexivity.
  - exact Hk.
  - reflexivity.
  - vm_compute; reflexivity.
  - reflexivity.
  - exact Hvalid.
Defined.

(** X16 on the object of
    three cells, before and after a simulation. *)
Lemma calculate_doublet_scores_before_set_manifold_witness :
  fst ((new_object ;;
        Scrublet_init toy_X None (Fin 2) (Some 1) (Fin (1 # 10)) (Fin (1 # 50)) 0)
         toy_fresh) = Ok tt
  /\ let w1 := snd ((new_object ;;
                     Scrublet_init toy_X None (Fin 2) (Some 1) (Fin (1 # 10))
                       (Fin (1 # 50)) 0) toy_fresh) in
     let w2 := snd (simulate_doublets None (Fin 1) w1) in
     calculate_doublet_scores true "euclidean" false w1
     = (Raise (AttributeError "manifold_obs_"), w1)
     /\ calculate_doublet_scores true "euclidean" false w2
        = (Raise (AttributeError "manifold_obs_"), w2).
Proof.
  split; [vm_compute; reflexivity|].
  apply (calculate_doublet_scores_before_set_manifold toy_X None (Fin 2) (Some 1)
           (Fin (1 # 10)) (Fin (1 # 50)) 0 None (Fin 1) true "euclidean" false
           toy_fresh).
  vm_compute; reflexivity.
Defined.

(** X17 with embeddings of one
    and of two coordinates. *)
Lemma calculate_doublet_scores_width_mismatch_witness :
  self toy_scrub !! "n_neighbors" = Some (VInt 1)
  /\ self toy_scrub !! "expected_doublet_rate" = Some (VFloat (Fin (1 # 10)))
  /\ self toy_scrub !! "stdev_doublet_rate" = Some (VFloat (Fin (1 # 50)))
  /\ ncols toy_manifold_obs <> ncols (Array2 2 [[Fin 1; Fin 2]])
  /\ (set_manifold toy_manifold_obs (Array2 2 [[Fin 1; Fin 2]]) ;;
      calculate_doublet_scores true "euclidean" false) toy_scrub
     = (Raise ValueError,
        snd (set_manifold toy_manifold_obs (Array2 2 [[Fin 1; Fin 2]]) toy_scrub)).
Proof.
  split; [vm_compute; reflexivity|]. split; [vm_compute; reflexivity|].
  split; [vm_compute; reflexivity|]. split; [discriminate|].
  apply (calculate_doublet_scores_width_mismatch toy_scrub 1 (Fin (1 # 10))
           (Fin (1 # 50)) toy_manifold_obs (Array2 2 [[Fin 1; Fin 2]]) true
           "euclidean" false).
  - vm_compute; reflexivity.
  - vm_compute; reflexivity.
  - vm_compute; reflexivity.
  - discriminate.
Defined.

(** ** call_doublets and the wrappers, further *)

(** X18 on the object as the constructor
    leaves it. *)
Lemma call_doublets_without_scores_witness :
  self toy_scrub !! "doublet_scores_obs_" = None
  /\ self toy_scrub !! "doublet_scores_sim_" = None
  /\ call_doublets (Some (Fin (1 # 20))) true toy_scrub
     = (Raise (AttributeError "doublet_scores_obs_"), toy_scrub)
  /\ call_doublets None true toy_scrub
     = (Ok VNone,
        World toy_library (np_random toy_scrub)
          (<["predicted_doublets_" := VNone]> (self toy_scrub))).
Proof.
  split; [vm_compute; reflexivity|]. split; [vm_compute; reflexivity|].
  apply (call_doublets_without_scores toy_scrub (Fin (1 # 20)) true);
    vm_compute; reflexivity.
Defined.

(** X19: a call with the threshold 0.05, then
    a call that searches for one. *)
Lemma call_doublets_supersedes_witness :
  scored toy_scored (floats_of toy_scored "doublet_scores_obs_")
    (floats_of toy_scored "doublet_scores_sim_")
    (floats_of toy_scored "doublet_errors_obs_")
  /\ calibrated (Some (Fin (1 # 20))) (floats_of toy_scored "doublet_scores_sim_")
       (Fin (1 # 20))
  /\ calibrated None (floats_of toy_scored "doublet_scores_sim_") toy_threshold
  /\ (call_doublets (Some (Fin (1 # 20))) true ;; call_doublets None false)
       toy_scored
     = call_doublets None false toy_scored.
Proof.
  assert (Hcal : calibrated None (floats_of toy_scored "doublet_scores_sim_")
                   toy_threshold)
    by (right; split; [reflexivity|vm_compute; reflexivity]).
  split; [exact toy_scored_scored|].
  split; [left; reflexivity|].
  split; [exact Hcal|].
  exact (call_doublets_supersedes toy_scored _ _ _ (Some (Fin (1 # 20)))
           (Fin (1 # 20)) true None toy_threshold false toy_scored_scored
           (or_introl eq_refl) Hcal).
Defined.

(** X20 on the scores of three cells and six
    doublets, with the threshold the search finds. *)
Lemma call_doublets_rates_witness :
  scored toy_scored (floats_of toy_scored "doublet_scores_obs_")
    (floats_of toy_scored "doublet_scores_sim_")
    (floats_of toy_scored "doublet_errors_obs_")
  /\ calibrated None (floats_of toy_scored "doublet_scores_sim_") toy_threshold
  /\ floats_of toy_scored "doublet_scores_obs_" <> []
  /\ floats_of toy_scored "doublet_scores_sim_" <> []
  /\ let w' := snd (call_doublets None true toy_scored) in
     exists predicted detected detectable,
       self w' !! "predicted_doublets_" = Some (VBools predicted)
       /\ self w' !! "detected_doublet_rate_" = Some (VFloat (Fin detected))
       /\ self w' !! "detectable_doublet_fraction_"
          = Some (VFloat (Fin detectable))
       /\ length predicted = length (floats_of toy_scored "doublet_scores_obs_")
       /\ (0 <= detected)%Q /\ (detected <= 1)%Q
       /\ (0 <= detectable)%Q /\ (detectable <= 1)%Q
       /\ detected
          = binary64
              (inject_Z (count_true predicted)
               / inject_Z (Z.of_nat
                             (length (floats_of toy_scored "doublet_scores_obs_"))))
       /\ ((detected == 0)%Q <-> count_true predicted = 0).
Proof.
  assert (Hcal : calibrated None (floats_of toy_scored "doublet_scores_sim_")
                   toy_threshold)
    by (right; split; [reflexivity|vm_compute; reflexivity]).
  assert (Hobs : floats_of toy_scored "doublet_scores_obs_" <> [])
    by (vm_compute; discriminate).
  assert (Hsim : floats_of toy_scored "doublet_scores_sim_" <> [])
    by (vm_compute; discriminate).
  split; [exact toy_scored_scored|]. split; [exact Hcal|].
  split; [exact Hobs|]. split; [exact Hsim|].
  exact (call_doublets_rates toy_scored _ _ _ None toy_threshold true
           toy_scored_scored Hcal Hobs Hsim).
Defined.


(** X22 with the thresholds 0.05 and
    0.5. *)
Lemma call_doublets_threshold_monotone_witness :
  scored toy_scored (floats_of toy_scored "doublet_scores_obs_")
    (floats_of toy_scored "doublet_scores_sim_")
    (floats_of toy_scored "doublet_errors_obs_")
  /\ (1 # 20 <= 1 # 2)%Q
  /\ floats_of toy_scored "doublet_scores_obs_" <> []
  /\ let w1 := snd (call_doublets (Some (Fin (1 # 20))) true toy_scored) in
     let w2 := snd (call_doublets (Some (Fin (1 # 2))) true toy_scored) in
     exists p1 p2 d1 d2,
       self w1 !! "predicted_doublets_" = Some (VBools p1)
       /\ self w2 !! "predicted_doublets_" = Some (VBools p2)
       /\ self w1 !! "detected_doublet_rate_" = Some (VFloat (Fin d1))
       /\ self w2 !! "detected_doublet_rate_" = Some (VFloat (Fin d2))
       /\ (forall i : nat, p2 !! i = Some true -> p1 !! i = Some true)
       /\ (d2 <= d1)%Q.
Proof.
  assert (Hobs : floats_of toy_scored "doublet_scores_obs_" <> [])
    by (vm_compute; discriminate).
  split; [exact toy_scored_scored|]. split; [discriminate|].
  split; [exact Hobs|].
  apply (call_doublets_threshold_monotone toy_scored _ _ _ (1 # 20) (1 # 2) true
           toy_scored_scored); [discriminate|exact Hobs].
Defined.

(** X23 with the threshold the search
    finds. *)
Lemma overall_rate_at_least_detected_witness :
  scored toy_scored (floats_of toy_scored "doublet_scores_obs_")
    (floats_of toy_scored "doublet_scores_sim_")
    (floats_of toy_scored "doublet_errors_obs_")
  /\ calibrated None (floats_of toy_scored "doublet_scores_sim_") toy_threshold
  /\ floats_of toy_scored "doublet_scores_obs_" <> []
  /\ 0 < count_true (map (fun x => fgt x toy_threshold)
                       (floats_of toy_scored "doublet_scores_sim_"))
  /\ let w' := snd (call_doublets None true toy_scored) in
     exists detected overall,
       self w' !! "detected_doublet_rate_" = Some (VFloat (Fin detected))
       /\ self w' !! "overall_doublet_rate_" = Some (VFloat (Fin overall))
       /\ (detected <= overall)%Q.
Proof.
  assert (Hcal : calibrated None (floats_of toy_scored "doublet_scores_sim_")
                   toy_threshold)
    by (right; split; [reflexivity|vm_compute; reflexivity]).
  assert (Hobs : floats_of toy_scored "doublet_scores_obs_" <> [])
    by (vm_compute; discriminate).
  assert (Hpos : 0 < count_true (map (fun x => fgt x toy_threshold)
                                   (floats_of toy_scored "doublet_scores_sim_")))
    by (vm_compute; reflexivity).
  split; [exact toy_scored_scored|]. split; [exact Hcal|].
  split; [exact Hobs|]. split; [exact Hpos|].
  exact (overall_rate_at_least_detected toy_scored _ _ _ None toy_threshold true
           toy_scored_scored Hcal Hobs Hpos).
Defined.

(** X24 on the scores of three
    cells, the search for a threshold left to [call_doublets]. *)
Lemma scrublet_call_doublets_results_stored_witness :
  scored toy_scored (floats_of toy_scored "doublet_scores_obs_")
    (floats_of toy_scored "doublet_scores_sim_")
    (floats_of toy_scored "doublet_errors_obs_")
  /\ length (floats_of toy_scored "doublet_scores_obs_") = 3%nat
  /\ exists res w',
       scrublet_call_doublets_results 3 (VPairs toy_parents) (Some (Fin 2)) 1
         (Fin (1 # 10)) false None 0 true toy_scored
       = (Ok res, w')
       /\ obs_doublet_score res
          = map VFloat (floats_of toy_scored "doublet_scores_obs_")
       /\ uns_doublet_scores_sim res
          = VFloats (floats_of toy_scored "doublet_scores_sim_")
       /\ uns_doublet_parents res = VPairs toy_parents
       /\ uns_parameters res = (Fin (1 # 10), Some (Fin 2), 1, 0)
       /\ length (obs_predicted_doublet res) = 3%nat
       /\ uns_threshold res = self w' !! "threshold_".
Proof.
  assert (Hlen : length (floats_of toy_scored "doublet_scores_obs_") = 3%nat)
    by (vm_compute; reflexivity).
  split; [exact toy_scored_scored|]. split; [exact Hlen|].
  apply (scrublet_call_doublets_results_stored toy_scored 3 (VPairs toy_parents)
           (Some (Fin 2)) 1 (Fin (1 # 10)) false None 0 true _ _ _
           toy_scored_scored Hlen).
  discriminate.
Defined.

(** X25 for [threshold_], on three cells
    embedded and scored. *)
Lemma call_outputs_unset_before_call_witness :
  "threshold_" ∈ call_outputs
  /\ self (snd ((new_object ;;
                 Scrublet_init toy_X None (Fin 2) (Some 1) (Fin (1 # 10))
                   (Fin (1 # 50)) 0 ;;
                 simulate_doublets None (Fin 1) ;;
                 set_manifold toy_manifold_obs toy_manifold_sim ;;
                 calculate_doublet_scores true "euclidean" false) toy_fresh))
       !! "threshold_"
     = None.
Proof.
  assert (H : "threshold_" ∈ call_outputs).
  { unfold call_outputs. do 2 apply list_elem_of_further. apply list_elem_of_here. }
  split; [exact H|].
  exact (call_outputs_unset_before_call toy_X None (Fin 2) (Some 1) (Fin (1 # 10))
           (Fin (1 # 50)) 0 None (Fin 1) toy_manifold_obs toy_manifold_sim true
           "euclidean" false toy_fresh "threshold_" H).
Defined.

(** The preprocessing of [toy_pipeline] assigns nothing. *)
Lemma toy_pipeline_keeps (mean_center normalize_variance : bool) :
  keeps "_random_state"
    (scrublet_preprocessing toy_pipeline mean_center normalize_variance).
Proof. intros w. now destruct mean_center, normalize_variance. Defined.

(** X26 on three cells and six doublets,
    with ten neighbors and without mean centering or variance
    normalisation. *)
Lemma scrublet_call_doublets_raises_witness :
  keeps "_random_state" (scrublet_preprocessing toy_pipeline false false)
  /\ exists e w',
       scrublet_call_doublets toy_pipeline toy_X toy_X (VPairs toy_parents)
         (Some (Fin 2)) (Some 10) (Fin (1 # 20)) (Fin (1 # 50)) false false 30
         true "euclidean" false None 0 true toy_fresh
       = (Raise e, w')
       /\ (false = false -> false = false -> is_Some (Some 10) ->
           e = AttributeError "_random_state"
           /\ self w' !! "doublet_scores_obs_" = None).
Proof.
  split; [exact (toy_pipeline_keeps false false)|].
  exact (scrublet_call_doublets_raises toy_pipeline toy_X toy_X
           (VPairs toy_parents) (Some (Fin 2)) (Some 10) (Fin (1 # 20))
           (Fin (1 # 50)) false false 30 true "euclidean" false None 0 true
           toy_fresh (toy_pipeline_keeps false false)).
Defined.

(** C3 on three cells and six doublets, with the search for a
    threshold left to [call_doublets]: the call raises before it. *)
Lemma scrublet_call_doublets_exposes_no_prediction_witness :
  keeps "_random_state" (scrublet_preprocessing toy_pipeline false false)
  /\ let run := scrublet_call_doublets toy_pipeline toy_X toy_X
                  (VPairs toy_parents) (Some (Fin 2)) (Some 10) (Fin (1 # 20))
                  (Fin (1 # 50)) false false 30 true "euclidean" false None 0
                  true toy_fresh in
     (forall res, fst run <> Ok res)
     /\ (false = false -> false = false -> is_Some (Some 10) ->
         fst run = Raise (AttributeError "_random_state")
         /\ self (snd run) !! "predicted_doublets_" = None
         /\ self (snd run) !! "threshold_" = None
         /\ self (snd run) !! "doublet_scores_obs_" = None).
Proof.
  split; [exact (toy_pipeline_keeps false false)|].
  exact (scrublet_call_doublets_exposes_no_prediction toy_pipeline toy_X toy_X
           (VPairs toy_parents) (Some (Fin 2)) (Some 10) (Fin (1 # 20))
           (Fin (1 # 50)) false false 30 true "euclidean" false None 0 true
           toy_fresh (toy_pipeline_keeps false false)).
Defined.
